(** * Debate arena agents: a shallow embedding of [src/main.py]

    The development follows the source file top to bottom:
    - the Python values the agents compute with (numbers, strings, lists
      indexed the Python way, insertion-ordered dictionaries, JSON values);
    - the round table [ROUNDS] and the [DebateState] record;
    - a small state/output/exception monad in which the three agents
      ([DebaterAgent], [ModeratorAgent], [JudgeAgent]) are written;
    - the properties of the agents.

    Modelling conventions.
    - Python [int] is [Z].  A finite Python [float] is modelled by the rational
      it denotes, kept in lowest terms; the two infinities and NaN, which
      [json.loads] accepts, are separate constructors.  Float rounding is not
      modelled: sums, quotients and differences are exact.
    - A Python [str] is a [string]; its characters are Rocq's [ascii].
    - A [dict] is the list of its bindings in insertion order.
    - Everything the agents ask of the outside world is an input of the model:
      the readings of the event-loop clock and the answers of the language
      model are queues in the [World]; the random draws of
      [initialize_debate] are arguments.  A computation that needs an input
      the queue no longer holds is [Stuck]: it has not finished.
    - Everything the agents do to the outside world is an [event] appended to
      the output log.  Calls to [logger] are not modelled.
    - The three agents work on one [DebateState].  The constructors of the
      agents, [DebaterAgent.set_speaking], [entrypoint] and the dispatch of
      [on_data_received] are not modelled; the handlers it dispatches to are
      the moves of the system. *)

From Stdlib Require Import ZArith QArith Qround Qabs String Ascii List Bool Lia.
From Stdlib Require Import Qminmax DecimalString.
Import ListNotations.

Local Open Scope string_scope.
Local Open Scope Z_scope.

(** ** Python exceptions raised by the modelled code *)

Inductive exn : Type :=
| IndexError
| KeyError
| TypeError
| AttributeError
| JSONDecodeError
| BackendError.

(** ** Numbers *)

Inductive pynum : Type :=
| PInt (z : Z)
| PFloat (q : Q)
| PInf (negative : bool)
| PNaN.

Definition Qltb (a b : Q) : bool := negb (Qle_bool b a).

(** Three-way comparison of two numbers; NaN compares with nothing. *)
Definition pcompare (a b : pynum) : option comparison :=
  match a, b with
  | PNaN, _ | _, PNaN => None
  | PInf s, PInf s' =>
      Some (if Bool.eqb s s' then Eq else if s then Lt else Gt)
  | PInf s, _ => Some (if s then Lt else Gt)
  | _, PInf s => Some (if s then Gt else Lt)
  | PInt x, PInt y => Some (x ?= y)
  | PInt x, PFloat y => Some (inject_Z x ?= y)%Q
  | PFloat x, PInt y => Some (x ?= inject_Z y)%Q
  | PFloat x, PFloat y => Some (x ?= y)%Q
  end.

(** [a < b] and [a > b] *)
Definition py_lt (a b : pynum) : bool :=
  match pcompare a b with Some Lt => true | _ => false end.

Definition py_gt (a b : pynum) : bool :=
  match pcompare a b with Some Gt => true | _ => false end.

(** [a >= b] *)
Definition py_ge (a b : pynum) : bool :=
  match pcompare a b with Some Gt | Some Eq => true | _ => false end.

(** The builtins [max(a, b)] and [min(a, b)]: the first argument is kept
    unless the second is strictly larger (smaller). *)
Definition py_max (a b : pynum) : pynum := if py_gt b a then b else a.
Definition py_min (a b : pynum) : pynum := if py_lt b a then b else a.

(** [x - k] for an [int] k *)
Definition py_sub_int (x : pynum) (k : Z) : pynum :=
  match x with
  | PInt z => PInt (z - k)
  | PFloat q => PFloat (Qred (q - inject_Z k))
  | PInf s => PInf s
  | PNaN => PNaN
  end.

(** [x + y] *)
Definition py_add (x y : pynum) : pynum :=
  match x, y with
  | PNaN, _ | _, PNaN => PNaN
  | PInf s, PInf s' => if Bool.eqb s s' then PInf s else PNaN
  | PInf s, _ | _, PInf s => PInf s
  | PInt a, PInt b => PInt (a + b)
  | PInt a, PFloat b => PFloat (Qred (inject_Z a + b))
  | PFloat a, PInt b => PFloat (Qred (a + inject_Z b))
  | PFloat a, PFloat b => PFloat (Qred (a + b))
  end.

(** [sum(l)]: starts from the int 0 and adds from the left. *)
Definition py_sum (l : list pynum) : pynum := fold_left py_add l (PInt 0).

(** [x / n] for a positive [int] n (true division: the result is a float). *)
Definition py_div_pos (x : pynum) (n : positive) : pynum :=
  match x with
  | PInt z => PFloat (Qred (z # n))
  | PFloat q => PFloat (Qred (q / inject_Z (Zpos n)))
  | PInf s => PInf s
  | PNaN => PNaN
  end.

(** [int(q)]: truncation towards zero. *)
Definition py_int (q : Q) : Z := Z.quot (Qnum q) (Zpos (Qden q)).

(** Rounding to the nearest integer, ties to the even one, as the float
    formatting and [round] do on the exact value. *)
Definition round_half_even (q : Q) : Z :=
  let f := Qfloor q in
  match ((q - inject_Z f) ?= (1 # 2))%Q with
  | Lt => f
  | Gt => f + 1
  | Eq => if Z.even f then f else f + 1
  end.

(** [round(x, 2)] *)
Definition py_round2 (x : pynum) : pynum :=
  match x with
  | PFloat q => PFloat (Qred (round_half_even (q * 100) # 100))
  | other => other
  end.

(** ** Strings *)

Definition decimal (z : Z) : string := NilZero.string_of_uint (N.to_uint (Z.to_N z)).

(** [f"{q:.1f}"] *)
Definition fixed1 (q : Q) : string :=
  let n := round_half_even (Qabs q * 10) in
  (if Qltb q 0 then "-" else "") ++ decimal (n / 10) ++ "." ++ decimal (n mod 10).

Definition is_upper (c : ascii) : bool :=
  let n := nat_of_ascii c in (Nat.leb 65 n && Nat.leb n 90)%bool.

Definition is_lower (c : ascii) : bool :=
  let n := nat_of_ascii c in (Nat.leb 97 n && Nat.leb n 122)%bool.

Definition to_lower (c : ascii) : ascii :=
  if is_upper c then ascii_of_nat (nat_of_ascii c + 32) else c.

Definition to_upper (c : ascii) : ascii :=
  if is_lower c then ascii_of_nat (nat_of_ascii c - 32) else c.

(** [s.lower()] *)
Fixpoint lower (s : string) : string :=
  match s with
  | EmptyString => EmptyString
  | String c r => String (to_lower c) (lower r)
  end.

(** [s.replace(a, b)] for single characters a and b *)
Fixpoint replace (a b : ascii) (s : string) : string :=
  match s with
  | EmptyString => EmptyString
  | String c r => String (if Ascii.eqb c a then b else c) (replace a b r)
  end.

(** [s.title()]: a letter that follows a letter is lowered, any other
    letter is raised. *)
Fixpoint title_from (previous_is_cased : bool) (s : string) : string :=
  match s with
  | EmptyString => EmptyString
  | String c r =>
      if (is_lower c || is_upper c)%bool
      then String (if previous_is_cased then to_lower c else to_upper c)
                  (title_from true r)
      else String c (title_from false r)
  end.

Definition title (s : string) : string := title_from false s.

(** [s[:n]] *)
Fixpoint prefix (n : nat) (s : string) : string :=
  match n, s with
  | S n', String c r => String c (prefix n' r)
  | _, _ => EmptyString
  end.

(** The one-character strings a [str] yields when it is iterated. *)
Fixpoint chars (s : string) : list string :=
  match s with
  | EmptyString => []
  | String c r => String c EmptyString :: chars r
  end.

(** ** Lists and dictionaries *)

(** [l[i]]: a negative index counts from the end, anything outside
    [-len(l) .. len(l)-1] raises [IndexError]. *)
Definition py_index {A : Type} (l : list A) (i : Z) : option A :=
  let n := Z.of_nat (length l) in
  if (0 <=? i) && (i <? n) then nth_error l (Z.to_nat i)
  else if (- n <=? i) && (i <? 0) then nth_error l (Z.to_nat (n + i))
  else None.

(** [l[-1]] *)
Definition py_last {A : Type} (l : list A) : option A := py_index l (-1).

(** A [dict] with [str] keys: the bindings in insertion order, each key once. *)
Definition dict (V : Type) : Type := list (string * V).

Fixpoint dget {V : Type} (d : dict V) (k : string) : option V :=
  match d with
  | [] => None
  | (k', v) :: r => if String.eqb k k' then Some v else dget r k
  end.

(** [k in d] *)
Definition dmem {V : Type} (d : dict V) (k : string) : bool :=
  match dget d k with Some _ => true | None => false end.

(** [d[k] = v] *)
Fixpoint dset {V : Type} (d : dict V) (k : string) (v : V) : dict V :=
  match d with
  | [] => [(k, v)]
  | (k', v') :: r =>
      if String.eqb k k' then (k', v) :: r else (k', v') :: dset r k v
  end.

(** [d.get(k, default)] *)
Definition dget_default {V : Type} (d : dict V) (k : string) (default : V) : V :=
  match dget d k with Some v => v | None => default end.

(** ** JSON values, as [json.loads] builds them and [json.dumps] takes them *)

#[warnings="-register-all"]
Inductive json : Type :=
| JNull
| JBool (b : bool)
| JNum (n : pynum)
| JStr (s : string)
| JArr (items : list json)
| JObj (fields : list (string * json)).

(** ** The round table and the debate state *)

(** The participants of a round: one debater, or the list of a crossfire. *)
Inductive speakers : Type :=
| Single (debater_id : string)
| Several (debater_ids : list string).

(** A round is the tuple (name, duration in seconds, speakers). *)
Definition round : Type := string * Z * speakers.

Definition DEBATE_TOPICS : list string :=
  [ "Should social media platforms regulate misinformation?";
    "Is universal basic income a viable economic policy?";
    "Should space exploration be prioritized over climate change solutions?" ].

Definition ROUNDS : list round :=
  [ ("constructive_a", 4 * 60, Single "A");
    ("constructive_c", 4 * 60, Single "C");
    ("crossfire_ac", 3 * 60, Several ["A"; "C"]);
    ("rebuttal_b", 4 * 60, Single "B");
    ("rebuttal_d", 4 * 60, Single "D");
    ("crossfire_bd", 3 * 60, Several ["B"; "D"]);
    ("summary_a", 3 * 60, Single "A");
    ("summary_c", 3 * 60, Single "C");
    ("grand_crossfire", 3 * 60, Several ["A"; "B"; "C"; "D"]);
    ("final_focus_b", 2 * 60, Single "B");
    ("final_focus_d", 2 * 60, Single "D") ].

Record DebateState : Type := mkDebateState {
  room_id : string;
  mode : string;
  round_index : Z;
  time_remaining : Q;
  roles : dict string;
  topic : string;
  scores : dict (list pynum);
  prep_time : dict Q;
  transcripts : dict (dict (list string));
  custom_rounds : option (list round)
}.

Definition set_round_index (v : Z) (s : DebateState) : DebateState :=
  mkDebateState (room_id s) (mode s) v (time_remaining s) (roles s) (topic s)
    (scores s) (prep_time s) (transcripts s) (custom_rounds s).

Definition set_time_remaining (v : Q) (s : DebateState) : DebateState :=
  mkDebateState (room_id s) (mode s) (round_index s) v (roles s) (topic s)
    (scores s) (prep_time s) (transcripts s) (custom_rounds s).

Definition set_roles (v : dict string) (s : DebateState) : DebateState :=
  mkDebateState (room_id s) (mode s) (round_index s) (time_remaining s) v (topic s)
    (scores s) (prep_time s) (transcripts s) (custom_rounds s).

Definition set_topic (v : string) (s : DebateState) : DebateState :=
  mkDebateState (room_id s) (mode s) (round_index s) (time_remaining s) (roles s) v
    (scores s) (prep_time s) (transcripts s) (custom_rounds s).

Definition set_scores (v : dict (list pynum)) (s : DebateState) : DebateState :=
  mkDebateState (room_id s) (mode s) (round_index s) (time_remaining s) (roles s)
    (topic s) v (prep_time s) (transcripts s) (custom_rounds s).

Definition set_prep_time (v : dict Q) (s : DebateState) : DebateState :=
  mkDebateState (room_id s) (mode s) (round_index s) (time_remaining s) (roles s)
    (topic s) (scores s) v (transcripts s) (custom_rounds s).

Definition set_transcripts (v : dict (dict (list string))) (s : DebateState)
  : DebateState :=
  mkDebateState (room_id s) (mode s) (round_index s) (time_remaining s) (roles s)
    (topic s) (scores s) (prep_time s) v (custom_rounds s).

(** The state [entrypoint] builds for a session. *)
Definition initial_state (room mode_ : string) : DebateState :=
  {| room_id := room; mode := mode_; round_index := 0; time_remaining := 0;
     roles := []; topic := ""; scores := [("T1", []); ("T2", [])];
     prep_time := []; transcripts := []; custom_rounds := None |}.

(** ** The world the agents run in *)

(** One answer of the language model to [self.llm.generate(prompt)]. *)
Inductive attempt : Type :=
| GenerateFails              (* the call raised *)
| EmptyText                  (* [response.text] is empty *)
| InvalidText                (* [json.loads] raised [JSONDecodeError] *)
| ParsedText (v : json).     (* [json.loads] returned [v] *)

Inductive event : Type :=
| SendData (payload : json) (to : option string)
| Sleep (seconds : Q)
| AskLLM (prompt : string)
| FileAppend (path : string) (content : json)
| FileWrite (path : string) (content : json)
| DeleteRoom.

Record World : Type := mkWorld {
  userdata : DebateState;         (* the shared [DebateState] *)
  score_history : list json;      (* [JudgeAgent.score_history] *)
  clock : list Q;                 (* readings [loop.time()] will return *)
  llm : list attempt;             (* answers [llm.generate] will return *)
  out : list event                (* what has been sent, slept, written *)
}.

Inductive Res (A : Type) : Type :=
| Ok (a : A) (w : World)
| Raised (e : exn) (w : World)
| Stuck (w : World).

Arguments Ok {A} a w.
Arguments Raised {A} e w.
Arguments Stuck {A} w.

Definition M (A : Type) : Type := World -> Res A.

Definition ret {A : Type} (a : A) : M A := fun w => Ok a w.

Definition bind {A B : Type} (m : M A) (k : A -> M B) : M B :=
  fun w =>
    match m w with
    | Ok a w' => k a w'
    | Raised e w' => Raised e w'
    | Stuck w' => Stuck w'
    end.

Declare Scope agent_scope.
Delimit Scope agent_scope with agent.
Notation "x <- m ;; k" := (bind m (fun x => k))
  (at level 61, m at next level, right associativity) : agent_scope.
Notation "m ;; k" := (bind m (fun _ => k))
  (at level 61, right associativity) : agent_scope.
Local Open Scope agent_scope.

(** The world in which a run ended, however it ended. *)
Definition world_of {A : Type} (r : Res A) : World :=
  match r with Ok _ w | Raised _ w | Stuck w => w end.

Definition raise {A : Type} (e : exn) : M A := fun w => Raised e w.

Definition get_state : M DebateState := fun w => Ok (userdata w) w.

Definition modify_state (f : DebateState -> DebateState) : M unit :=
  fun w => Ok tt (mkWorld (f (userdata w)) (score_history w) (clock w) (llm w) (out w)).

Definition get_history : M (list json) := fun w => Ok (score_history w) w.

Definition append_history (record : json) : M unit :=
  fun w => Ok tt (mkWorld (userdata w) (score_history w ++ [record]) (clock w) (llm w) (out w)).

Definition emit (e : event) : M unit :=
  fun w => Ok tt (mkWorld (userdata w) (score_history w) (clock w) (llm w) (out w ++ [e])).

(** [asyncio.get_event_loop().time()] *)
Definition now : M Q :=
  fun w =>
    match clock w with
    | [] => Stuck w
    | t :: rest => Ok t (mkWorld (userdata w) (score_history w) rest (llm w) (out w))
    end.

(** [await self.llm.generate(prompt)] *)
Definition generate (prompt : string) : M attempt :=
  emit (AskLLM prompt) ;;
  fun w =>
    match llm w with
    | [] => Stuck w
    | a :: rest => Ok a (mkWorld (userdata w) (score_history w) (clock w) rest (out w))
    end.

(** A lookup that raises when it finds nothing. *)
Definition or_raise {A : Type} (e : exn) (o : option A) : M A :=
  match o with Some a => ret a | None => raise e end.

Fixpoint for_each {A : Type} (l : list A) (body : A -> M unit) : M unit :=
  match l with
  | [] => ret tt
  | x :: r => body x ;; for_each r body
  end.

Definition send_data (payload : json) (to : option string) : M unit :=
  emit (SendData payload to).

Definition sleep (seconds : Q) : M unit := emit (Sleep seconds).

(** ** DebaterAgent *)

(** [DebaterAgent.receive_transcript(context, speaker, text)] *)
Definition receive_transcript (speaker text : string) : M unit :=
  s <- get_state ;;
  r <- or_raise IndexError (py_index ROUNDS (round_index s)) ;;
  let round_name := fst (fst r) in
  (if dmem (transcripts s) round_name then ret tt
   else modify_state (fun s => set_transcripts (dset (transcripts s) round_name []) s)) ;;
  s <- get_state ;;
  per_round <- or_raise KeyError (dget (transcripts s) round_name) ;;
  (if dmem per_round speaker then ret tt
   else modify_state (fun s =>
          set_transcripts (dset (transcripts s) round_name (dset per_round speaker [])) s)) ;;
  s <- get_state ;;
  per_round <- or_raise KeyError (dget (transcripts s) round_name) ;;
  utterances <- or_raise KeyError (dget per_round speaker) ;;
  modify_state (fun s =>
    set_transcripts
      (dset (transcripts s) round_name
         (dset per_round speaker (utterances ++ [prefix 1000 text])%list)) s) ;;
  emit (FileAppend ("transcripts_" ++ room_id s ++ "_" ++ round_name ++ ".json")
          (JObj [(speaker, JStr text)])).

(** ** ModeratorAgent *)

(** [ModeratorAgent.announce(message)] *)
Definition announce (message : string) : M unit :=
  send_data (JObj [("type", JStr "announcement"); ("message", JStr message)]) None.

(** [ModeratorAgent.end_debate()] *)
Definition end_debate : M unit :=
  announce "Debate concluded. Awaiting final scores from the Judge." ;;
  send_data (JObj [("type", JStr "finalize_scores")]) (Some "judge").

(** [self.debate_state.custom_rounds or ROUNDS]: an absent or empty custom
    list gives the default table. *)
Definition active_rounds (s : DebateState) : list round :=
  match custom_rounds s with
  | Some (r :: l) => r :: l
  | _ => ROUNDS
  end.

Definition is_crossfire (sp : speakers) : bool :=
  match sp with Several _ => true | Single _ => false end.

(** [speakers if is_crossfire else [speakers]] *)
Definition participants (sp : speakers) : list string :=
  match sp with Several l => l | Single d => [d] end.

Definition speakers_json (sp : speakers) : json :=
  match sp with Several l => JArr (map JStr l) | Single d => JStr d end.

(** [debater_id in ["C", "D"] or (mode == "single" and debater_id == "B")] *)
Definition may_speak (mode_ debater_id : string) : bool :=
  existsb (String.eqb debater_id) ["C"; "D"]
  || (String.eqb mode_ "single" && String.eqb debater_id "B").

Definition set_speaking_message (can_speak : bool) : json :=
  JObj [("type", JStr "set_speaking"); ("can_speak", JBool can_speak)].

Definition state_message (round_name : string) (sp : speakers) (remaining : pynum) : json :=
  JObj [("type", JStr "state"); ("round", JStr round_name);
        ("speakers", speakers_json sp); ("time_remaining", JNum remaining)].

(** Send [set_speaking] to one debater if the debater may speak. *)
Definition signal_speaking (can_speak : bool) (debater_id : string) : M unit :=
  s <- get_state ;;
  if may_speak (mode s) debater_id
  then send_data (set_speaking_message can_speak) (Some ("debater_" ++ lower debater_id))
  else ret tt.

(** The countdown of [start_round]:
    [while loop.time() < end_time: sleep; update; broadcast; break if <= 0].
    Every turn reads the clock, so [fuel] above the number of readings left
    is never used up. *)
Fixpoint countdown (fuel : nat) (end_time : Q) (round_name : string) (sp : speakers)
  : M unit :=
  match fuel with
  | O => fun w => Stuck w
  | S fuel' =>
      t <- now ;;
      if Qltb t end_time then
        sleep (1 # 10) ;;
        t' <- now ;;
        let remaining := Qred (end_time - t') in
        modify_state (set_time_remaining remaining) ;;
        send_data (state_message round_name sp (PFloat remaining)) None ;;
        if Qle_bool remaining 0 then ret tt
        else countdown fuel' end_time round_name sp
      else ret tt
  end.

(** [ModeratorAgent.start_round()] *)
Definition start_round : M unit :=
  s <- get_state ;;
  let rounds := active_rounds s in
  if Z.of_nat (length rounds) <=? round_index s then end_debate
  else
    r <- or_raise IndexError (py_index rounds (round_index s)) ;;
    let '(round_name, duration, sp) := r in
    modify_state (set_time_remaining (inject_Z duration)) ;;
    announce ("Starting round: " ++ title (replace "_" " " round_name)) ;;
    send_data (state_message round_name sp (PInt duration)) None ;;
    for_each (participants sp) (signal_speaking true) ;;
    t0 <- now ;;
    let end_time := (t0 + inject_Z duration)%Q in
    (fun w => countdown (S (length (clock w))) end_time round_name sp w) ;;
    announce "Time's up! Please stop speaking." ;;
    (if is_crossfire sp
     then for_each (participants sp) (signal_speaking false)
     else match sp with
          | Single debater_id => signal_speaking false debater_id
          | Several _ => ret tt
          end) ;;
    s <- get_state ;;
    (if (duration =? 3 * 60) && Qltb (time_remaining s) 0
     then let shortfall := Qabs (time_remaining s) in
          announce ("Warning: Round ended " ++ fixed1 shortfall
                    ++ "s early. Points may be deducted.")
     else ret tt) ;;
    modify_state (fun s => set_round_index (round_index s + 1) s) ;;
    send_data (JObj [("type", JStr "score_round")]) (Some "judge").

(** [ModeratorAgent.offer_prep_time()] *)
Definition offer_prep_time : M unit :=
  announce "Do teams need prep time? Reply with team ID (T1/T2) to request." ;;
  start_round.

(** [ModeratorAgent.initialize_debate()].  [swapped] is the outcome of
    [random.shuffle(roles)], [pick] the index [random.choice] draws. *)
Definition initialize_debate (swapped : bool) (pick : nat) : M unit :=
  let shuffled := if swapped then ["Con"; "Pro"] else ["Pro"; "Con"] in
  role_t1 <- or_raise IndexError (py_index shuffled 0) ;;
  role_t2 <- or_raise IndexError (py_index shuffled 1) ;;
  modify_state (set_roles [("T1", role_t1); ("T2", role_t2)]) ;;
  modify_state (set_topic (nth (pick mod length DEBATE_TOPICS) DEBATE_TOPICS "")) ;;
  modify_state (set_prep_time [("T1", inject_Z (2 * 60)); ("T2", inject_Z (2 * 60))]) ;;
  modify_state (set_round_index 0) ;;
  modify_state (set_transcripts []) ;;
  s <- get_state ;;
  t1 <- or_raise KeyError (dget (roles s) "T1") ;;
  t2 <- or_raise KeyError (dget (roles s) "T2") ;;
  announce ("Team T1 (A, B) is " ++ t1 ++ ", Team T2 (C, D) is " ++ t2
            ++ ". Topic: " ++ topic s) ;;
  offer_prep_time.

(** [ModeratorAgent.request_prep_time(context, team)] *)
Definition request_prep_time (team : string) : M unit :=
  s <- get_state ;;
  if negb (dmem (prep_time s) team) then announce ("Invalid team: " ++ team)
  else
    available <- or_raise KeyError (dget (prep_time s) team) ;;
    if Qle_bool available 0
    then announce ("Team " ++ team ++ " has no prep time remaining.")
    else
      let duration := if Qltb (inject_Z (2 * 60)) available
                      then inject_Z (2 * 60) else available in
      modify_state (fun s => set_prep_time
                               (dset (prep_time s) team (Qred (available - duration))) s) ;;
      announce ("Team " ++ team ++ " using " ++ fixed1 (duration / 60) ++ " min of prep time.") ;;
      sleep duration ;;
      announce ("Prep time for Team " ++ team ++ " is over.") ;;
      start_round.

(** ** JudgeAgent *)

Definition newline : string := String (ascii_of_nat 10) EmptyString.

(** The prompt of [evaluate_round]. *)
Definition evaluation_prompt (round_name : string) (round_transcripts : dict (list string))
  : string :=
  fold_left
    (fun prompt '(speaker, texts) =>
       prompt ++ speaker ++ ": " ++ String.concat " " texts ++ newline)
    round_transcripts
    ("Evaluate the following debate round (" ++ round_name
     ++ ") based on logic, evidence, delivery, and refutation. "
     ++ "Assign scores from 21-30 for each team (T1: A, B; T2: C, D). "
     ++ "Verify factual claims and adjust scores: "
     ++ "+1-2 for verified facts, -1-2 for incorrect facts. Provide a brief explanation."
     ++ newline ++ newline ++ "Transcripts:" ++ newline).

(** The local variables [score_t1], [score_t2], [explanation]. *)
Definition verdict : Type := pynum * pynum * json.

(** What [max] and [min] can compare with an [int]: numbers, and booleans,
    which are the ints 0 and 1.  Anything else raises [TypeError]. *)
Definition comparable (v : json) : option pynum :=
  match v with
  | JNum n => Some n
  | JBool b => Some (PInt (if b then 1 else 0))
  | _ => None
  end.

(** [min(max(result.get(key, 25), 21), 30)] *)
Definition clamped (result : dict json) (key : string) : option pynum :=
  match comparable (dget_default result key (JNum (PInt 25))) with
  | Some n => Some (py_min (py_max n (PInt 21)) (PInt 30))
  | None => None
  end.

(** The three assignments of the [try] body, on a parsed [result].  The
    exception, if any, comes with the variables as they stand when it is
    raised. *)
Definition read_result (result : dict json) (v : verdict) : verdict * option exn :=
  let '(score_t1, score_t2, explanation) := v in
  match clamped result "T1" with
  | None => ((score_t1, score_t2, explanation), Some TypeError)
  | Some s1 =>
      match clamped result "T2" with
      | None => ((s1, score_t2, explanation), Some TypeError)
      | Some s2 =>
          ((s1, s2, dget_default result "explanation" (JStr "No explanation provided")),
           None)
      end
  end.

(** The [try] body on one answer of the language model. *)
Definition try_body (a : attempt) (v : verdict) : verdict * option exn :=
  match a with
  | GenerateFails => (v, Some BackendError)
  | InvalidText => (v, Some JSONDecodeError)
  | EmptyText => read_result [] v
  | ParsedText (JObj result) => read_result result v
  | ParsedText _ => (v, Some AttributeError)
  end.

(** [for attempt in range(3): try: ...; break; except: ...] *)
Fixpoint retry (attempts : list Z) (prompt : string) (v : verdict) : M verdict :=
  match attempts with
  | [] => ret v
  | attempt_no :: rest =>
      a <- generate prompt ;;
      match try_body a v with
      | (v', None) => ret v'
      | ((s1, s2, explanation), Some _) =>
          retry rest prompt
            (if attempt_no =? 2 then (s1, s2, JStr "Failed to evaluate round")
             else (s1, s2, explanation))
      end
  end.

(** [explanation += note] for a [str] note: concatenation on a [str], the
    characters appended to a list, [TypeError] on anything else. *)
Definition add_note (explanation : json) (note : string) : option json :=
  match explanation with
  | JStr s => Some (JStr (s ++ note))
  | JArr items => Some (JArr (items ++ map JStr (chars note))%list)
  | _ => None
  end.

(** [max(21, score - int(shortfall))] *)
Definition penalised (score : pynum) (shortfall : Q) : pynum :=
  py_max (PInt 21) (py_sub_int score (py_int shortfall)).

(** [JudgeAgent.evaluate_round(round_name, transcripts, state)] *)
Definition evaluate_round (round_name : string) (round_transcripts : dict (list string))
  : M (pynum * pynum) :=
  let prompt := evaluation_prompt round_name round_transcripts in
  v <- retry [0; 1; 2] prompt (PInt 25, PInt 25, JStr "Default score") ;;
  let '(score_t1, score_t2, explanation) := v in
  s <- get_state ;;
  r <- or_raise IndexError (py_index ROUNDS (round_index s)) ;;
  v <- (if (snd (fst r) =? 3 * 60) && Qltb (time_remaining s) 0
        then let shortfall := (Qabs (time_remaining s) / 30)%Q in
             explanation' <- or_raise TypeError
               (add_note explanation
                  (" Deducted " ++ fixed1 shortfall ++ " points for early round end.")) ;;
             ret (penalised score_t1 shortfall, penalised score_t2 shortfall, explanation')
        else ret (score_t1, score_t2, explanation)) ;;
  let '(score_t1, score_t2, explanation) := v in
  append_history
    (JObj [("round", JStr round_name); ("T1_score", JNum score_t1);
           ("T2_score", JNum score_t2); ("explanation", explanation)]) ;;
  ret (score_t1, score_t2).

(** [context.userdata.scores[team].append(score)] *)
Definition append_score (team : string) (score : pynum) : M unit :=
  s <- get_state ;;
  l <- or_raise KeyError (dget (scores s) team) ;;
  modify_state (set_scores (dset (scores s) team (l ++ [score])%list)).

(** [v[key]] on a JSON object *)
Definition subscript (v : json) (key : string) : M json :=
  match v with
  | JObj fields => or_raise KeyError (dget fields key)
  | _ => raise TypeError
  end.

(** [JudgeAgent.score_round(context)] *)
Definition score_round : M unit :=
  s <- get_state ;;
  r <- or_raise IndexError (py_index ROUNDS (round_index s - 1)) ;;
  let round_name := fst (fst r) in
  let round_transcripts := dget_default (transcripts s) round_name [] in
  p <- evaluate_round round_name round_transcripts ;;
  let '(score_t1, score_t2) := p in
  append_score "T1" score_t1 ;;
  append_score "T2" score_t2 ;;
  history <- get_history ;;
  last_record <- or_raise IndexError (py_last history) ;;
  explanation <- subscript last_record "explanation" ;;
  send_data
    (JObj [("type", JStr "scores"); ("round", JStr round_name);
           ("T1_score", JNum score_t1); ("T2_score", JNum score_t2);
           ("explanation", explanation)]) None ;;
  send_data (JObj [("type", JStr "continue_debate")]) (Some "moderator").

(** [sum(l) / len(l) if l else 0] *)
Definition average (l : list pynum) : pynum :=
  match l with
  | [] => PInt 0
  | _ :: _ => py_div_pos (py_sum l) (Pos.of_nat (length l))
  end.

(** The [feedback] dictionary of [finalize_scores]. *)
Definition feedback_record (winner : string) (avg_t1 avg_t2 : pynum) (history : list json)
  : json :=
  JObj [("winner", JStr winner);
        ("T1_avg_score", JNum (py_round2 avg_t1));
        ("T2_avg_score", JNum (py_round2 avg_t2));
        ("T1_strengths", JStr (if py_ge avg_t1 (PInt 27)
                               then "Strong logic and delivery" else "Consistent arguments"));
        ("T1_improvements", JStr (if String.eqb winner "T2"
                                  then "Improve evidence if T1 lost" else "Maintain clarity"));
        ("T2_strengths", JStr (if py_ge avg_t2 (PInt 27)
                               then "Effective refutation" else "Good engagement"));
        ("T2_improvements", JStr (if String.eqb winner "T1"
                                  then "Enhance factual accuracy if T2 lost"
                                  else "Sustain persuasiveness"));
        ("score_history", JArr history)].

(** [winner = "T1" if avg_t1 > avg_t2 else "T2" if avg_t2 > avg_t1 else "Tie"] *)
Definition winner_of (avg_t1 avg_t2 : pynum) : string :=
  if py_gt avg_t1 avg_t2 then "T1" else if py_gt avg_t2 avg_t1 then "T2" else "Tie".

(** [JudgeAgent.finalize_scores(context)] *)
Definition finalize_scores : M unit :=
  s <- get_state ;;
  l1 <- or_raise KeyError (dget (scores s) "T1") ;;
  let avg_t1 := average l1 in
  l2 <- or_raise KeyError (dget (scores s) "T2") ;;
  let avg_t2 := average l2 in
  let winner := winner_of avg_t1 avg_t2 in
  history <- get_history ;;
  let feedback := feedback_record winner avg_t1 avg_t2 history in
  emit (FileWrite ("debate_results_" ++ room_id s ++ ".json") feedback) ;;
  send_data
    (JObj [("type", JStr "final_results"); ("winner", JStr winner);
           ("T1_avg_score", JNum (py_round2 avg_t1));
           ("T2_avg_score", JNum (py_round2 avg_t2));
           ("feedback", feedback)]) None ;;
  emit DeleteRoom.

(** ** The debate as a system of agents *)

(** The request the moderator sends to the judge as the last statement of a
    round that has run to its end. *)
Definition is_score_request (e : event) : bool :=
  match e with
  | SendData (JObj [(k, JStr t)]) (Some target) =>
      String.eqb k "type" && String.eqb t "score_round" && String.eqb target "judge"
  | _ => false
  end.

(** The rounds completed so far, read off the output log. *)
Definition completed_rounds (w : World) : nat :=
  length (filter is_score_request (out w)).

(** A system state: the world, and how many of the moderator's
    [score_round] requests the judge has taken up. *)
Record System : Type := mkSystem {
  world : World;
  served : nat
}.

(** Fresh inputs from the environment: more time passes, the language
    model answers. *)
Definition supply (readings : list Q) (answers : list attempt) (w : World) : World :=
  mkWorld (userdata w) (score_history w) readings answers (out w).

(** The moves of the system.  A handler may end in an exception or still be
    waiting for an input; the world it leaves behind is kept either way.  The
    judge scores a round only on a request of the moderator that it has not
    yet taken up. *)
Inductive step : System -> System -> Prop :=
| step_supply : forall s readings answers,
    step s (mkSystem (supply readings answers (world s)) (served s))
| step_transcript : forall s speaker text,
    step s (mkSystem (world_of (receive_transcript speaker text (world s))) (served s))
| step_prep : forall s team,
    step s (mkSystem (world_of (request_prep_time team (world s))) (served s))
| step_continue : forall s,
    step s (mkSystem (world_of (start_round (world s))) (served s))
| step_score : forall s,
    (served s < completed_rounds (world s))%nat ->
    step s (mkSystem (world_of (score_round (world s))) (S (served s)))
| step_finalize : forall s,
    step s (mkSystem (world_of (finalize_scores (world s))) (served s)).

(** A session starts from the state [entrypoint] builds, with the moderator
    entering through [initialize_debate]. *)
Definition boot (room mode_ : string) (swapped : bool) (pick : nat)
  (readings : list Q) (answers : list attempt) : System :=
  mkSystem
    (world_of (initialize_debate swapped pick
                 (mkWorld (initial_state room mode_) [] readings answers [])))
    0.

Inductive reachable : System -> Prop :=
| reach_boot : forall room mode_ swapped pick readings answers,
    reachable (boot room mode_ swapped pick readings answers)
| reach_step : forall s s', reachable s -> step s s' -> reachable s'.

(** ** Vocabulary of the properties *)

(** A score in the closed interval from 21 to 30. *)
Definition in_range (x : pynum) : Prop :=
  match x with
  | PInt z => 21 <= z <= 30
  | PFloat q => (21 <= q /\ q <= 30)%Q
  | PInf _ | PNaN => False
  end.

(** The debaters a run has addressed with [set_speaking] carrying
    [can_speak], in the order of sending. *)
Fixpoint speaking_targets (can_speak : bool) (evs : list event) : list string :=
  match evs with
  | [] => []
  | SendData (JObj [(_, JStr t); (_, JBool b)]) (Some target) :: r =>
      if String.eqb t "set_speaking" && Bool.eqb b can_speak
      then target :: speaking_targets can_speak r
      else speaking_targets can_speak r
  | _ :: r => speaking_targets can_speak r
  end.

(** The eligible debaters among the participants of a round. *)
Definition eligible (mode_ : string) (sp : speakers) : list string :=
  filter (may_speak mode_) (participants sp).

(** The rational a finite number denotes. *)
Definition value (x : pynum) : Q :=
  match x with
  | PInt z => inject_Z z
  | PFloat q => q
  | PInf _ | PNaN => 0
  end.

Definition finite (x : pynum) : Prop :=
  match x with PInt _ | PFloat _ => True | PInf _ | PNaN => False end.

(** The arithmetic mean of a list of rationals, 0 for the empty list. *)
Definition mean (l : list Q) : Q :=
  match l with
  | [] => 0
  | _ :: _ => (fold_right Qplus 0 l / inject_Z (Z.of_nat (length l)))%Q
  end.

(** An answer of the language model that is a failure of the backend or of
    the parse. *)
Definition failed (a : attempt) : Prop := a = GenerateFails \/ a = InvalidText.


(** The weakest precondition of a run: [Q] is to hold of the value and the
    world when the run returns, [E] of the world when it raises or is stuck. *)
Definition wp {A : Type} (m : M A) (Q : A -> World -> Prop) (E : World -> Prop)
  (w : World) : Prop :=
  match m w with
  | Ok a w' => Q a w'
  | Raised _ w' | Stuck w' => E w'
  end.

(** What the countdown of a round does to the world: it reads the clock,
    overwrites [time_remaining], sleeps and broadcasts the state.  A predicate
    is [timer_stable] when none of these can falsify it. *)
Definition timer_stable (Inv : World -> Prop) : Prop :=
  (forall u h c c' l o, Inv (mkWorld u h c l o) -> Inv (mkWorld u h c' l o)) /\
  (forall u h c l o tr,
     Inv (mkWorld u h c l o) -> Inv (mkWorld (set_time_remaining tr u) h c l o)) /\
  (forall u h c l o d,
     Inv (mkWorld u h c l o) -> Inv (mkWorld u h c l (o ++ [Sleep d]))) /\
  (forall u h c l o name sp x,
     Inv (mkWorld u h c l o) ->
     Inv (mkWorld u h c l (o ++ [SendData (state_message name sp x) None]))).

(** The event [announce message] leaves in the log. *)
Definition announcement (message : string) : event :=
  SendData (JObj [("type", JStr "announcement"); ("message", JStr message)]) None.

(** The events of one turn of the countdown. *)
Definition is_tick (e : event) : Prop :=
  (exists d, e = Sleep d) \/
  (exists name sp x, e = SendData (state_message name sp x) None).

(** The [set_speaking] messages to the eligible debaters of a round. *)
Definition speaking_signals (can_speak : bool) (mode_ : string) (sp : speakers)
  : list event :=
  map (fun d => SendData (set_speaking_message can_speak) (Some ("debater_" ++ lower d)))
      (eligible mode_ sp).

(** The log of a round that has run to its end: [ticks] are the events of
    its countdown, [remaining] is [time_remaining] when the countdown stops. *)
Definition round_log (mode_ : string) (r : round) (ticks : list event) (remaining : Q)
  : list event :=
  let '(round_name, duration, sp) := r in
  ([announcement ("Starting round: " ++ title (replace "_" " " round_name));
    SendData (state_message round_name sp (PInt duration)) None]
   ++ speaking_signals true mode_ sp
   ++ ticks
   ++ [announcement "Time's up! Please stop speaking."]
   ++ speaking_signals false mode_ sp
   ++ (if (duration =? 3 * 60) && Qltb remaining 0
       then [announcement ("Warning: Round ended " ++ fixed1 (Qabs remaining)
                           ++ "s early. Points may be deducted.")]
       else [])
   ++ [SendData (JObj [("type", JStr "score_round")]) (Some "judge")])%list.

(** The worlds a countdown can lead to from the world of components
    [u], [h], [l], [o]. *)
Definition ticking (u : DebateState) (h : list json) (l : list attempt) (o : list event)
  (w : World) : Prop :=
  exists tr c ticks,
    Forall is_tick ticks /\
    w = mkWorld (set_time_remaining tr u) h c l (o ++ ticks).

(** The worlds the judge's questions to the language model can lead to from
    the world of components [u], [h], [c], [o]: only answers are consumed
    and questions logged. *)
Definition asking (prompt : string) (u : DebateState) (h : list json) (c : list Q)
  (o : list event) (w : World) : Prop :=
  exists l n, w = mkWorld u h c l (o ++ repeat (AskLLM prompt) n).

(** The record [evaluate_round] appends to the score history. *)
Definition score_record (round_name : string) (score_t1 score_t2 : pynum)
  (explanation : json) : json :=
  JObj [("round", JStr round_name); ("T1_score", JNum score_t1);
        ("T2_score", JNum score_t2); ("explanation", explanation)].

(** The two messages [score_round] ends with. *)
Definition scores_messages (round_name : string) (score_t1 score_t2 : pynum)
  (explanation : json) : list event :=
  [SendData (JObj [("type", JStr "scores"); ("round", JStr round_name);
                   ("T1_score", JNum score_t1); ("T2_score", JNum score_t2);
                   ("explanation", explanation)]) None;
   SendData (JObj [("type", JStr "continue_debate")]) (Some "moderator")].


(** A round has run to its end between [w] and [w']. *)
Definition advanced (w w' : World) : Prop :=
  round_index (userdata w) < Z.of_nat (length (active_rounds (userdata w))) /\
  (exists tr, userdata w' =
              set_round_index (round_index (userdata w) + 1)
                (set_time_remaining tr (userdata w))) /\
  score_history w' = score_history w /\
  completed_rounds w' = S (completed_rounds w).

(** What a round that is running, or was cut short, has left alone in the
    world [w0] it started from: everything in the state but
    [time_remaining], the judge's history, the count of completed rounds. *)
Definition untouched (w0 w : World) : Prop :=
  (exists tr, userdata w = set_time_remaining tr (userdata w0)) /\
  score_history w = score_history w0 /\
  completed_rounds w = completed_rounds w0.

(** The part of the world the scheduling and scoring invariants read:
    [w'] agrees with [w] on it. *)
Definition same_digest (w w' : World) : Prop :=
  round_index (userdata w') = round_index (userdata w) /\
  custom_rounds (userdata w') = custom_rounds (userdata w) /\
  scores (userdata w') = scores (userdata w) /\
  completed_rounds w' = completed_rounds w.



(** The world in which [request_prep_time] starts the next round, for a
    team with [available] seconds of prep time: the budget is charged, the
    pause announced, slept through and announced as over. *)
Definition charged (team : string) (available : Q) (w : World) : World :=
  let duration := if Qltb (inject_Z (2 * 60)) available
                  then inject_Z (2 * 60) else available in
  mkWorld
    (set_prep_time (dset (prep_time (userdata w)) team (Qred (available - duration)))
       (userdata w))
    (score_history w) (clock w) (llm w)
    (out w ++ [announcement ("Team " ++ team ++ " using " ++ fixed1 (duration / 60)
                             ++ " min of prep time.");
               Sleep duration;
               announcement ("Prep time for Team " ++ team ++ " is over.")]).

(** A session in which [rounds] further rounds are run one after the other,
    each on a clock that lets it end, and none is scored. *)
Fixpoint play (rounds : nat) (s : System) : System :=
  match rounds with
  | O => s
  | S n =>
      let s' := play n s in
      mkSystem (world_of (start_round (supply [0; 0; 300]%Q [] (world s')))) (served s')
  end.

(** The world in which [initialize_debate] enters the first round. *)
Definition initialized (swapped : bool) (pick : nat) (w : World) : World :=
  let role_t1 := if swapped then "Con" else "Pro" in
  let role_t2 := if swapped then "Pro" else "Con" in
  let topic_ := nth (pick mod length DEBATE_TOPICS) DEBATE_TOPICS "" in
  mkWorld
    (set_transcripts []
       (set_round_index 0
          (set_prep_time [("T1", inject_Z (2 * 60)); ("T2", inject_Z (2 * 60))]
             (set_topic topic_
                (set_roles [("T1", role_t1); ("T2", role_t2)] (userdata w))))))
    (score_history w) (clock w) (llm w)
    (out w ++ [announcement ("Team T1 (A, B) is " ++ role_t1 ++ ", Team T2 (C, D) is "
                             ++ role_t2 ++ ". Topic: " ++ topic_);
               announcement "Do teams need prep time? Reply with team ID (T1/T2) to request."]).

(** The events of the turns of a countdown that broadcast the remaining
    times [xs]: before each broadcast the countdown sleeps a tenth of a
    second. *)
Definition turns (round_name : string) (sp : speakers) (xs : list Q) : list event :=
  flat_map (fun x => [Sleep (1 # 10);
                      SendData (state_message round_name sp (PFloat x)) None]) xs.

(** The prep budgets after a request of [team]. *)
Definition budgets_after (team : string) (budgets : dict Q) : dict Q :=
  match dget budgets team with
  | Some available =>
      if Qle_bool available 0 then budgets
      else dset budgets team
             (Qred (available - (if Qltb (inject_Z (2 * 60)) available
                                 then inject_Z (2 * 60) else available)))
  | None => budgets
  end.

(** The setup of a debate: the two roles, a topic of the list, the default
    round sequence, and for each team a prep budget that is whole or spent. *)
Definition set_up (u : DebateState) : Prop :=
  (roles u = [("T1", "Pro"); ("T2", "Con")] \/ roles u = [("T1", "Con"); ("T2", "Pro")]) /\
  In (topic u) DEBATE_TOPICS /\
  custom_rounds u = None /\
  exists b1 b2,
    prep_time u = [("T1", b1); ("T2", b2)] /\
    (b1 = inject_Z 120 \/ b1 = 0%Q) /\ (b2 = inject_Z 120 \/ b2 = 0%Q).

(** The scores a history record holds. *)
Definition recorded (rec : json) : option (pynum * pynum) :=
  match rec with
  | JObj [(_, _); (_, JNum s1); (_, JNum s2); (_, _)] => Some (s1, s2)
  | _ => None
  end.

(** The judge's history and the teams' score lists tell the same story:
    record by record, the scores of the history are those of the lists. *)
Definition tallied (w : World) : Prop :=
  exists l1 l2,
    dget (scores (userdata w)) "T1" = Some l1 /\
    dget (scores (userdata w)) "T2" = Some l2 /\
    length l1 = length l2 /\
    map recorded (score_history w) = map Some (combine l1 l2).

(** What a speaker has said in a round, as the transcripts have it. *)
Definition utterances_of (round_name speaker : string) (u : DebateState) : list string :=
  dget_default (dget_default (transcripts u) round_name []) speaker [].

(** Every score of the two lists is in the interval from 21 to 30, or NaN. *)
Definition graded (w : World) : Prop :=
  exists l1 l2,
    dget (scores (userdata w)) "T1" = Some l1 /\
    dget (scores (userdata w)) "T2" = Some l2 /\
    Forall (fun x => in_range x \/ x = PNaN) l1 /\
    Forall (fun x => in_range x \/ x = PNaN) l2.

(** The request the moderator sends to the judge when no round is left. *)
Definition is_finalize_request (e : event) : bool :=
  match e with
  | SendData (JObj [(k, JStr t)]) (Some target) =>
      String.eqb k "type" && String.eqb t "finalize_scores" && String.eqb target "judge"
  | _ => false
  end.



(** No stored utterance is longer than 1000 characters. *)
Definition capped (u : DebateState) : Prop :=
  forall round_name speaker x,
    In x (utterances_of round_name speaker u) -> (String.length x <= 1000)%nat.

(** * Properties *)

(** ** Rules of the weakest precondition *)

Section WpRules.
Context {A B : Type}.
Implicit Types (E : World -> Prop) (w : World).

Lemma wp_ret (Q : A -> World -> Prop) E (a : A) w :
  Q a w -> wp (ret a) Q E w.
Proof. intros H. exact H. Qed.

Lemma wp_bind (m : M A) (k : A -> M B) (R : B -> World -> Prop) E w :
  wp m (fun a w' => wp (k a) R E w') E w -> wp (bind m k) R E w.
Proof.
  unfold wp, bind. destruct (m w) as [a w' | e w' | w']; auto.
Qed.

Lemma wp_mono (m : M A) (Q Q' : A -> World -> Prop) E E' w :
  wp m Q E w ->
  (forall a w', Q a w' -> Q' a w') ->
  (forall w', E w' -> E' w') ->
  wp m Q' E' w.
Proof.
  unfold wp. intros H HQ HE. destruct (m w); auto.
Qed.

Lemma wp_raise (Q : A -> World -> Prop) E (e : exn) w :
  E w -> wp (raise e) Q E w.
Proof. intros H. exact H. Qed.

Lemma wp_or_raise (Q : A -> World -> Prop) E (e : exn) (o : option A) w :
  (forall a, o = Some a -> Q a w) ->
  (o = None -> E w) ->
  wp (or_raise e o) Q E w.
Proof. intros H1 H2. destruct o; unfold wp; simpl; auto. Qed.
End WpRules.

Lemma wp_get_state (Q : DebateState -> World -> Prop) E w :
  Q (userdata w) w -> wp get_state Q E w.
Proof. intros H. exact H. Qed.

Lemma wp_get_history (Q : list json -> World -> Prop) E w :
  Q (score_history w) w -> wp get_history Q E w.
Proof. intros H. exact H. Qed.

Lemma wp_modify_state (Q : unit -> World -> Prop) E f w :
  Q tt (mkWorld (f (userdata w)) (score_history w) (clock w) (llm w) (out w)) ->
  wp (modify_state f) Q E w.
Proof. intros H. exact H. Qed.

Lemma wp_append_history (Q : unit -> World -> Prop) E record w :
  Q tt (mkWorld (userdata w) (score_history w ++ [record]) (clock w) (llm w) (out w)) ->
  wp (append_history record) Q E w.
Proof. intros H. exact H. Qed.

Lemma wp_emit (Q : unit -> World -> Prop) E e w :
  Q tt (mkWorld (userdata w) (score_history w) (clock w) (llm w) (out w ++ [e])) ->
  wp (emit e) Q E w.
Proof. intros H. exact H. Qed.

Lemma wp_now (Q : Q -> World -> Prop) E w :
  (forall t rest, clock w = t :: rest ->
     Q t (mkWorld (userdata w) (score_history w) rest (llm w) (out w))) ->
  (clock w = [] -> E w) ->
  wp now Q E w.
Proof.
  intros H1 H2. unfold wp, now. destruct (clock w) eqn:Hc; auto.
Qed.

Lemma wp_generate (Q : attempt -> World -> Prop) E prompt w :
  (forall a rest, llm w = a :: rest ->
     Q a (mkWorld (userdata w) (score_history w) (clock w) rest
            (out w ++ [AskLLM prompt]))) ->
  (llm w = [] ->
   E (mkWorld (userdata w) (score_history w) (clock w) [] (out w ++ [AskLLM prompt]))) ->
  wp (generate prompt) Q E w.
Proof.
  intros H1 H2. unfold wp, generate, bind, emit. simpl.
  destruct (llm w) eqn:Hl; auto.
Qed.

(** ** Stepping through a run *)

Ltac wp_step :=
  lazymatch goal with
  | |- wp (bind _ _) _ _ _ => apply wp_bind
  | |- wp (ret _) _ _ _ => apply wp_ret
  | |- wp get_state _ _ _ => apply wp_get_state
  | |- wp get_history _ _ _ => apply wp_get_history
  | |- wp (modify_state _) _ _ _ => apply wp_modify_state
  | |- wp (append_history _) _ _ _ => apply wp_append_history
  | |- wp (emit _) _ _ _ => apply wp_emit
  | |- wp (send_data _ _) _ _ _ => apply wp_emit
  | |- wp (sleep _) _ _ _ => apply wp_emit
  | |- wp (announce _) _ _ _ => apply wp_emit
  | |- wp (raise _) _ _ _ => apply wp_raise
  | |- wp end_debate _ _ _ => unfold end_debate
  end; cbv beta.

Ltac wp_steps := repeat wp_step.

Ltac wsimpl := cbn [userdata score_history clock llm out] in *.

(** ** Records and the output log *)

Lemma set_time_remaining_same s : set_time_remaining (time_remaining s) s = s.
Proof. destruct s; reflexivity. Qed.

Lemma completed_rounds_emit u h c l o e :
  completed_rounds (mkWorld u h c l (o ++ [e])) =
  if is_score_request e
  then S (completed_rounds (mkWorld u h c l o))
  else completed_rounds (mkWorld u h c l o).
Proof.
  unfold completed_rounds. simpl. rewrite filter_app, length_app. simpl.
  destruct (is_score_request e); simpl; lia.
Qed.

Lemma untouched_refl w : untouched w w.
Proof.
  repeat split. exists (time_remaining (userdata w)).
  symmetry. apply set_time_remaining_same.
Qed.

Lemma untouched_timer_stable w0 : timer_stable (untouched w0).
Proof.
  unfold timer_stable, untouched.
  split; [| split; [| split]]; simpl.
  - intros u h c c' l o ([tr Hu] & Hh & Hc). eauto.
  - intros u h c l o tr ([tr' Hu] & Hh & Hc). repeat split; auto.
    exists tr. rewrite Hu. reflexivity.
  - intros u h c l o d ([tr Hu] & Hh & Hc). repeat split; eauto.
    rewrite completed_rounds_emit. exact Hc.
  - intros u h c l o name sp x ([tr Hu] & Hh & Hc). repeat split; eauto.
    rewrite completed_rounds_emit. exact Hc.
Qed.

Lemma wp_of_ok {A : Type} (m : M A) Q E w a w' :
  m w = Ok a w' -> Q a w' -> wp m Q E w.
Proof. unfold wp. intros ->. auto. Qed.

Lemma completed_rounds_app u h c l o evs :
  completed_rounds (mkWorld u h c l (o ++ evs)) =
  (completed_rounds (mkWorld u h c l o) + length (filter is_score_request evs))%nat.
Proof. unfold completed_rounds. simpl. rewrite filter_app, length_app. reflexivity. Qed.

Lemma untouched_emits w0 u h c l o evs :
  filter is_score_request evs = [] ->
  untouched w0 (mkWorld u h c l o) -> untouched w0 (mkWorld u h c l (o ++ evs)).
Proof.
  intros He (Hu & Hh & Hc). repeat split; auto.
  rewrite completed_rounds_app, He. simpl. rewrite Nat.add_0_r. exact Hc.
Qed.

Lemma untouched_clock w0 u h c c' l o :
  untouched w0 (mkWorld u h c l o) -> untouched w0 (mkWorld u h c' l o).
Proof. apply untouched_timer_stable. Qed.

Lemma untouched_time w0 u h c l o tr :
  untouched w0 (mkWorld u h c l o) ->
  untouched w0 (mkWorld (set_time_remaining tr u) h c l o).
Proof. apply untouched_timer_stable. Qed.

(** ** The countdown and the rounds of the moderator *)

Lemma wp_countdown (Inv : World -> Prop) fuel end_time round_name sp w :
  timer_stable Inv -> Inv w ->
  wp (countdown fuel end_time round_name sp) (fun _ => Inv) Inv w.
Proof.
  intros (Hclock & Htime & Hsleep & Hstate). revert w.
  induction fuel as [| fuel IH]; intros w Hw.
  - exact Hw.
  - destruct w as [u h c l o].
    simpl. apply wp_bind. apply wp_now; [| intros _; exact Hw].
    simpl. intros t rest Hc.
    destruct (Qltb t end_time);
      [| apply wp_ret; apply Hclock with (c := c); exact Hw].
    wp_steps. simpl.
    apply wp_now; simpl.
    + intros t' rest' Hc'. wp_steps. simpl.
      assert (Hnext : Inv (mkWorld (set_time_remaining (Qred (end_time - t')) u) h rest' l
                             ((o ++ [Sleep (1 # 10)]) ++
                              [SendData (state_message round_name sp
                                           (PFloat (Qred (end_time - t')))) None]))).
      { apply Hstate, Htime, Hsleep, Hclock with (c := c). exact Hw. }
      match goal with |- wp (if ?b then _ else _) _ _ _ => destruct b end.
      * apply wp_ret. exact Hnext.
      * apply IH. exact Hnext.
    + intros _. apply Hsleep, Hclock with (c := c). exact Hw.
Qed.

Lemma for_each_signal_speaking b ds w :
  for_each ds (signal_speaking b) w =
  Ok tt (mkWorld (userdata w) (score_history w) (clock w) (llm w)
           (out w ++ map (fun d => SendData (set_speaking_message b)
                                     (Some ("debater_" ++ lower d)))
                         (filter (may_speak (mode (userdata w))) ds))).
Proof.
  revert w. induction ds as [| d ds IH]; intros [u h c l o]; wsimpl.
  - simpl. rewrite app_nil_r. reflexivity.
  - cbn [for_each filter]. unfold bind at 1.
    unfold signal_speaking at 1. unfold bind at 1. unfold get_state at 1. wsimpl.
    destruct (may_speak (mode u) d).
    + unfold send_data, emit. wsimpl. rewrite IH. wsimpl.
      rewrite <- app_assoc. reflexivity.
    + unfold ret. rewrite IH. reflexivity.
Qed.

Lemma signals_not_requests b m sp :
  filter is_score_request (speaking_signals b m sp) = [].
Proof.
  unfold speaking_signals. induction (eligible m sp); simpl; auto.
Qed.

Lemma ticks_not_requests ticks :
  Forall is_tick ticks -> filter is_score_request ticks = [].
Proof.
  induction 1 as [| e r He _ IH]; simpl; auto.
  destruct He as [[d ->] | (name & sp & x & ->)]; simpl; exact IH.
Qed.

Lemma ticking_timer_stable u h l o : timer_stable (ticking u h l o).
Proof.
  unfold timer_stable, ticking.
  split; [| split; [| split]].
  - intros u' h' c c' l' o' (tr & c0 & ticks & Ht & E). inversion E; subst.
    exists tr, c', ticks. auto.
  - intros u' h' c l' o' tr' (tr & c0 & ticks & Ht & E). inversion E; subst.
    exists tr', c0, ticks. auto.
  - intros u' h' c l' o' d (tr & c0 & ticks & Ht & E). inversion E; subst.
    exists tr, c0, (ticks ++ [Sleep d])%list. split.
    + apply Forall_app. split; [exact Ht |]. constructor; [| constructor].
      left. eauto.
    + rewrite app_assoc. reflexivity.
  - intros u' h' c l' o' name sp x (tr & c0 & ticks & Ht & E). inversion E; subst.
    exists tr, c0, (ticks ++ [SendData (state_message name sp x) None])%list. split.
    + apply Forall_app. split; [exact Ht |]. constructor; [| constructor].
      right. eauto.
    + rewrite app_assoc. reflexivity.
Qed.

Lemma ticking_refl u h c l o : ticking u h l o (mkWorld u h c l o).
Proof.
  exists (time_remaining u), c, []. split; [constructor |].
  rewrite set_time_remaining_same, app_nil_r. reflexivity.
Qed.

Lemma ticking_untouched w0 u h c l o w :
  untouched w0 (mkWorld u h c l o) -> ticking u h l o w -> untouched w0 w.
Proof.
  intros Hw (tr & c' & ticks & Ht & ->).
  apply untouched_emits; [apply ticks_not_requests; exact Ht |].
  apply untouched_time, untouched_clock with (c := c). exact Hw.
Qed.

Lemma disable_speaking sp w :
  (if is_crossfire sp
   then for_each (participants sp) (signal_speaking false)
   else match sp with
        | Single debater_id => signal_speaking false debater_id
        | Several _ => ret tt
        end) w =
  Ok tt (mkWorld (userdata w) (score_history w) (clock w) (llm w)
           (out w ++ speaking_signals false (mode (userdata w)) sp)).
Proof.
  destruct sp as [d | ds]; cbn [is_crossfire].
  - pose proof (for_each_signal_speaking false [d] w) as H.
    cbn [for_each] in H. unfold bind in H.
    destruct (signal_speaking false d w) as [[] w' | e w' | w'];
      try discriminate H. exact H.
  - apply for_each_signal_speaking.
Qed.

(** A round that runs to its end. *)
Lemma start_round_from w0 u h c l o :
  untouched w0 (mkWorld u h c l o) ->
  round_index u < Z.of_nat (length (active_rounds u)) ->
  wp start_round
    (fun _ w' =>
       exists r tr c' ticks,
         py_index (active_rounds u) (round_index u) = Some r /\
         Forall is_tick ticks /\
         w' = mkWorld (set_round_index (round_index u + 1) (set_time_remaining tr u))
                h c' l (o ++ round_log (mode u) r ticks tr))
    (untouched w0) (mkWorld u h c l o).
Proof.
  intros Hw Hlt.
  unfold start_round. wp_steps. wsimpl.
  apply Z.leb_gt in Hlt. rewrite Hlt.
  wp_step. apply wp_or_raise; [| intros _; exact Hw].
  intros [[round_name duration] sp] Hr.
  wp_steps. wsimpl.
  eapply wp_of_ok; [apply for_each_signal_speaking |]. wsimpl.
  cbn [set_time_remaining mode].
  fold (set_time_remaining (inject_Z duration) u).
  fold (eligible (mode u) sp).
  fold (speaking_signals true (mode u) sp).
  fold (announcement ("Starting round: " ++ title (replace "_" " " round_name))).
  match goal with |- context [mkWorld _ _ _ _ ?x] => set (o1 := x) end.
  assert (Ho1 : filter is_score_request
                  ([announcement ("Starting round: " ++ title (replace "_" " " round_name));
                    SendData (state_message round_name sp (PInt duration)) None]
                   ++ speaking_signals true (mode u) sp) = []).
  { rewrite filter_app, signals_not_requests. reflexivity. }
  assert (Eo1 : o1 = (o ++ [announcement ("Starting round: " ++ title (replace "_" " " round_name));
                            SendData (state_message round_name sp (PInt duration)) None]
                        ++ speaking_signals true (mode u) sp)%list).
  { subst o1. rewrite <- !app_assoc. reflexivity. }
  assert (H1 : untouched w0 (mkWorld (set_time_remaining (inject_Z duration) u) h c l o1)).
  { rewrite Eo1. apply untouched_emits; [exact Ho1 |]. apply untouched_time. exact Hw. }
  wp_step. apply wp_now; wsimpl; [| intros _; exact H1].
  intros t0 rest Hc. wp_step.
  apply wp_mono with (Q := fun _ => ticking (set_time_remaining (inject_Z duration) u) h l o1)
                     (E := ticking (set_time_remaining (inject_Z duration) u) h l o1).
  { apply wp_countdown; [apply ticking_timer_stable | apply ticking_refl]. }
  2:{ intros w' Hw'. eapply ticking_untouched; [exact H1 | exact Hw']. }
  intros [] w' Ht.
  destruct Ht as (tr & c' & ticks & Hticks & ->).
  cbn [set_time_remaining] in *. fold (set_time_remaining tr u) in *.
  wp_steps. wsimpl.
  eapply wp_of_ok; [apply disable_speaking |]. wsimpl.
  cbn [set_time_remaining mode time_remaining].
  fold (set_time_remaining tr u).
  fold (announcement "Time's up! Please stop speaking.").
  wp_steps. wsimpl. cbn [time_remaining set_time_remaining].
  fold (set_time_remaining tr u).
  destruct ((duration =? 3 * 60) && Qltb tr 0) eqn:Hpen.
  - wp_steps. wsimpl. cbn [round_index set_time_remaining].
    exists (round_name, duration, sp), tr, c', ticks.
    split; [exact Hr |]. split; [exact Hticks |].
    f_equal. rewrite Eo1. unfold round_log. rewrite Hpen.
    unfold announcement. rewrite <- !app_assoc. reflexivity.
  - wp_steps. wsimpl. cbn [round_index set_time_remaining].
    exists (round_name, duration, sp), tr, c', ticks.
    split; [exact Hr |]. split; [exact Hticks |].
    f_equal. rewrite Eo1. unfold round_log. rewrite Hpen.
    unfold announcement. rewrite <- !app_assoc. reflexivity.
Qed.

Lemma start_round_spec w :
  round_index (userdata w) < Z.of_nat (length (active_rounds (userdata w))) ->
  wp start_round
    (fun _ w' =>
       exists r tr c ticks,
         py_index (active_rounds (userdata w)) (round_index (userdata w)) = Some r /\
         Forall is_tick ticks /\
         w' = mkWorld (set_round_index (round_index (userdata w) + 1)
                         (set_time_remaining tr (userdata w)))
                (score_history w) c (llm w)
                (out w ++ round_log (mode (userdata w)) r ticks tr))
    (untouched w) w.
Proof.
  intros Hlt. pose proof (untouched_refl w) as Hw.
  destruct w as [u h c l o]. apply start_round_from; assumption.
Qed.

Lemma speaking_targets_app b evs evs' :
  speaking_targets b (evs ++ evs') = (speaking_targets b evs ++ speaking_targets b evs')%list.
Proof.
  induction evs as [| e evs IH]; [reflexivity |].
  cbn [app]. 
  destruct e as [payload to | | | | |]; cbn [speaking_targets]; try exact IH.
  destruct payload as [ | | | | | fields]; try exact IH.
  destruct fields as [| [k1 v1] fields]; try exact IH.
  destruct v1; try exact IH.
  destruct fields as [| [k2 v2] fields]; try exact IH.
  destruct v2; try exact IH.
  destruct fields; try exact IH.
  destruct to; try exact IH.
  destruct (String.eqb s "set_speaking" && Bool.eqb b0 b); [| exact IH].
  cbn [app]. rewrite IH. reflexivity.
Qed.

Lemma speaking_targets_ticks b ticks :
  Forall is_tick ticks -> speaking_targets b ticks = [].
Proof.
  induction 1 as [| e r He _ IH]; [reflexivity |].
  destruct He as [[d ->] | (name & sp & x & ->)]; exact IH.
Qed.

Lemma speaking_targets_signals b b' m sp :
  speaking_targets b (speaking_signals b' m sp) =
  if Bool.eqb b' b then map (fun d => "debater_" ++ lower d) (eligible m sp) else [].
Proof.
  unfold speaking_signals. induction (eligible m sp) as [| d ds IH].
  - destruct (Bool.eqb b' b); reflexivity.
  - cbn [map speaking_targets set_speaking_message].
    cbn [String.eqb Ascii.eqb Bool.eqb andb]. simpl (String.eqb _ _).
    cbn [andb]. rewrite IH. destruct (Bool.eqb b' b); reflexivity.
Qed.

Lemma speaking_targets_round_log b m r ticks tr :
  Forall is_tick ticks ->
  speaking_targets b (round_log m r ticks tr) =
  map (fun d => "debater_" ++ lower d) (eligible m (snd r)).
Proof.
  intros Ht. destruct r as [[name duration] sp]. unfold round_log. cbn [snd].
  rewrite !speaking_targets_app, !speaking_targets_signals, (speaking_targets_ticks _ _ Ht).
  destruct ((duration =? 3 * 60) && Qltb tr 0), b; cbn; rewrite ?app_nil_r; reflexivity.
Qed.

Lemma eligible_spec m sp d :
  In d (eligible m sp) <->
  In d (participants sp) /\ (d = "C" \/ d = "D" \/ (m = "single" /\ d = "B")).
Proof.
  unfold eligible, may_speak. rewrite filter_In. cbn [existsb].
  rewrite !orb_true_iff, andb_true_iff, !String.eqb_eq.
  intuition discriminate.
Qed.

(** C9.  A round that runs to its end sends "enable speaking" to exactly
    the eligible debaters among its participants -- the team-2 debaters C and
    D, and B only in mode "single" -- and, after the "time's up" notice,
    "disable speaking" to exactly the same debaters. *)
Theorem start_round_signals_the_eligible_debaters w w' :
  round_index (userdata w) < Z.of_nat (length (active_rounds (userdata w))) ->
  start_round w = Ok tt w' ->
  exists r ticks tr,
    py_index (active_rounds (userdata w)) (round_index (userdata w)) = Some r /\
    Forall is_tick ticks /\
    out w' = (out w ++ round_log (mode (userdata w)) r ticks tr)%list /\
    speaking_targets true (round_log (mode (userdata w)) r ticks tr) =
      map (fun d => "debater_" ++ lower d) (eligible (mode (userdata w)) (snd r)) /\
    speaking_targets false (round_log (mode (userdata w)) r ticks tr) =
      map (fun d => "debater_" ++ lower d) (eligible (mode (userdata w)) (snd r)) /\
    (forall d, In d (eligible (mode (userdata w)) (snd r)) <->
               In d (participants (snd r)) /\
               (d = "C" \/ d = "D" \/ (mode (userdata w) = "single" /\ d = "B"))).
Proof.
  intros Hlt Hrun. pose proof (start_round_spec w Hlt) as H.
  unfold wp in H. rewrite Hrun in H.
  destruct H as (r & tr & c & ticks & Hr & Ht & ->).
  exists r, ticks, tr. cbn [out].
  split; [exact Hr |]. split; [exact Ht |]. split; [reflexivity |].
  split; [apply speaking_targets_round_log; exact Ht |].
  split; [apply speaking_targets_round_log; exact Ht |].
  intros d. apply eligible_spec.
Qed.

Lemma start_round_signals_the_eligible_debaters_witness :
  let w := mkWorld (set_round_index 5 (initial_state "room" "single")) [] [0; 0; 200]%Q [] [] in
  exists r ticks tr,
    py_index (active_rounds (userdata w)) (round_index (userdata w)) = Some r /\
    Forall is_tick ticks /\
    out (world_of (start_round w)) = (out w ++ round_log (mode (userdata w)) r ticks tr)%list /\
    speaking_targets true (round_log (mode (userdata w)) r ticks tr) =
      map (fun d => "debater_" ++ lower d) (eligible (mode (userdata w)) (snd r)) /\
    speaking_targets false (round_log (mode (userdata w)) r ticks tr) =
      map (fun d => "debater_" ++ lower d) (eligible (mode (userdata w)) (snd r)) /\
    (forall d, In d (eligible (mode (userdata w)) (snd r)) <->
               In d (participants (snd r)) /\
               (d = "C" \/ d = "D" \/ (mode (userdata w) = "single" /\ d = "B"))).
Proof.
  intros w.
  apply (start_round_signals_the_eligible_debaters w (world_of (start_round w))).
  - vm_compute. reflexivity.
  - vm_compute. reflexivity.
Defined.

(** ** Dictionaries, and the judge *)

Lemma dget_dset_same {V : Type} (d : dict V) k v : dget (dset d k v) k = Some v.
Proof.
  induction d as [| [k' v'] d IH]; simpl.
  - rewrite String.eqb_refl. reflexivity.
  - destruct (String.eqb k k') eqn:E; simpl; rewrite E; auto.
Qed.

Lemma dget_dset_other {V : Type} (d : dict V) k k' v :
  k <> k' -> dget (dset d k v) k' = dget d k'.
Proof.
  intros Hne. induction d as [| [k0 v0] d IH]; simpl.
  - destruct (String.eqb k' k) eqn:E; [| reflexivity].
    apply String.eqb_eq in E. congruence.
  - destruct (String.eqb k k0) eqn:E; simpl.
    + apply String.eqb_eq in E. subst k0.
      destruct (String.eqb k' k) eqn:E'; [| reflexivity].
      apply String.eqb_eq in E'. congruence.
    + destruct (String.eqb k' k0); auto.
Qed.

Lemma py_last_snoc {A : Type} (l : list A) x : py_last (l ++ [x]) = Some x.
Proof.
  unfold py_last, py_index. rewrite length_app. cbn [length].
  replace (0 <=? -1) with false by reflexivity. cbn [andb].
  replace (- Z.of_nat (length l + 1) <=? -1) with true by (symmetry; apply Z.leb_le; lia).
  cbn [andb Z.ltb Z.compare].
  replace (Z.to_nat (Z.of_nat (length l + 1) + -1)) with (length l) by lia.
  rewrite nth_error_app2 by lia. rewrite Nat.sub_diag. reflexivity.
Qed.

Lemma asking_refl p u h c l o : asking p u h c o (mkWorld u h c l o).
Proof. exists l, 0%nat. simpl. rewrite app_nil_r. reflexivity. Qed.

Lemma asking_more p u h c l o n :
  asking p u h c o (mkWorld u h c l ((o ++ repeat (AskLLM p) n) ++ [AskLLM p])).
Proof.
  exists l, (S n). rewrite <- app_assoc. f_equal. f_equal.
  rewrite <- repeat_cons. reflexivity.
Qed.

(** The retries of [evaluate_round] only consume answers and log questions. *)
Lemma wp_retry attempts p v u h c o w :
  asking p u h c o w ->
  wp (retry attempts p v) (fun _ => asking p u h c o) (asking p u h c o) w.
Proof.
  revert v w. induction attempts as [| k rest IH]; intros v w Hw.
  - exact Hw.
  - destruct Hw as (l & n & ->). cbn [retry]. wp_step.
    apply wp_generate; wsimpl.
    + intros a l' Hl.
      destruct (try_body a v) as [[[s1 s2] e] [err |]].
      * apply IH. apply asking_more.
      * apply wp_ret. apply asking_more.
    + intros _. apply asking_more.
Qed.

(** With an answer for every attempt the retries return. *)
Lemma retry_returns attempts p v u h c l o :
  (length attempts <= length l)%nat ->
  exists v' l' n,
    retry attempts p v (mkWorld u h c l o) =
    Ok v' (mkWorld u h c l' (o ++ repeat (AskLLM p) n)).
Proof.
  revert v l o. induction attempts as [| k rest IH]; intros v l o Hlen.
  - exists v, l, 0%nat. simpl. rewrite app_nil_r. reflexivity.
  - destruct l as [| a l]; [simpl in Hlen; lia |].
    cbn [retry]. unfold bind at 1. unfold generate, bind, emit. wsimpl.
    destruct (try_body a v) as [[[s1 s2] e] [err |]].
    + destruct (IH (if k =? 2 then (s1, s2, JStr "Failed to evaluate round") else (s1, s2, e))
                  l (o ++ [AskLLM p])%list) as (v' & l' & n & H).
      { simpl in Hlen. lia. }
      exists v', l', (S n). rewrite H. f_equal. f_equal.
      rewrite <- app_assoc. reflexivity.
    + exists (s1, s2, e), l, 1%nat. reflexivity.
Qed.

(** Three failures in a row leave the default scores and the failure note. *)
Lemma retry_three_failures p a1 a2 a3 u h c l o :
  failed a1 -> failed a2 -> failed a3 ->
  retry [0; 1; 2] p (PInt 25, PInt 25, JStr "Default score")
    (mkWorld u h c (a1 :: a2 :: a3 :: l) o) =
  Ok (PInt 25, PInt 25, JStr "Failed to evaluate round")
     (mkWorld u h c l (o ++ [AskLLM p; AskLLM p; AskLLM p])).
Proof.
  intros [-> | ->] [-> | ->] [-> | ->]; cbn; rewrite <- !app_assoc; reflexivity.
Qed.


(** [evaluate_round] leaves the debate state alone; when it returns it has
    appended one record, which holds the scores it returns. *)
Lemma evaluate_round_spec round_name tr u h c l o :
  wp (evaluate_round round_name tr)
    (fun p w' =>
       exists e l' n,
         w' = mkWorld u (h ++ [score_record round_name (fst p) (snd p) e])%list c l'
                (o ++ repeat (AskLLM (evaluation_prompt round_name tr)) n)%list)
    (asking (evaluation_prompt round_name tr) u h c o)
    (mkWorld u h c l o).
Proof.
  unfold evaluate_round. wp_step.
  eapply wp_mono; [apply wp_retry; apply asking_refl | | auto].
  intros [[s1 s2] e] w (l' & n & ->). cbv beta iota. wp_steps. wsimpl.
  apply wp_or_raise; [| intros _; exists l', n; reflexivity].
  intros r Hr. wp_step.
  match goal with |- wp (if ?b then _ else _) _ _ _ => destruct b end.
  - wp_step. apply wp_or_raise; [| intros _; exists l', n; reflexivity].
    intros e' He'. wp_steps. cbv beta iota. wp_steps. wsimpl.
    exists e', l', n. reflexivity.
  - wp_steps. cbv beta iota. wp_steps. wsimpl.
    exists e, l', n. reflexivity.
Qed.



(** ** Rounds and prep time *)

Lemma round_log_requests m r ticks tr :
  Forall is_tick ticks ->
  length (filter is_score_request (round_log m r ticks tr)) = 1%nat.
Proof.
  intros Ht. destruct r as [[name duration] sp]. unfold round_log.
  rewrite !filter_app, !signals_not_requests, (ticks_not_requests _ Ht).
  destruct ((duration =? 3 * 60) && Qltb tr 0); reflexivity.
Qed.

(** With no round left [start_round] ends the debate: the judge is asked to
    finalize, the state and the clock are not touched. *)
Lemma start_round_exhausted w :
  Z.of_nat (length (active_rounds (userdata w))) <= round_index (userdata w) ->
  start_round w =
  Ok tt (mkWorld (userdata w) (score_history w) (clock w) (llm w)
           (out w ++ [announcement "Debate concluded. Awaiting final scores from the Judge.";
                      SendData (JObj [("type", JStr "finalize_scores")]) (Some "judge")])).
Proof.
  intros H. unfold start_round, bind, get_state.
  apply Z.leb_le in H. rewrite H.
  unfold end_debate, announce, send_data, bind, emit. wsimpl.
  rewrite <- app_assoc. reflexivity.
Qed.

(** Whatever becomes of [start_round], either a round has run to its end or
    no round was completed. *)
Lemma start_round_any w :
  wp start_round (fun _ w' => advanced w w' \/ untouched w w') (untouched w) w.
Proof.
  destruct (Z_lt_le_dec (round_index (userdata w))
              (Z.of_nat (length (active_rounds (userdata w))))) as [Hlt | Hge].
  - eapply wp_mono; [apply start_round_spec; exact Hlt | | auto].
    intros [] w' (r & tr & c & ticks & Hr & Ht & ->). left.
    split; [exact Hlt |]. split; [eexists; reflexivity |]. split; [reflexivity |].
    destruct w as [u h c0 l o]. wsimpl.
    rewrite completed_rounds_app, (round_log_requests _ _ _ _ Ht).
    unfold completed_rounds. simpl. lia.
  - eapply wp_of_ok; [apply start_round_exhausted; exact Hge |].
    right. destruct w as [u h c l o]. wsimpl.
    apply untouched_emits; [reflexivity | apply untouched_refl].
Qed.

(** [request_prep_time] for a team that is unknown or has nothing left. *)
Lemma request_prep_time_rejected team w :
  (dget (prep_time (userdata w)) team = None \/
   exists available, dget (prep_time (userdata w)) team = Some available /\
                     (available <= 0)%Q) ->
  exists message,
    request_prep_time team w =
    Ok tt (mkWorld (userdata w) (score_history w) (clock w) (llm w)
             (out w ++ [announcement message])).
Proof.
  intros [Hnone | (available & Hsome & Hle)];
    unfold request_prep_time, bind, get_state, dmem; wsimpl.
  - rewrite Hnone. cbn [negb]. eexists. reflexivity.
  - rewrite Hsome. cbn [negb or_raise ret].
    apply Qle_bool_iff in Hle. rewrite Hle. eexists. reflexivity.
Qed.

(** [request_prep_time] for a team with time left: the budget is charged
    before anything else happens, then the next round is started. *)
Lemma request_prep_time_accepted team available w :
  dget (prep_time (userdata w)) team = Some available ->
  (0 < available)%Q ->
  wp (request_prep_time team)
    (fun _ w' => advanced (charged team available w) w'
                 \/ untouched (charged team available w) w')
    (untouched (charged team available w)) w.
Proof.
  intros Hsome Hpos. destruct w as [u h c l o]. wsimpl.
  unfold request_prep_time. wp_steps. wsimpl.
  unfold dmem. rewrite Hsome. cbn [negb].
  wp_step. apply wp_or_raise; [| discriminate].
  intros a Ha. injection Ha as <-.
  assert (Hb : Qle_bool available 0 = false).
  { destruct (Qle_bool available 0) eqn:E; [| reflexivity].
    apply Qle_bool_iff in E. exfalso. apply (Qlt_not_le _ _ Hpos E). }
  rewrite Hb. wp_steps. wsimpl. cbn [prep_time].
  match goal with
  | |- wp start_round _ _ ?W =>
      replace W with (charged team available (mkWorld u h c l o))
  end.
  - apply start_round_any.
  - unfold charged, announcement. wsimpl. rewrite <- !app_assoc. reflexivity.
Qed.

Lemma python_min_is_Qmin a b :
  (if Qltb b a then b else a) = Qmin a b.
Proof.
  unfold Qltb, Qmin, GenericMinMax.gmin.
  destruct (Qle_bool a b) eqn:E; cbn [negb].
  - apply Qle_bool_iff in E. destruct (Qcompare a b) eqn:C; try reflexivity.
    apply Qgt_alt in C. exfalso. apply (Qlt_not_le _ _ C E).
  - destruct (Qcompare a b) eqn:C; try reflexivity.
    + apply Qeq_alt in C. assert (H : Qle_bool a b = true).
      { apply Qle_bool_iff. rewrite C. apply Qle_refl. }
      congruence.
    + apply Qlt_alt in C. assert (H : Qle_bool a b = true).
      { apply Qle_bool_iff. apply Qlt_le_weak. exact C. }
      congruence.
Qed.

Lemma untouched_prep_time w w' :
  untouched w w' -> prep_time (userdata w') = prep_time (userdata w).
Proof. intros ([tr ->] & _). reflexivity. Qed.

Lemma advanced_prep_time w w' :
  advanced w w' -> prep_time (userdata w') = prep_time (userdata w).
Proof. intros (_ & [tr ->] & _). reflexivity. Qed.

(** C6.  A prep request for an unknown team, or for a team whose budget is
    exhausted, is answered by one announcement and changes nothing else.  Any
    other request takes min(remaining, 120) seconds off that team's budget
    and off no other, however the round it then starts turns out.  A team
    that has 120 seconds is left with 0 by one request, and its next request
    is rejected without a change of state. *)
Theorem request_prep_time_charges_the_budget team w :
  ((dget (prep_time (userdata w)) team = None \/
    exists available, dget (prep_time (userdata w)) team = Some available /\
                      (available <= 0)%Q) ->
   exists message,
     request_prep_time team w =
     Ok tt (mkWorld (userdata w) (score_history w) (clock w) (llm w)
              (out w ++ [announcement message]))) /\
  (forall available,
     dget (prep_time (userdata w)) team = Some available ->
     (0 < available)%Q ->
     let after := prep_time (userdata (world_of (request_prep_time team w))) in
     (exists remaining,
        dget after team = Some remaining /\
        (remaining == available - Qmin available (inject_Z 120))%Q) /\
     (forall other, other <> team ->
        dget after other = dget (prep_time (userdata w)) other)) /\
  (dget (prep_time (userdata w)) team = Some (inject_Z 120) ->
   let w1 := world_of (request_prep_time team w) in
   dget (prep_time (userdata w1)) team = Some 0%Q /\
   exists message,
     request_prep_time team w1 =
     Ok tt (mkWorld (userdata w1) (score_history w1) (clock w1) (llm w1)
              (out w1 ++ [announcement message]))).
Proof.
  assert (Haccepted : forall available,
    dget (prep_time (userdata w)) team = Some available ->
    (0 < available)%Q ->
    prep_time (userdata (world_of (request_prep_time team w))) =
    dset (prep_time (userdata w)) team
      (Qred (available - Qmin available (inject_Z 120)))).
  { intros available Hsome Hpos.
    pose proof (request_prep_time_accepted team available w Hsome Hpos) as H.
    unfold wp in H. rewrite <- python_min_is_Qmin.
    destruct (request_prep_time team w) as [[] w' | e w' | w'];
      cbn [world_of];
      repeat match goal with
        | H : _ \/ _ |- _ => destruct H as [H | H]
        end;
      first [apply advanced_prep_time in H | apply untouched_prep_time in H];
      exact H. }
  split; [apply request_prep_time_rejected |]. split.
  - intros available Hsome Hpos after. unfold after.
    rewrite (Haccepted available Hsome Hpos). split.
    + eexists. split; [apply dget_dset_same | apply Qred_correct].
    + intros other Hne. apply dget_dset_other. congruence.
  - intros Hsome w1.
    assert (H1 : dget (prep_time (userdata w1)) team = Some 0%Q).
    { unfold w1. rewrite (Haccepted _ Hsome) by reflexivity.
      rewrite dget_dset_same. reflexivity. }
    split; [exact H1 |].
    apply request_prep_time_rejected. right. exists 0%Q.
    split; [exact H1 | apply Qle_refl].
Qed.

Lemma request_prep_time_charges_the_budget_witness :
  let w := mkWorld (set_prep_time [("T1", inject_Z 120); ("T2", inject_Z 120)]
                      (initial_state "room" "multi")) [] [0; 300]%Q [] [] in
  let w1 := world_of (request_prep_time "T1" w) in
  dget (prep_time (userdata w1)) "T1" = Some 0%Q /\
  exists message,
    request_prep_time "T1" w1 =
    Ok tt (mkWorld (userdata w1) (score_history w1) (clock w1) (llm w1)
             (out w1 ++ [announcement message])).
Proof.
  intros w.
  exact (proj2 (proj2 (request_prep_time_charges_the_budget "T1" w)) eq_refl).
Defined.

(** ** Transcripts *)

Lemma dset_dset {V : Type} (d : dict V) k v v' : dset (dset d k v) k v' = dset d k v'.
Proof.
  induction d as [| [k0 v0] d IH]; simpl.
  - rewrite String.eqb_refl. reflexivity.
  - destruct (String.eqb k k0) eqn:E; simpl; rewrite E; [reflexivity |].
    rewrite IH. reflexivity.
Qed.

Lemma length_prefix n s : String.length (prefix n s) = Nat.min n (String.length s).
Proof.
  revert s. induction n as [| n IH]; intros [| c s]; simpl; auto.
Qed.

(** What [receive_transcript] does when [round_index] designates a round of
    [ROUNDS]. *)
Lemma receive_transcript_stores speaker text w r :
  py_index ROUNDS (round_index (userdata w)) = Some r ->
  let round_name := fst (fst r) in
  let per_round := dget_default (transcripts (userdata w)) round_name [] in
  let utterances := dget_default per_round speaker [] in
  receive_transcript speaker text w =
  Ok tt (mkWorld
           (set_transcripts
              (dset (transcripts (userdata w)) round_name
                 (dset per_round speaker (utterances ++ [prefix 1000 text])%list))
              (userdata w))
           (score_history w) (clock w) (llm w)
           (out w ++ [FileAppend ("transcripts_" ++ room_id (userdata w) ++ "_"
                                  ++ round_name ++ ".json")
                        (JObj [(speaker, JStr text)])])).
Proof.
  intros Hr. cbv zeta. set (round_name := fst (fst r)).
  destruct w as [u h c l o]. wsimpl.
  unfold receive_transcript, bind, get_state. wsimpl. rewrite Hr.
  cbn [or_raise ret]. fold round_name.
  unfold dmem, dget_default, modify_state, emit.
  destruct (dget (transcripts u) round_name) as [pr |] eqn:Hpr.
  - cbn [ret]. wsimpl. rewrite Hpr. cbn [or_raise ret].
    destruct (dget pr speaker) as [us |] eqn:Hus.
    + cbn [ret]. wsimpl. rewrite Hpr. cbn [or_raise ret]. rewrite Hus.
      cbn [or_raise ret]. reflexivity.
    + wsimpl. cbn [transcripts set_transcripts].
      rewrite dget_dset_same. cbn [or_raise ret]. rewrite dget_dset_same.
      cbn [or_raise ret]. wsimpl. cbn [transcripts set_transcripts room_id].
      rewrite !dset_dset. reflexivity.
  - wsimpl. cbn [transcripts set_transcripts].
    rewrite dget_dset_same. cbn [or_raise ret dget].
    wsimpl. cbn [transcripts set_transcripts].
    rewrite !dget_dset_same. cbn [or_raise ret dset dget]. rewrite String.eqb_refl.
    cbn [or_raise ret]. wsimpl. cbn [transcripts set_transcripts room_id].
    rewrite !dset_dset. reflexivity.
Qed.

Lemma receive_transcript_raises speaker text w :
  py_index ROUNDS (round_index (userdata w)) = None ->
  receive_transcript speaker text w = Raised IndexError w.
Proof.
  intros Hr. unfold receive_transcript, bind, get_state. rewrite Hr. reflexivity.
Qed.

Lemma prefix_is_prefix n s : exists rest, s = prefix n s ++ rest.
Proof.
  revert s. induction n as [| n IH]; intros s.
  - exists s. reflexivity.
  - destruct s as [| c s]; [exists ""; reflexivity |].
    destruct (IH s) as [rest H]. exists rest. simpl. rewrite <- H. reflexivity.
Qed.

(** C5, as stated, fails: the record written to the transcript file holds
    the text as received, here 1001 characters, not its first 1000. *)
Lemma receive_transcript_persists_the_full_text :
  ~ (forall speaker text w w',
       receive_transcript speaker text w = Ok tt w' ->
       exists path,
         out w' = (out w ++ [FileAppend path (JObj [(speaker, JStr (prefix 1000 text))])])%list).
Proof.
  intros H.
  pose (text := string_of_list_ascii (repeat "x"%char 1001)).
  pose (w := mkWorld (initial_state "room" "multi") [] [] [] []).
  destruct (H "A" text w (world_of (receive_transcript "A" text w))) as [path Hp].
  - vm_compute. reflexivity.
  - vm_compute in Hp. injection Hp as _ Hp.
    apply (f_equal String.length) in Hp. vm_compute in Hp. discriminate Hp.
Qed.

(** C5, amended.  While [round_index] designates a round of the default
    sequence, [receive_transcript] appends the first 1000 characters of the
    text to the utterances of that round and speaker in the state -- exactly
    1000 characters when the text is longer -- and appends the text as
    received, not truncated, to the transcript file of the room and round.
    Otherwise it raises [IndexError] and stores nothing. *)
Theorem receive_transcript_truncates_in_memory speaker text w :
  match py_index ROUNDS (round_index (userdata w)) with
  | Some r =>
      let round_name := fst (fst r) in
      let stored_before :=
        dget_default (dget_default (transcripts (userdata w)) round_name []) speaker [] in
      exists w' per_round,
        receive_transcript speaker text w = Ok tt w' /\
        dget (transcripts (userdata w')) round_name = Some per_round /\
        dget per_round speaker = Some (stored_before ++ [prefix 1000 text])%list /\
        (exists rest, text = prefix 1000 text ++ rest) /\
        String.length (prefix 1000 text) = Nat.min 1000 (String.length text) /\
        ((1000 < String.length text)%nat -> String.length (prefix 1000 text) = 1000%nat) /\
        out w' = (out w ++ [FileAppend ("transcripts_" ++ room_id (userdata w) ++ "_"
                                        ++ round_name ++ ".json")
                              (JObj [(speaker, JStr text)])])%list
  | None => receive_transcript speaker text w = Raised IndexError w
  end.
Proof.
  destruct (py_index ROUNDS (round_index (userdata w))) as [r |] eqn:Hr.
  - cbv zeta. eexists. eexists.
    split; [apply (receive_transcript_stores speaker text w r Hr) |].
    cbn [userdata out transcripts set_transcripts].
    split; [apply dget_dset_same |].
    split; [apply dget_dset_same |].
    split; [apply prefix_is_prefix |].
    split; [apply length_prefix |].
    split; [| reflexivity].
    intros Hlong. rewrite length_prefix. lia.
  - apply receive_transcript_raises. exact Hr.
Qed.

(** ** Final results *)

Lemma pcompare_finite a b :
  finite a -> finite b -> pcompare a b = Some (value a ?= value b)%Q.
Proof.
  destruct a, b; simpl; try tauto; intros _ _; try reflexivity.
  unfold Qcompare. simpl. rewrite !Z.mul_1_r. reflexivity.
Qed.

Lemma py_add_finite a b :
  finite a -> finite b ->
  finite (py_add a b) /\ (value (py_add a b) == value a + value b)%Q.
Proof.
  destruct a, b; cbn [py_add finite value]; try tauto; intros _ _;
    (split; [exact I |]);
    first [apply Qred_correct | rewrite inject_Z_plus; reflexivity].
Qed.

Lemma py_sum_from l acc :
  Forall finite l -> finite acc ->
  finite (fold_left py_add l acc) /\
  (value (fold_left py_add l acc) == value acc + fold_right Qplus 0%Q (map value l))%Q.
Proof.
  intros Hl. revert acc. induction Hl as [| x l Hx Hl IH]; intros acc Hacc; simpl.
  - split; [exact Hacc | ring].
  - destruct (py_add_finite acc x Hacc Hx) as [Hf Hv].
    destruct (IH _ Hf) as [Hf' Hv']. split; [exact Hf' |].
    rewrite Hv', Hv. ring.
Qed.

(** [average] is the arithmetic mean, a float on a list that is not empty
    and the int 0 on the empty one. *)
Lemma average_is_mean l :
  Forall finite l ->
  finite (average l) /\
  (value (average l) == mean (map value l))%Q /\
  (l = [] -> average l = PInt 0) /\
  (l <> [] -> exists q, average l = PFloat q).
Proof.
  intros Hl. destruct l as [| x l].
  - simpl. repeat split; auto. intros H. congruence.
  - destruct (py_sum_from (x :: l) (PInt 0) Hl I) as [Hf Hv].
    fold (py_sum (x :: l)) in Hf, Hv.
    assert (Hm : (mean (map value (x :: l)) ==
                  fold_right Qplus 0%Q (map value (x :: l))
                  / inject_Z (Zpos (Pos.of_nat (length (x :: l)))))%Q).
    { unfold mean. cbn [map]. cbn [length]. rewrite length_map.
      replace (Z.of_nat (S (length l))) with (Zpos (Pos.of_nat (S (length l)))) by lia.
      reflexivity. }
    rewrite Hm. unfold average.
    destruct (py_sum (x :: l)) as [z | q | |]; cbn [finite] in Hf; try tauto;
      cbn [py_div_pos value] in *.
    + repeat split; eauto; try discriminate.
      rewrite Qred_correct, Qmake_Qdiv, Hv.
      apply Qmult_comp; [ring | reflexivity].
    + repeat split; eauto; try discriminate.
      rewrite Qred_correct, Hv.
      apply Qmult_comp; [ring | reflexivity].
Qed.

Lemma winner_of_finite a1 a2 :
  finite a1 -> finite a2 ->
  ((value a2 < value a1)%Q -> winner_of a1 a2 = "T1") /\
  ((value a1 < value a2)%Q -> winner_of a1 a2 = "T2") /\
  ((value a1 == value a2)%Q -> winner_of a1 a2 = "Tie").
Proof.
  intros H1 H2. unfold winner_of, py_gt.
  rewrite (pcompare_finite a1 a2 H1 H2), (pcompare_finite a2 a1 H2 H1).
  set (x := value a1). set (y := value a2).
  repeat split; intros H.
  - assert (E : (x ?= y)%Q = Gt) by (apply Qgt_alt; exact H).
    rewrite E. reflexivity.
  - assert (E : (x ?= y)%Q = Lt) by (apply Qlt_alt; exact H).
    assert (E' : (y ?= x)%Q = Gt) by (apply Qgt_alt; exact H).
    rewrite E, E'. reflexivity.
  - assert (E : (x ?= y)%Q = Eq) by (apply Qeq_alt; exact H).
    assert (E' : (y ?= x)%Q = Eq) by (apply Qeq_alt; symmetry; exact H).
    rewrite E, E'. reflexivity.
Qed.

(** [finalize_scores] on a state that has both teams' lists. *)
Lemma finalize_scores_runs w l1 l2 :
  dget (scores (userdata w)) "T1" = Some l1 ->
  dget (scores (userdata w)) "T2" = Some l2 ->
  let winner := winner_of (average l1) (average l2) in
  let feedback := feedback_record winner (average l1) (average l2) (score_history w) in
  finalize_scores w =
  Ok tt (mkWorld (userdata w) (score_history w) (clock w) (llm w)
           (out w ++ [FileWrite ("debate_results_" ++ room_id (userdata w) ++ ".json")
                        feedback;
                      SendData
                        (JObj [("type", JStr "final_results"); ("winner", JStr winner);
                               ("T1_avg_score", JNum (py_round2 (average l1)));
                               ("T2_avg_score", JNum (py_round2 (average l2)));
                               ("feedback", feedback)]) None;
                      DeleteRoom])).
Proof.
  intros H1 H2. cbv zeta.
  unfold finalize_scores, bind, get_state, get_history, send_data, emit. wsimpl.
  rewrite H1, H2. cbn [or_raise ret]. wsimpl.
  rewrite <- !app_assoc. reflexivity.
Qed.

(** C7.  [finalize_scores] reports for each team the arithmetic mean of its
    scores, 0 for a team without scores, and names as winner the team whose
    mean is strictly higher, "Tie" otherwise.  Without any score the averages
    are 0 and 0 and the result is a tie; with the scores [25] and [27] the
    winner is T2 and the averages are 25.0 and 27.0.  The means are the
    exact ones wherever the scores are finite numbers. *)
Theorem finalize_scores_declares_the_higher_mean w l1 l2 :
  dget (scores (userdata w)) "T1" = Some l1 ->
  dget (scores (userdata w)) "T2" = Some l2 ->
  let m1 := mean (map value l1) in
  let m2 := mean (map value l2) in
  let winner := winner_of (average l1) (average l2) in
  let feedback := feedback_record winner (average l1) (average l2) (score_history w) in
  finalize_scores w =
    Ok tt (mkWorld (userdata w) (score_history w) (clock w) (llm w)
             (out w ++ [FileWrite ("debate_results_" ++ room_id (userdata w) ++ ".json")
                          feedback;
                        SendData
                          (JObj [("type", JStr "final_results"); ("winner", JStr winner);
                                 ("T1_avg_score", JNum (py_round2 (average l1)));
                                 ("T2_avg_score", JNum (py_round2 (average l2)));
                                 ("feedback", feedback)]) None;
                        DeleteRoom])) /\
  (winner = "T1" \/ winner = "T2" \/ winner = "Tie") /\
  (winner = "T1" <-> py_gt (average l1) (average l2) = true) /\
  (winner = "T2" <-> py_gt (average l1) (average l2) = false
                     /\ py_gt (average l2) (average l1) = true) /\
  (l1 = [] -> average l1 = PInt 0) /\ (l2 = [] -> average l2 = PInt 0) /\
  (Forall finite l1 -> (value (average l1) == m1)%Q) /\
  (Forall finite l2 -> (value (average l2) == m2)%Q) /\
  (Forall finite l1 -> Forall finite l2 ->
   ((m2 < m1)%Q -> winner = "T1") /\
   ((m1 < m2)%Q -> winner = "T2") /\
   ((m1 == m2)%Q -> winner = "Tie")) /\
  (l1 = [] -> l2 = [] ->
   winner = "Tie" /\ py_round2 (average l1) = PInt 0 /\ py_round2 (average l2) = PInt 0) /\
  (l1 = [PInt 25] -> l2 = [PInt 27] ->
   winner = "T2" /\ py_round2 (average l1) = PFloat 25
   /\ py_round2 (average l2) = PFloat 27).
Proof.
  intros H1 H2 m1 m2 winner feedback.
  split; [apply (finalize_scores_runs w l1 l2 H1 H2) |].
  assert (Hw : winner = winner_of (average l1) (average l2)) by reflexivity.
  unfold winner_of in Hw. clearbody winner.
  split; [| split; [| split]].
  - destruct (py_gt (average l1) (average l2)), (py_gt (average l2) (average l1));
      subst winner; auto.
  - destruct (py_gt (average l1) (average l2)), (py_gt (average l2) (average l1));
      subst winner; split; intros H; try reflexivity; discriminate H.
  - destruct (py_gt (average l1) (average l2)), (py_gt (average l2) (average l1));
      subst winner; split; intros H; try reflexivity; try discriminate H;
      try (destruct H; discriminate); auto.
  - fold (winner_of (average l1) (average l2)) in Hw. subst winner.
    split; [intros F1; apply average_is_mean; rewrite F1; constructor |].
    split; [intros F2; apply average_is_mean; rewrite F2; constructor |].
    split; [intros F1; apply average_is_mean; exact F1 |].
    split; [intros F2; apply average_is_mean; exact F2 |].
    split; [| split].
    + intros F1 F2.
      destruct (average_is_mean l1 F1) as (Hf1 & Hv1 & _).
      destruct (average_is_mean l2 F2) as (Hf2 & Hv2 & _).
      destruct (winner_of_finite _ _ Hf1 Hf2) as (W1 & W2 & W3).
      fold m1 in Hv1. fold m2 in Hv2.
      split; [intros H; apply W1; rewrite Hv1, Hv2; exact H |].
      split; [intros H; apply W2; rewrite Hv1, Hv2; exact H |].
      intros H; apply W3; rewrite Hv1, Hv2; exact H.
    + intros -> ->. repeat split.
    + intros -> ->. repeat split.
Qed.

Lemma finalize_scores_declares_the_higher_mean_witness :
  let w := mkWorld (set_scores [("T1", [PInt 25]); ("T2", [PInt 27])]
                      (initial_state "room" "multi")) [] [] [] [] in
  winner_of (average [PInt 25]) (average [PInt 27]) = "T2" /\
  py_round2 (average [PInt 25]) = PFloat 25 /\
  py_round2 (average [PInt 27]) = PFloat 27.
Proof.
  intros w.
  pose proof (finalize_scores_declares_the_higher_mean w [PInt 25] [PInt 27]
                eq_refl eq_refl) as H.
  cbv zeta in H.
  exact (proj2 (proj2 (proj2 (proj2 (proj2 (proj2 (proj2 (proj2 (proj2 (proj2
           H))))))))) eq_refl eq_refl).
Defined.

(** ** The system: schedule and scores *)



Lemma untouched_same_digest w w' : untouched w w' -> same_digest w w'.
Proof.
  intros ([tr Hu] & _ & Hc). unfold same_digest. rewrite Hu. repeat split. exact Hc.
Qed.

Lemma wp_world_of {A : Type} (m : M A) (P : World -> Prop) w :
  wp m (fun _ => P) P w -> P (world_of (m w)).
Proof. unfold wp. destruct (m w); auto. Qed.



Lemma start_round_effect w :
  let w' := world_of (start_round w) in
  same_digest w w' \/ advanced w w'.
Proof.
  apply (wp_world_of start_round (fun w' => same_digest w w' \/ advanced w w')).
  eapply wp_mono; [apply start_round_any | |].
  - intros _ w' [H | H]; [right; exact H | left; apply untouched_same_digest; exact H].
  - intros w' H. left. apply untouched_same_digest. exact H.
Qed.

Lemma charged_same_digest team available w :
  same_digest w (charged team available w).
Proof.
  destruct w as [u h c l o]. unfold charged. repeat split. wsimpl.
  rewrite completed_rounds_app. simpl. apply Nat.add_0_r.
Qed.




















(** ** The judge's scores *)

(** A score is [clamped_or_nan] when it lies in the interval or is NaN. *)
Lemma clamped_in_range result key n :
  clamped result key = Some n -> in_range n \/ n = PNaN.
Proof.
  unfold clamped. destruct (comparable _) as [x |]; [| discriminate].
  intros H. injection H as <-.
  unfold py_min, py_max, py_gt, py_lt.
  destruct x as [z | q | [|] |]; cbn [pcompare].
  - destruct (Z.compare_spec 21 z) as [E | E | E]; cbn [pcompare].
    + subst z. left. simpl. lia.
    + destruct (Z.compare_spec 30 z) as [E' | E' | E']; left; simpl; lia.
    + left. simpl. lia.
  - destruct (Qcompare_spec (inject_Z 21) q) as [E | E | E]; cbn [pcompare].
    + destruct (Qcompare_spec (inject_Z 30) q) as [E' | E' | E']; left; cbn [in_range].
      * split; [rewrite <- E | rewrite <- E']; [apply Qle_refl | apply Qle_refl].
      * simpl; lia.
      * split; [rewrite <- E; apply Qle_refl | apply Qlt_le_weak; exact E'].
    + destruct (Qcompare_spec (inject_Z 30) q) as [E' | E' | E']; left; cbn [in_range].
      * split; [apply Qlt_le_weak; exact E | rewrite <- E'; apply Qle_refl].
      * simpl; lia.
      * split; apply Qlt_le_weak; assumption.
    + left. simpl. lia.
  - left. simpl. lia.
  - left. simpl. lia.
  - right. reflexivity.
Qed.

Lemma py_int_nonneg q : (0 <= q)%Q -> 0 <= py_int q.
Proof.
  unfold Qle, py_int. simpl. intros H. apply Z.quot_pos; lia.
Qed.


Lemma shortfall_nonneg tr : (0 <= Qabs tr / 30)%Q.
Proof.
  apply Qle_shift_div_l; [reflexivity |].
  setoid_replace (0 * 30)%Q with 0%Q by ring. apply Qabs_nonneg.
Qed.

(** The penalised score is in the interval, also when the score was NaN. *)
Lemma penalised_in_range s q :
  (0 <= q)%Q -> in_range s \/ s = PNaN -> in_range (penalised s q).
Proof.
  intros Hq Hs. pose proof (py_int_nonneg q Hq) as Hk.
  unfold penalised, py_max, py_gt.
  destruct Hs as [Hs | ->]; [| simpl; lia].
  destruct s as [z | x | |]; cbn [in_range] in Hs; try tauto;
    cbn [py_sub_int pcompare].
  - destruct (Z.compare_spec (z - py_int q) 21); simpl; lia.
  - set (y := Qred (x - inject_Z (py_int q))).
    assert (Hy : (y == x - inject_Z (py_int q))%Q) by apply Qred_correct.
    destruct (Qcompare_spec y (inject_Z 21)) as [E | E | E]; cbn [in_range];
      try (simpl; lia).
    split; [apply Qlt_le_weak; exact E |].
    rewrite Hy. destruct Hs as [_ Hs].
    apply Qle_trans with x; [| exact Hs].
    rewrite <- (Qplus_0_r x) at 2. apply Qplus_le_r.
    change 0%Q with (- 0)%Q. apply Qopp_le_compat.
    change 0%Q with (inject_Z 0). rewrite <- Zle_Qle. exact Hk.
Qed.

Lemma read_result_scores result v v' err :
  read_result result v = (v', err) ->
  (in_range (fst (fst v)) \/ fst (fst v) = PNaN) ->
  (in_range (snd (fst v)) \/ snd (fst v) = PNaN) ->
  (in_range (fst (fst v')) \/ fst (fst v') = PNaN) /\
  (in_range (snd (fst v')) \/ snd (fst v') = PNaN).
Proof.
  destruct v as [[s1 s2] e]. unfold read_result. cbn [fst snd].
  destruct (clamped result "T1") as [n1 |] eqn:H1.
  - destruct (clamped result "T2") as [n2 |] eqn:H2;
      intros H; injection H as <- <-; cbn [fst snd]; intros G1 G2; split;
      eauto using clamped_in_range.
  - intros H. injection H as <- <-. cbn [fst snd]. auto.
Qed.

Lemma try_body_scores a v v' err :
  try_body a v = (v', err) ->
  (in_range (fst (fst v)) \/ fst (fst v) = PNaN) ->
  (in_range (snd (fst v)) \/ snd (fst v) = PNaN) ->
  (in_range (fst (fst v')) \/ fst (fst v') = PNaN) /\
  (in_range (snd (fst v')) \/ snd (fst v') = PNaN).
Proof.
  destruct a as [ | | | j]; cbn [try_body].
  - intros H. injection H as <- <-. auto.
  - apply read_result_scores.
  - intros H. injection H as <- <-. auto.
  - destruct j; try (intros H; injection H as <- <-; auto).
    apply read_result_scores.
Qed.

(** The verdict the retries end with holds scores in the interval, or NaN. *)
Lemma wp_retry_scores attempts p v w :
  (in_range (fst (fst v)) \/ fst (fst v) = PNaN) ->
  (in_range (snd (fst v)) \/ snd (fst v) = PNaN) ->
  wp (retry attempts p v)
    (fun v' _ => (in_range (fst (fst v')) \/ fst (fst v') = PNaN) /\
                 (in_range (snd (fst v')) \/ snd (fst v') = PNaN))
    (fun _ => True) w.
Proof.
  revert v w. induction attempts as [| k rest IH]; intros v w H1 H2.
  - apply wp_ret. auto.
  - cbn [retry]. wp_step. apply wp_generate; [| auto].
    intros a l' _.
    destruct (try_body a v) as [[[s1 s2] e] err] eqn:Hb.
    destruct (try_body_scores a v _ _ Hb H1 H2) as [G1 G2]. cbn [fst snd] in G1, G2.
    destruct err as [err |].
    + apply IH; destruct (k =? 2); assumption.
    + apply wp_ret. cbn [fst snd]. auto.
Qed.

(** Whatever the language model answers, the scores [evaluate_round] returns
    lie in the interval from 21 to 30 or are NaN. *)
Lemma evaluate_round_scores round_name tr w :
  wp (evaluate_round round_name tr)
    (fun p _ => (in_range (fst p) \/ fst p = PNaN) /\ (in_range (snd p) \/ snd p = PNaN))
    (fun _ => True) w.
Proof.
  unfold evaluate_round. wp_step.
  eapply wp_mono; [apply wp_retry_scores; left; simpl; lia | | auto].
  intros [[s1 s2] e] w' [G1 G2]. cbn [fst snd] in G1, G2. cbv beta iota.
  wp_steps. apply wp_or_raise; [| auto].
  intros r _. wp_step.
  match goal with |- wp (if ?b then _ else _) _ _ _ => destruct b end.
  - wp_step. apply wp_or_raise; [| auto].
    intros e' _. wp_steps. cbv beta iota. wp_steps. cbn [fst snd].
    split; left; apply penalised_in_range; auto using shortfall_nonneg.
  - wp_steps. cbv beta iota. wp_steps. cbn [fst snd]. auto.
Qed.

Lemma retry_frame attempts p v w v' w' :
  retry attempts p v w = Ok v' w' ->
  userdata w' = userdata w /\ score_history w' = score_history w /\ clock w' = clock w.
Proof.
  intros H. destruct w as [u h c l o].
  pose proof (wp_retry attempts p v u h c o (mkWorld u h c l o)
                (asking_refl p u h c l o)) as Hwp.
  unfold wp in Hwp. rewrite H in Hwp. destruct Hwp as (l' & n & ->). auto.
Qed.

(** [evaluate_round] after the retries: the penalty test reads the duration
    of [ROUNDS[round_index]]. *)
Lemma evaluate_round_after_retry round_name tr w s1 s2 e w1 :
  retry [0; 1; 2] (evaluation_prompt round_name tr)
    (PInt 25, PInt 25, JStr "Default score") w = Ok (s1, s2, e) w1 ->
  evaluate_round round_name tr w =
  match py_index ROUNDS (round_index (userdata w)) with
  | None => Raised IndexError w1
  | Some r =>
      if (snd (fst r) =? 3 * 60) && Qltb (time_remaining (userdata w)) 0
      then
        let shortfall := (Qabs (time_remaining (userdata w)) / 30)%Q in
        match add_note e (" Deducted " ++ fixed1 shortfall
                          ++ " points for early round end.") with
        | None => Raised TypeError w1
        | Some e' =>
            Ok (penalised s1 shortfall, penalised s2 shortfall)
               (mkWorld (userdata w1)
                  (score_history w1
                   ++ [score_record round_name (penalised s1 shortfall)
                         (penalised s2 shortfall) e'])
                  (clock w1) (llm w1) (out w1))
        end
      else
        Ok (s1, s2)
           (mkWorld (userdata w1)
              (score_history w1 ++ [score_record round_name s1 s2 e])
              (clock w1) (llm w1) (out w1))
  end.
Proof.
  intros Hretry. destruct (retry_frame _ _ _ _ _ _ Hretry) as (Hu & _).
  unfold evaluate_round. unfold bind at 1. rewrite Hretry.
  destruct w1 as [u1 h1 c1 l1 o1]. cbn [userdata] in Hu. subst u1.
  unfold bind at 1. unfold get_state at 1. wsimpl.
  destruct (py_index ROUNDS (round_index (userdata w))) as [r |]; [| reflexivity].
  unfold bind at 1. cbn [or_raise ret].
  destruct ((snd (fst r) =? 3 * 60) && Qltb (time_remaining (userdata w)) 0).
  - cbv zeta. unfold bind at 1. unfold bind at 1.
    destruct (add_note e _) as [e' |]; reflexivity.
  - reflexivity.
Qed.

Lemma py_index_at_length {A : Type} (l : list A) :
  py_index l (Z.of_nat (length l)) = None.
Proof.
  unfold py_index.
  replace (Z.of_nat (length l) <? Z.of_nat (length l)) with false
    by (symmetry; apply Z.ltb_ge; lia).
  replace (Z.of_nat (length l) <? 0) with false by (symmetry; apply Z.ltb_ge; lia).
  rewrite !andb_false_r. reflexivity.
Qed.

(** C3.  The penalty test of [evaluate_round] reads the duration of
    [ROUNDS[round_index]].  When [score_round] calls it, [round_index] has
    already been raised, so this is the round after the one being scored
    (which [score_round] takes from [round_index - 1]): a 180-second
    crossfire that ended 45 seconds short is scored without penalty when the
    next round lasts 240 seconds, and a 240-second round is penalised when
    the next one lasts 180.  When the last of the 11 rounds is being scored,
    [round_index] is 11, the index is out of bounds, and [evaluate_round]
    never returns scores: it raises [IndexError] once the language model has
    answered. *)
Theorem evaluate_round_consults_the_round_at_round_index round_name tr w :
  (forall s1 s2 e w1,
     retry [0; 1; 2] (evaluation_prompt round_name tr)
       (PInt 25, PInt 25, JStr "Default score") w = Ok (s1, s2, e) w1 ->
     evaluate_round round_name tr w =
     match py_index ROUNDS (round_index (userdata w)) with
     | None => Raised IndexError w1
     | Some r =>
         if (snd (fst r) =? 3 * 60) && Qltb (time_remaining (userdata w)) 0
         then
           let shortfall := (Qabs (time_remaining (userdata w)) / 30)%Q in
           match add_note e (" Deducted " ++ fixed1 shortfall
                             ++ " points for early round end.") with
           | None => Raised TypeError w1
           | Some e' =>
               Ok (penalised s1 shortfall, penalised s2 shortfall)
                  (mkWorld (userdata w1)
                     (score_history w1
                      ++ [score_record round_name (penalised s1 shortfall)
                            (penalised s2 shortfall) e'])
                     (clock w1) (llm w1) (out w1))
           end
         else
           Ok (s1, s2)
              (mkWorld (userdata w1)
                 (score_history w1 ++ [score_record round_name s1 s2 e])
                 (clock w1) (llm w1) (out w1))
     end) /\
  (round_index (userdata w) = Z.of_nat (length ROUNDS) ->
   (forall p w', evaluate_round round_name tr w <> Ok p w') /\
   ((3 <= length (llm w))%nat ->
    exists w', evaluate_round round_name tr w = Raised IndexError w' /\
               userdata w' = userdata w /\ score_history w' = score_history w)) /\
  (let scoring (i : Z) :=
     mkWorld (set_time_remaining (-45 # 1) (set_round_index i (initial_state "room" "multi")))
       [] []
       [ParsedText (JObj [("T1", JNum (PInt 25)); ("T2", JNum (PInt 25));
                          ("explanation", JStr "Even round.")])] [] in
   py_index ROUNDS (3 - 1) = Some ("crossfire_ac", 180, Several ["A"; "C"]) /\
   py_index ROUNDS 3 = Some ("rebuttal_b", 240, Single "B") /\
   score_history (world_of (score_round (scoring 3))) =
     [score_record "crossfire_ac" (PInt 25) (PInt 25) (JStr "Even round.")] /\
   py_index ROUNDS (2 - 1) = Some ("constructive_c", 240, Single "C") /\
   py_index ROUNDS 2 = Some ("crossfire_ac", 180, Several ["A"; "C"]) /\
   score_history (world_of (score_round (scoring 2))) =
     [score_record "constructive_c" (PInt 24) (PInt 24)
        (JStr "Even round. Deducted 1.5 points for early round end.")]).
Proof.
  split; [| split].
  - intros s1 s2 e w1. apply evaluate_round_after_retry.
  - intros Hlast. split.
    + intros p w' H. unfold evaluate_round in H. unfold bind at 1 in H.
      destruct (retry [0; 1; 2] (evaluation_prompt round_name tr)
                  (PInt 25, PInt 25, JStr "Default score") w)
        as [[[s1 s2] e] w1 | |] eqn:Hretry; try discriminate H.
      pose proof (evaluate_round_after_retry round_name tr w s1 s2 e w1 Hretry) as E.
      rewrite Hlast, py_index_at_length in E.
      unfold evaluate_round in E. unfold bind at 1 in E. rewrite Hretry in E.
      rewrite E in H. discriminate H.
    + intros Hlen. destruct w as [u h c l o]. wsimpl.
      destruct (retry_returns [0; 1; 2] (evaluation_prompt round_name tr)
                  (PInt 25, PInt 25, JStr "Default score") u h c l o Hlen)
        as ([[s1 s2] e] & l' & n & Hretry).
      rewrite (evaluate_round_after_retry _ _ _ _ _ _ _ Hretry). wsimpl.
      rewrite Hlast, py_index_at_length. eexists. repeat split.
  - vm_compute. repeat split.
Qed.

Lemma evaluate_round_consults_the_round_at_round_index_witness :
  let w := mkWorld (set_round_index 11 (initial_state "room" "multi")) [] []
             [GenerateFails; InvalidText; EmptyText] [] in
  exists w', evaluate_round "final_focus_d" [] w = Raised IndexError w' /\
             userdata w' = userdata w /\ score_history w' = score_history w.
Proof.
  intros w.
  apply (proj2 (proj1 (proj2
           (evaluate_round_consults_the_round_at_round_index "final_focus_d" [] w))
           eq_refl)).
  vm_compute. lia.
Defined.

(** Three failed attempts, in a round for which [ROUNDS[round_index]]
    exists and asks for no penalty: [score_round] returns and emits 25 and
    25 with the failure note. *)
Lemma score_round_after_three_failures u h c o a1 a2 a3 rest r next l1 l2 :
  failed a1 -> failed a2 -> failed a3 ->
  py_index ROUNDS (round_index u - 1) = Some r ->
  py_index ROUNDS (round_index u) = Some next ->
  (snd (fst next) =? 3 * 60) && Qltb (time_remaining u) 0 = false ->
  dget (scores u) "T1" = Some l1 ->
  dget (scores u) "T2" = Some l2 ->
  let round_name := fst (fst r) in
  let p := evaluation_prompt round_name (dget_default (transcripts u) round_name []) in
  score_round (mkWorld u h c (a1 :: a2 :: a3 :: rest) o) =
  Ok tt (mkWorld
           (set_scores (dset (dset (scores u) "T1" (l1 ++ [PInt 25])%list) "T2"
                          (l2 ++ [PInt 25])%list) u)
           (h ++ [score_record round_name (PInt 25) (PInt 25)
                    (JStr "Failed to evaluate round")])
           c rest
           (o ++ [AskLLM p; AskLLM p; AskLLM p]
              ++ scores_messages round_name (PInt 25) (PInt 25)
                   (JStr "Failed to evaluate round"))).
Proof.
  intros F1 F2 F3 Hr Hnext Hpen H1 H2. cbv zeta.
  set (round_name := fst (fst r)).
  set (p := evaluation_prompt round_name (dget_default (transcripts u) round_name [])).
  unfold score_round. unfold bind at 1. unfold get_state at 1. wsimpl.
  rewrite Hr. unfold bind at 1. cbn [or_raise ret]. fold round_name. fold p.
  unfold bind at 1.
  rewrite (evaluate_round_after_retry round_name _ _ _ _ _ _
             (retry_three_failures p a1 a2 a3 u h c rest o F1 F2 F3)).
  wsimpl. rewrite Hnext, Hpen.
  unfold bind at 1. unfold append_score at 1. unfold bind at 1.
  unfold get_state at 1. wsimpl. rewrite H1.
  unfold bind at 1. cbn [or_raise ret]. unfold modify_state at 1. wsimpl.
  unfold bind at 1. unfold append_score at 1. unfold bind at 1.
  unfold get_state at 1. wsimpl. cbn [scores set_scores].
  rewrite dget_dset_other by discriminate. rewrite H2.
  unfold bind at 1. cbn [or_raise ret]. unfold modify_state at 1. wsimpl.
  cbn [scores set_scores].
  unfold bind at 1. unfold get_history at 1. wsimpl.
  rewrite py_last_snoc. unfold bind at 1. cbn [or_raise ret].
  unfold bind at 1. unfold score_record at 1. cbn [subscript dget String.eqb Ascii.eqb Bool.eqb].
  cbn [or_raise ret]. unfold bind, send_data, emit. wsimpl.
  unfold scores_messages. rewrite <- !app_assoc. reflexivity.
Qed.

(** C4 fails on the code when the last round is scored: [round_index] is 11,
    [evaluate_round] indexes [ROUNDS] out of bounds after the three failed
    attempts, and [score_round] raises [IndexError] -- no score is appended,
    no scores message is sent, the moderator is not told to continue. *)
Theorem score_round_raises_when_the_last_round_is_scored w a1 a2 a3 rest :
  round_index (userdata w) = Z.of_nat (length ROUNDS) ->
  llm w = a1 :: a2 :: a3 :: rest ->
  failed a1 -> failed a2 -> failed a3 ->
  let p := evaluation_prompt "final_focus_d"
             (dget_default (transcripts (userdata w)) "final_focus_d" []) in
  score_round w =
  Raised IndexError
    (mkWorld (userdata w) (score_history w) (clock w) rest
       (out w ++ [AskLLM p; AskLLM p; AskLLM p])).
Proof.
  intros Hlast Hl F1 F2 F3 p. destruct w as [u h c l o]. wsimpl. subst l.
  unfold score_round. unfold bind at 1. unfold get_state at 1. wsimpl.
  rewrite Hlast. cbn [length ROUNDS]. 
  change (py_index ROUNDS (Z.of_nat 11 - 1))
    with (Some ("final_focus_d", 2 * 60, Single "D")).
  unfold bind at 1. cbn [or_raise ret fst]. fold p. unfold bind at 1.
  rewrite (evaluate_round_after_retry "final_focus_d" _ _ _ _ _ _
             (retry_three_failures p a1 a2 a3 u h c rest o F1 F2 F3)).
  wsimpl. rewrite Hlast, py_index_at_length. reflexivity.
Qed.

Lemma score_round_raises_when_the_last_round_is_scored_witness :
  let w := mkWorld (set_round_index 11 (initial_state "room" "multi")) [] []
             [GenerateFails; InvalidText; GenerateFails] [] in
  let p := evaluation_prompt "final_focus_d" [] in
  score_round w =
  Raised IndexError
    (mkWorld (userdata w) (score_history w) (clock w) []
       (out w ++ [AskLLM p; AskLLM p; AskLLM p])).
Proof.
  intros w.
  apply (score_round_raises_when_the_last_round_is_scored w
           GenerateFails InvalidText GenerateFails []).
  - reflexivity.
  - reflexivity.
  - left. reflexivity.
  - right. reflexivity.
  - left. reflexivity.
Defined.

(** C1 fails on the code: [crossfire_ac], 180 seconds long, has ended 45
    seconds short and is being scored with [round_index] 3; the test reads
    the 240 seconds of [ROUNDS[3]], so no point is deducted and no note is
    added. *)
Theorem short_crossfire_is_scored_without_penalty :
  let w := mkWorld (set_time_remaining (-45 # 1)
                      (set_round_index 3 (initial_state "room" "multi")))
             [] []
             [ParsedText (JObj [("T1", JNum (PInt 25)); ("T2", JNum (PInt 25));
                                ("explanation", JStr "Even round.")])] [] in
  py_index ROUNDS (round_index (userdata w) - 1)
    = Some ("crossfire_ac", 180, Several ["A"; "C"]) /\
  (time_remaining (userdata w) < 0)%Q /\
  py_int (Qabs (time_remaining (userdata w)) / 30) = 1 /\
  exists w',
    score_round w = Ok tt w' /\
    scores (userdata w') = [("T1", [PInt 25]); ("T2", [PInt 25])] /\
    score_history w' =
      [score_record "crossfire_ac" (PInt 25) (PInt 25) (JStr "Even round.")].
Proof.
  intros w. split; [reflexivity |]. split; [reflexivity |]. split; [reflexivity |].
  eexists. split; [vm_compute; reflexivity |]. split; reflexivity.
Qed.

(** C2 fails on the code: [json.loads] accepts NaN, [max] and [min] return
    a NaN first argument unchanged, and the score appended to the history and
    to the team's list and broadcast is NaN, which is in no interval. *)
Theorem nan_score_passes_the_clamp :
  let w := mkWorld (set_round_index 1 (initial_state "room" "multi")) [] []
             [ParsedText (JObj [("T1", JNum PNaN); ("T2", JNum (PInt 40))])] [] in
  exists w' prompt,
    score_round w = Ok tt w' /\
    scores (userdata w') = [("T1", [PNaN]); ("T2", [PInt 30])] /\
    score_history w' =
      [score_record "constructive_a" PNaN (PInt 30) (JStr "No explanation provided")] /\
    out w' = (AskLLM prompt
              :: scores_messages "constructive_a" PNaN (PInt 30)
                   (JStr "No explanation provided")) /\
    ~ in_range PNaN.
Proof.
  intros w. eexists. eexists.
  split; [vm_compute; reflexivity |].
  split; [reflexivity |]. split; [reflexivity |]. split; [reflexivity |].
  intros H. exact H.
Qed.


Lemma shortfall_penalty_examples :
  py_int (Qabs (-15 # 1) / 30) = 0 /\
  py_int (Qabs (-45 # 1) / 30) = 1 /\
  penalised (PInt 25) (Qabs (-15 # 1) / 30) = PInt 25 /\
  penalised (PInt 25) (Qabs (-45 # 1) / 30) = PInt 24 /\
  penalised (PInt 21) (Qabs (-45 # 1) / 30) = PInt 21.
Proof. repeat split. Qed.

(** A session reaches the state in which the last round is to be scored. *)
Lemma reachable_play n s : reachable s -> reachable (play n s).
Proof.
  intros Hs. induction n as [| n IH]; [exact Hs |].
  cbn [play]. eapply reach_step; [eapply reach_step; [exact IH |] |].
  - apply (step_supply (play n s) [0; 0; 300]%Q []).
  - apply (step_continue (mkSystem (supply [0; 0; 300]%Q [] (world (play n s)))
                            (served (play n s)))).
Qed.

Lemma the_last_round_comes_to_be_scored :
  exists s,
    reachable s /\
    round_index (userdata (world s)) = Z.of_nat (length ROUNDS) /\
    (served s < completed_rounds (world s))%nat.
Proof.
  exists (play 10 (boot "room" "multi" false 0 [0; 0; 300]%Q [])).
  split; [apply reachable_play, reach_boot |].
  split; [vm_compute; reflexivity | vm_compute; lia].
Qed.

(** * Further properties of the agents *)

Lemma initialize_debate_enters_the_first_round swapped pick w :
  initialize_debate swapped pick w = start_round (initialized swapped pick w).
Proof.
  destruct w as [u h c l o]. unfold initialized. wsimpl.
  match goal with
  | |- context [(o ++ [?a; ?b])%list] =>
      change (o ++ [a; b])%list with (o ++ ([a] ++ [b]))%list;
      rewrite (app_assoc o [a] [b])
  end.
  destruct swapped; reflexivity.
Qed.

Lemma start_round_keeps_the_setup w :
  let w' := world_of (start_round w) in
  roles (userdata w') = roles (userdata w) /\
  topic (userdata w') = topic (userdata w) /\
  prep_time (userdata w') = prep_time (userdata w) /\
  transcripts (userdata w') = transcripts (userdata w) /\
  scores (userdata w') = scores (userdata w) /\
  mode (userdata w') = mode (userdata w) /\
  room_id (userdata w') = room_id (userdata w) /\
  custom_rounds (userdata w') = custom_rounds (userdata w) /\
  score_history w' = score_history w.
Proof.
  apply (wp_world_of start_round
           (fun w' => roles (userdata w') = roles (userdata w) /\
                      topic (userdata w') = topic (userdata w) /\
                      prep_time (userdata w') = prep_time (userdata w) /\
                      transcripts (userdata w') = transcripts (userdata w) /\
                      scores (userdata w') = scores (userdata w) /\
                      mode (userdata w') = mode (userdata w) /\
                      room_id (userdata w') = room_id (userdata w) /\
                      custom_rounds (userdata w') = custom_rounds (userdata w) /\
                      score_history w' = score_history w)).
  eapply wp_mono; [apply start_round_any | |].
  - intros _ w' [(_ & [tr Hu] & Hh & _) | ([tr Hu] & Hh & _)];
      rewrite Hu; repeat split; exact Hh.
  - intros w' ([tr Hu] & Hh & _). rewrite Hu. repeat split; exact Hh.
Qed.

(** X1.  However its first round goes, [initialize_debate] leaves T1 and T2
    with the two roles "Pro" and "Con", one each, a topic of [DEBATE_TOPICS],
    120 seconds of prep time for each team and no transcript; it does not
    touch the scores, and [round_index] is 0, or 1 when the first round has
    run to its end. *)
Theorem initialize_debate_sets_up_the_debate swapped pick w :
  let w' := world_of (initialize_debate swapped pick w) in
  (roles (userdata w') = [("T1", "Pro"); ("T2", "Con")]
   \/ roles (userdata w') = [("T1", "Con"); ("T2", "Pro")]) /\
  In (topic (userdata w')) DEBATE_TOPICS /\
  prep_time (userdata w') = [("T1", inject_Z 120); ("T2", inject_Z 120)] /\
  transcripts (userdata w') = [] /\
  scores (userdata w') = scores (userdata w) /\
  score_history w' = score_history w /\
  (round_index (userdata w') = 0 \/ round_index (userdata w') = 1).
Proof.
  cbv zeta. rewrite initialize_debate_enters_the_first_round.
  pose proof (start_round_keeps_the_setup (initialized swapped pick w))
    as (Hr & Ht & Hp & Htr & Hs & _ & _ & _ & Hh).
  cbv zeta in *. rewrite Hr, Ht, Hp, Htr, Hs, Hh.
  unfold initialized. wsimpl.
  cbn [roles topic prep_time transcripts scores set_transcripts set_round_index
         set_prep_time set_topic set_roles].
  split; [destruct swapped; auto |].
  split; [apply nth_In; apply Nat.mod_upper_bound; discriminate |].
  split; [reflexivity |]. split; [reflexivity |]. split; [reflexivity |].
  split; [reflexivity |].
  pose proof (start_round_effect (mkWorld
    (set_transcripts []
       (set_round_index 0
          (set_prep_time [("T1", inject_Z (2 * 60)); ("T2", inject_Z (2 * 60))]
             (set_topic (nth (pick mod length DEBATE_TOPICS) DEBATE_TOPICS "")
                (set_roles [("T1", if swapped then "Con" else "Pro");
                            ("T2", if swapped then "Pro" else "Con")] (userdata w))))))
    (score_history w) (clock w) (llm w)
    (out w ++ [announcement ("Team T1 (A, B) is " ++ (if swapped then "Con" else "Pro")
                             ++ ", Team T2 (C, D) is "
                             ++ (if swapped then "Pro" else "Con") ++ ". Topic: "
                             ++ nth (pick mod length DEBATE_TOPICS) DEBATE_TOPICS "");
               announcement "Do teams need prep time? Reply with team ID (T1/T2) to request."])))
    as [(H & _) | (_ & [tr H] & _)]; cbv zeta in H; wsimpl.
  - left. rewrite H. reflexivity.
  - right. rewrite H. reflexivity.
Qed.

Lemma Qle_bool_false a b : Qle_bool a b = false -> (b < a)%Q.
Proof.
  intros H. apply Qnot_le_lt. intros Hle. apply Qle_bool_iff in Hle. congruence.
Qed.

Lemma last_cons {A : Type} (a : A) l d : last (a :: l) d = last l a.
Proof.
  revert a d. induction l as [| b l IH]; intros a d; [reflexivity |].
  change (last (a :: b :: l) d) with (last (b :: l) d).
  rewrite (IH b d), (IH b a). reflexivity.
Qed.

(** The countdown, when it returns: it has slept and broadcast in turns,
    every remaining time it broadcast but the last was positive, and
    [time_remaining] is the last one broadcast. *)
Lemma countdown_turns fuel end_time round_name sp :
  forall u h c l o,
    wp (countdown fuel end_time round_name sp)
      (fun _ w' =>
         exists xs c',
           Forall (fun x => (0 < x)%Q) (removelast xs) /\
           w' = mkWorld (set_time_remaining (last xs (time_remaining u)) u) h c' l
                  (o ++ turns round_name sp xs))
      (fun _ => True) (mkWorld u h c l o).
Proof.
  induction fuel as [| fuel IH]; intros u h c l o; [exact I |].
  cbn [countdown]. wp_step. apply wp_now; [| auto]. wsimpl.
  intros t rest _.
  destruct (Qltb t end_time).
  - wp_steps. wsimpl. apply wp_now; [| auto]. wsimpl.
    intros t' rest' _. wp_steps. wsimpl.
    set (x := Qred (end_time - t')).
    destruct (Qle_bool x 0) eqn:Hx.
    + apply wp_ret. exists [x], rest'. split; [constructor |].
      cbn [last turns flat_map app]. rewrite <- app_assoc. reflexivity.
    + eapply wp_mono; [apply IH | | auto].
      intros _ w' (xs & c' & Hpos & ->). exists (x :: xs), c'. split.
      * destruct xs as [| y ys]; [constructor |].
        change (removelast (x :: y :: ys)) with (x :: removelast (y :: ys)).
        constructor; [apply Qle_bool_false; exact Hx | exact Hpos].
      * rewrite last_cons. cbn [time_remaining set_time_remaining turns flat_map app].
        rewrite <- !app_assoc. reflexivity.
  - apply wp_ret. exists [], rest. split; [constructor |].
    cbn [last turns flat_map]. rewrite set_time_remaining_same, app_nil_r. reflexivity.
Qed.

(** X3.  When the countdown of a round returns, it has alternated a sleep of
    a tenth of a second and a broadcast of the state; every remaining time it
    broadcast except the last is positive, and the state's [time_remaining]
    is the last one broadcast (unchanged if there was none); nothing else in
    the state has changed. *)
Theorem countdown_broadcasts_positive_times_until_the_last
  fuel end_time round_name sp w w' :
  countdown fuel end_time round_name sp w = Ok tt w' ->
  exists xs,
    out w' = (out w ++ turns round_name sp xs)%list /\
    Forall (fun x => (0 < x)%Q) (removelast xs) /\
    userdata w' = set_time_remaining (last xs (time_remaining (userdata w))) (userdata w) /\
    score_history w' = score_history w /\ llm w' = llm w.
Proof.
  intros Hrun. destruct w as [u h c l o].
  pose proof (countdown_turns fuel end_time round_name sp u h c l o) as H.
  unfold wp in H. rewrite Hrun in H. destruct H as (xs & c' & Hpos & ->).
  exists xs. repeat split. exact Hpos.
Qed.

Lemma countdown_broadcasts_positive_times_until_the_last_witness :
  let w := mkWorld (initial_state "room" "multi") [] [0; 100; 200; 250]%Q [] [] in
  exists xs,
    out (world_of (countdown 5 240 "constructive_a" (Single "A") w))
      = (out w ++ turns "constructive_a" (Single "A") xs)%list /\
    Forall (fun x => (0 < x)%Q) (removelast xs) /\
    userdata (world_of (countdown 5 240 "constructive_a" (Single "A") w))
      = set_time_remaining (last xs (time_remaining (userdata w))) (userdata w) /\
    score_history (world_of (countdown 5 240 "constructive_a" (Single "A") w))
      = score_history w /\
    llm (world_of (countdown 5 240 "constructive_a" (Single "A") w)) = llm w.
Proof.
  intros w.
  apply (countdown_broadcasts_positive_times_until_the_last
           5 240 "constructive_a" (Single "A") w).
  vm_compute. reflexivity.
Defined.

Lemma Qltb_false a b : Qltb a b = false -> (b <= a)%Q.
Proof.
  unfold Qltb. intros H. apply negb_false_iff in H. apply Qle_bool_iff. exact H.
Qed.

Lemma Qltb_true a b : Qltb a b = true -> (a < b)%Q.
Proof.
  unfold Qltb. intros H. apply negb_true_iff in H. apply Qle_bool_false. exact H.
Qed.

(** The countdown returns once the clock shows the deadline. *)
Lemma countdown_returns fuel end_time round_name sp :
  forall u h c l o,
    (length c < fuel)%nat ->
    Exists (fun t => (end_time <= t)%Q) c ->
    exists w', countdown fuel end_time round_name sp (mkWorld u h c l o) = Ok tt w'.
Proof.
  induction fuel as [| fuel IH]; intros u h c l o Hlen Hex; [lia |].
  destruct c as [| t c]; [inversion Hex |].
  cbn [countdown]. unfold bind at 1. unfold now at 1. wsimpl.
  destruct (Qltb t end_time) eqn:Ht; [| eexists; reflexivity].
  apply Qltb_true in Ht.
  inversion Hex as [? ? Hhere | ? ? Hlater]; subst.
  { exfalso. apply (Qlt_not_le _ _ Ht Hhere). }
  destruct c as [| t' c]; [inversion Hlater |].
  unfold bind at 1. unfold sleep, emit. wsimpl.
  unfold bind at 1. unfold now at 1. wsimpl.
  unfold bind at 1. unfold modify_state at 1. wsimpl.
  unfold bind at 1. unfold send_data, emit. wsimpl.
  destruct (Qle_bool (Qred (end_time - t')) 0) eqn:Hx; [eexists; reflexivity |].
  apply IH.
  - cbn [length] in Hlen. lia.
  - inversion Hlater as [? ? Hhere | ? ? Hrest]; subst; [| exact Hrest].
    exfalso. apply Qle_bool_false in Hx. rewrite Qred_correct in Hx.
    apply (Qlt_not_le _ _ Hx). 
    apply Qle_minus_iff in Hhere. apply Qle_minus_iff.
    setoid_replace (0 + - (end_time - t'))%Q with (t' + - end_time)%Q by ring.
    exact Hhere.
Qed.

Lemma py_index_some_bounds {A : Type} (l : list A) i x :
  py_index l i = Some x -> i < Z.of_nat (length l).
Proof.
  unfold py_index.
  destruct ((0 <=? i) && (i <? Z.of_nat (length l))) eqn:E1.
  - apply andb_true_iff in E1. destruct E1 as [_ E]. apply Z.ltb_lt in E. auto.
  - destruct ((- Z.of_nat (length l) <=? i) && (i <? 0)) eqn:E2; [| discriminate].
    apply andb_true_iff in E2. destruct E2 as [_ E]. apply Z.ltb_lt in E. lia.
Qed.

(** X2.  A round returns once the clock reaches its deadline: if after the
    reading that fixes the deadline some reading of the clock is at or beyond
    the deadline, [start_round] runs to its end and neither raises nor
    stays waiting. *)
Theorem start_round_returns_when_the_clock_reaches_the_deadline w r t0 rest :
  py_index (active_rounds (userdata w)) (round_index (userdata w)) = Some r ->
  clock w = t0 :: rest ->
  Exists (fun t => (t0 + inject_Z (snd (fst r)) <= t)%Q) rest ->
  exists w', start_round w = Ok tt w'.
Proof.
  intros Hr Hc Hex. destruct w as [u h c l o]. wsimpl. subst c.
  destruct r as [[round_name duration] sp]. cbn [fst snd] in Hex.
  pose proof (py_index_some_bounds _ _ _ Hr) as Hlt. apply Z.leb_gt in Hlt.
  unfold start_round. unfold bind at 1. unfold get_state at 1. wsimpl.
  rewrite Hlt, Hr. unfold bind at 1. cbn [or_raise ret].
  unfold bind at 1. unfold modify_state at 1. wsimpl.
  unfold bind at 1. unfold announce, send_data, emit. wsimpl.
  unfold bind at 1. unfold bind at 1. rewrite for_each_signal_speaking. wsimpl.
  unfold bind at 1. unfold now at 1. wsimpl.
  unfold bind at 1.
  match goal with
  | |- context [countdown ?f ?e ?n ?s (mkWorld ?u1 ?h1 ?c1 ?l1 ?o1)] =>
      destruct (countdown_returns f e n s u1 h1 c1 l1 o1) as [w1 Hw1];
      [cbn [clock]; lia | exact Hex | rewrite Hw1]
  end.
  unfold bind at 1. unfold bind at 1. rewrite disable_speaking.
  unfold bind at 1. unfold get_state at 1.
  unfold bind at 1.
  destruct ((duration =? 3 * 60) && Qltb (time_remaining (userdata _)) 0);
    eexists; reflexivity.
Qed.

Lemma start_round_returns_when_the_clock_reaches_the_deadline_witness :
  exists w',
    start_round (mkWorld (initial_state "room" "multi") [] [10; 11; 100; 100; 250]%Q [] [])
    = Ok tt w'.
Proof.
  apply (start_round_returns_when_the_clock_reaches_the_deadline
           (mkWorld (initial_state "room" "multi") [] [10; 11; 100; 100; 250]%Q [] [])
           ("constructive_a", 240, Single "A") 10%Q [11; 100; 100; 250]%Q).
  - reflexivity.
  - reflexivity.
  - repeat (first [apply Exists_cons_hd; vm_compute; discriminate | apply Exists_cons_tl]).
Defined.

Lemma round_log_ends_with_the_request m r ticks tr :
  Forall is_tick ticks ->
  exists before,
    round_log m r ticks tr
      = (before ++ [SendData (JObj [("type", JStr "score_round")]) (Some "judge")])%list /\
    filter is_score_request before = [].
Proof.
  intros Ht. destruct r as [[name duration] sp]. unfold round_log.
  eexists. split.
  - rewrite !app_assoc. reflexivity.
  - rewrite !filter_app, !signals_not_requests, (ticks_not_requests _ Ht).
    destruct ((duration =? 3 * 60) && Qltb tr 0); reflexivity.
Qed.

(** X4.  [start_round] asks the judge to score exactly when the round has
    run to its end, and then as its last message: a round that raises or is
    still waiting, or a call with no round left, sends no such request. *)
Theorem start_round_requests_scoring_only_at_the_end w :
  match start_round w with
  | Ok _ w' =>
      (round_index (userdata w) < Z.of_nat (length (active_rounds (userdata w))) ->
       exists before,
         out w' = (out w ++ before
                   ++ [SendData (JObj [("type", JStr "score_round")]) (Some "judge")])%list /\
         filter is_score_request before = []) /\
      (Z.of_nat (length (active_rounds (userdata w))) <= round_index (userdata w) ->
       completed_rounds w' = completed_rounds w)
  | Raised _ w' | Stuck w' => completed_rounds w' = completed_rounds w
  end.
Proof.
  destruct (Z_lt_le_dec (round_index (userdata w))
              (Z.of_nat (length (active_rounds (userdata w))))) as [Hlt | Hge].
  - pose proof (start_round_spec w Hlt) as H. unfold wp in H.
    destruct (start_round w) as [[] w' | e w' | w'].
    + destruct H as (r & tr & c & ticks & _ & Ht & ->). split; [| lia].
      intros _. destruct (round_log_ends_with_the_request (mode (userdata w)) r ticks tr Ht)
        as (before & -> & Hb).
      exists before. split; [reflexivity | exact Hb].
    + apply H.
    + apply H.
  - rewrite (start_round_exhausted w Hge). split; [lia |].
    intros _. destruct w as [u h c l o]. wsimpl.
    rewrite completed_rounds_app. simpl. apply Nat.add_0_r.
Qed.

(** An accepted prep request is the next round, entered from the charged
    world. *)
Lemma request_prep_time_runs_the_next_round team available w :
  dget (prep_time (userdata w)) team = Some available ->
  (0 < available)%Q ->
  request_prep_time team w = start_round (charged team available w).
Proof.
  intros Hsome Hpos. destruct w as [u h c l o]. wsimpl.
  assert (Hb : Qle_bool available 0 = false).
  { destruct (Qle_bool available 0) eqn:E; [| reflexivity].
    apply Qle_bool_iff in E. exfalso. apply (Qlt_not_le _ _ Hpos E). }
  unfold request_prep_time. unfold bind at 1. unfold get_state at 1. wsimpl.
  unfold dmem. rewrite Hsome. cbn [negb]. unfold bind at 1. cbn [or_raise ret].
  rewrite Hb. unfold bind at 1. unfold modify_state at 1. wsimpl.
  unfold bind at 1. unfold announce at 1. unfold send_data, emit at 1. wsimpl.
  unfold bind at 1. unfold sleep, emit at 1. wsimpl.
  unfold bind at 1. unfold announce at 1. unfold send_data, emit at 1. wsimpl.
  unfold charged, announcement. wsimpl. cbn [prep_time]. rewrite <- !app_assoc.
  reflexivity.
Qed.

(** X6.  An accepted prep request announces the pause, sleeps for the time
    it charges, announces the end of the pause and then runs the next round
    like [start_round]: when that round runs to its end, [round_index] has
    advanced by 1 and the judge has been asked to score; when it raises or is
    still waiting, [round_index] is unchanged and no request was sent. *)
Theorem accepted_prep_request_runs_the_next_round team available w :
  dget (prep_time (userdata w)) team = Some available ->
  (0 < available)%Q ->
  round_index (userdata w) < Z.of_nat (length (active_rounds (userdata w))) ->
  let duration := Qmin available (inject_Z 120) in
  match request_prep_time team w with
  | Ok _ w' =>
      exists r ticks tr,
        Forall is_tick ticks /\
        out w' =
          (out w ++ [announcement ("Team " ++ team ++ " using " ++ fixed1 (duration / 60)
                                   ++ " min of prep time.");
                     Sleep duration;
                     announcement ("Prep time for Team " ++ team ++ " is over.")]
                 ++ round_log (mode (userdata w)) r ticks tr)%list /\
        round_index (userdata w') = round_index (userdata w) + 1 /\
        completed_rounds w' = S (completed_rounds w)
  | Raised _ w' | Stuck w' =>
      round_index (userdata w') = round_index (userdata w) /\
      completed_rounds w' = completed_rounds w
  end.
Proof.
  intros Hsome Hpos Hlt duration.
  rewrite (request_prep_time_runs_the_next_round team available w Hsome Hpos).
  assert (Hc : completed_rounds (charged team available w) = completed_rounds w)
    by apply charged_same_digest.
  pose proof (start_round_spec (charged team available w) Hlt) as H. unfold wp in H.
  destruct (start_round (charged team available w)) as [[] w' | e w' | w'].
  - destruct H as (r & tr & c & ticks & _ & Ht & ->). cbn [out userdata].
    exists r, ticks, tr. split; [exact Ht |]. split; [| split].
    + unfold charged, duration. cbn [out userdata mode set_prep_time].
      rewrite python_min_is_Qmin, <- app_assoc. reflexivity.
    + reflexivity.
    + rewrite <- Hc. destruct (charged team available w) as [u h c0 l o]. wsimpl.
      rewrite completed_rounds_app, (round_log_requests _ _ _ _ Ht).
      unfold completed_rounds. simpl. lia.
  - destruct H as ([tr ->] & _ & H). split; [reflexivity | congruence].
  - destruct H as ([tr ->] & _ & H). split; [reflexivity | congruence].
Qed.

Lemma accepted_prep_request_runs_the_next_round_witness :
  let w := mkWorld (set_prep_time [("T1", inject_Z 120); ("T2", inject_Z 120)]
                      (initial_state "room" "multi")) [] [0; 0; 300]%Q [] [] in
  match request_prep_time "T2" w with
  | Ok _ w' =>
      exists r ticks tr,
        Forall is_tick ticks /\
        out w' =
          (out w ++ [announcement ("Team " ++ "T2" ++ " using "
                                   ++ fixed1 (Qmin (inject_Z 120) (inject_Z 120) / 60)
                                   ++ " min of prep time.");
                     Sleep (Qmin (inject_Z 120) (inject_Z 120));
                     announcement ("Prep time for Team " ++ "T2" ++ " is over.")]
                 ++ round_log (mode (userdata w)) r ticks tr)%list /\
        round_index (userdata w') = round_index (userdata w) + 1 /\
        completed_rounds w' = S (completed_rounds w)
  | Raised _ w' | Stuck w' =>
      round_index (userdata w') = round_index (userdata w) /\
      completed_rounds w' = completed_rounds w
  end.
Proof.
  intros w.
  apply (accepted_prep_request_runs_the_next_round "T2" (inject_Z 120) w);
    reflexivity.
Defined.

Lemma set_transcripts_same s : set_transcripts (transcripts s) s = s.
Proof. destruct s; reflexivity. Qed.

Lemma set_scores_same s : set_scores (scores s) s = s.
Proof. destruct s; reflexivity. Qed.

Lemma set_round_index_same s : set_round_index (round_index s) s = s.
Proof. destruct s; reflexivity. Qed.

Lemma set_prep_time_same s : set_prep_time (prep_time s) s = s.
Proof. destruct s; reflexivity. Qed.

Lemma finalize_scores_keeps_the_world w :
  userdata (world_of (finalize_scores w)) = userdata w /\
  score_history (world_of (finalize_scores w)) = score_history w.
Proof.
  destruct (dget (scores (userdata w)) "T1") as [l1 |] eqn:H1.
  - destruct (dget (scores (userdata w)) "T2") as [l2 |] eqn:H2.
    + rewrite (finalize_scores_runs w l1 l2 H1 H2). split; reflexivity.
    + unfold finalize_scores, bind, get_state. rewrite H1. cbn [or_raise ret].
      rewrite H2. split; reflexivity.
  - unfold finalize_scores, bind, get_state. rewrite H1. split; reflexivity.
Qed.

(** [score_round], however it ends: what it has done to the state, the
    history and the log. *)
Lemma score_round_outcome u h c l o :
  wp score_round
    (fun _ w' =>
       exists r s1 s2 e l1 l2 l' n,
         py_index ROUNDS (round_index u - 1) = Some r /\
         dget (scores u) "T1" = Some l1 /\
         dget (scores u) "T2" = Some l2 /\
         let round_name := fst (fst r) in
         w' = mkWorld
                (set_scores (dset (dset (scores u) "T1" (l1 ++ [s1])%list) "T2"
                               (l2 ++ [s2])%list) u)
                (h ++ [score_record round_name s1 s2 e])%list c l'
                (o ++ repeat (AskLLM (evaluation_prompt round_name
                                        (dget_default (transcripts u) round_name []))) n
                   ++ scores_messages round_name s1 s2 e)%list)
    (fun w' =>
       exists l' p n,
         let asks := repeat (AskLLM p) n in
         w' = mkWorld u h c l' (o ++ asks)
         \/ (dget (scores u) "T1" = None /\
             exists rec, w' = mkWorld u (h ++ [rec]) c l' (o ++ asks))
         \/ (dget (scores u) "T2" = None /\
             exists rec sc, w' = mkWorld (set_scores sc u) (h ++ [rec]) c l' (o ++ asks)))
    (mkWorld u h c l o).
Proof.
  unfold score_round. wp_steps. wsimpl.
  apply wp_or_raise.
  2:{ intros _. exists l, "", 0%nat. left. cbn [repeat]. rewrite app_nil_r. reflexivity. }
  intros r Hr. wp_step.
  eapply wp_mono; [apply evaluate_round_spec | |].
  2:{ intros w' (l' & n & ->). exists l'. eexists. exists n. left. reflexivity. }
  intros [s1 s2] w' (e & l' & n & ->). cbn [fst snd]. cbv beta iota.
  set (round_name := fst (fst r)).
  set (p := evaluation_prompt round_name (dget_default (transcripts u) round_name [])).
  unfold append_score at 1. wp_steps. wsimpl.
  apply wp_or_raise.
  2:{ intros Hnone. exists l', p, n. right. left. split; [exact Hnone |].
      eexists. reflexivity. }
  intros l1 Hl1. wp_steps. wsimpl.
  unfold append_score at 1. wp_steps. wsimpl. cbn [scores set_scores].
  rewrite dget_dset_other by discriminate.
  apply wp_or_raise.
  2:{ intros Hnone. exists l', p, n. right. right. split; [exact Hnone |].
      eexists. eexists. reflexivity. }
  intros l2 Hl2. wp_steps. wsimpl. cbn [scores set_scores].
  rewrite py_last_snoc.
  apply wp_or_raise; [| discriminate].
  intros rec Hrec. injection Hrec as <-. wp_step.
  unfold subscript, score_record. apply wp_or_raise; [| discriminate].
  intros e' He'. cbn in He'. injection He' as <-.
  wp_steps. wsimpl.
  exists r, s1, s2, e, l1, l2, l', n.
  split; [exact Hr |]. split; [exact Hl1 |]. split; [exact Hl2 |].
  cbv zeta. unfold scores_messages. fold round_name. fold p.
  rewrite <- !app_assoc. reflexivity.
Qed.

Lemma receive_transcript_footprint speaker text w :
  (exists t, userdata (world_of (receive_transcript speaker text w))
             = set_transcripts t (userdata w)) /\
  score_history (world_of (receive_transcript speaker text w)) = score_history w.
Proof.
  destruct (py_index ROUNDS (round_index (userdata w))) as [r |] eqn:Hr.
  - rewrite (receive_transcript_stores speaker text w r Hr).
    cbn [world_of userdata score_history]. split; [eauto | reflexivity].
  - rewrite (receive_transcript_raises speaker text w Hr). cbn [world_of].
    split; [| reflexivity]. exists (transcripts (userdata w)).
    symmetry. apply set_transcripts_same.
Qed.

Lemma start_round_footprint w :
  (exists tr ri, userdata (world_of (start_round w))
                 = set_round_index ri (set_time_remaining tr (userdata w))) /\
  score_history (world_of (start_round w)) = score_history w.
Proof.
  apply (wp_world_of start_round
           (fun w' => (exists tr ri, userdata w'
                         = set_round_index ri (set_time_remaining tr (userdata w))) /\
                      score_history w' = score_history w)).
  eapply wp_mono; [apply start_round_any | |].
  - intros _ w' [(_ & [tr Hu] & Hh & _) | ([tr Hu] & Hh & _)].
    + split; [eauto | exact Hh].
    + split; [| exact Hh]. exists tr, (round_index (userdata w)).
      rewrite Hu. destruct (userdata w); reflexivity.
  - intros w' ([tr Hu] & Hh & _). split; [| exact Hh].
    exists tr, (round_index (userdata w)). rewrite Hu.
    destruct (userdata w); reflexivity.
Qed.

Lemma request_prep_time_footprint team w :
  (exists tr ri,
     userdata (world_of (request_prep_time team w)) =
     set_round_index ri
       (set_time_remaining tr
          (set_prep_time (budgets_after team (prep_time (userdata w))) (userdata w)))) /\
  score_history (world_of (request_prep_time team w)) = score_history w.
Proof.
  assert (Hrej : forall message,
             budgets_after team (prep_time (userdata w)) = prep_time (userdata w) ->
             request_prep_time team w =
               Ok tt (mkWorld (userdata w) (score_history w) (clock w) (llm w)
                        (out w ++ [announcement message])) ->
             (exists tr ri,
                userdata (world_of (request_prep_time team w)) =
                set_round_index ri
                  (set_time_remaining tr
                     (set_prep_time (budgets_after team (prep_time (userdata w)))
                        (userdata w)))) /\
             score_history (world_of (request_prep_time team w)) = score_history w).
  { intros message -> ->. cbn [world_of userdata score_history]. split; [| reflexivity].
    exists (time_remaining (userdata w)), (round_index (userdata w)).
    destruct (userdata w); reflexivity. }
  unfold budgets_after in *.
  destruct (dget (prep_time (userdata w)) team) as [available |] eqn:Hd.
  - destruct (Qlt_le_dec 0 available) as [Hpos | Hle].
    + assert (Hb : Qle_bool available 0 = false).
      { destruct (Qle_bool available 0) eqn:E; [| reflexivity].
        apply Qle_bool_iff in E. exfalso. apply (Qlt_not_le _ _ Hpos E). }
      rewrite Hb.
      rewrite (request_prep_time_runs_the_next_round team available w Hd Hpos).
      destruct (start_round_footprint (charged team available w)) as ((tr & ri & Hu) & Hh).
      rewrite Hu, Hh. unfold charged. cbn [userdata score_history].
      split; [eauto | reflexivity].
    + pose proof Hle as Hb. apply Qle_bool_iff in Hb. rewrite Hb in *.
      destruct (request_prep_time_rejected team w) as [message Hrun]; [right; eauto |].
      apply (Hrej message); [reflexivity | exact Hrun].
  - destruct (request_prep_time_rejected team w) as [message Hrun]; [left; exact Hd |].
    apply (Hrej message); [reflexivity | exact Hrun].
Qed.

Lemma score_round_footprint w :
  (exists sc, userdata (world_of (score_round w)) = set_scores sc (userdata w)) /\
  exists records, score_history (world_of (score_round w)) = (score_history w ++ records)%list.
Proof.
  destruct w as [u h c l o].
  pose proof (score_round_outcome u h c l o) as H. unfold wp in H.
  assert (Hsame : exists sc, u = set_scores sc u).
  { exists (scores u). symmetry. apply set_scores_same. }
  destruct (score_round (mkWorld u h c l o)) as [[] w' | e w' | w']; cbn [world_of].
  - destruct H as (r & s1 & s2 & e & l1 & l2 & l' & n & _ & _ & _ & ->).
    cbn [userdata score_history]. split; eauto.
  - destruct H as (l' & p & n & [-> | [(_ & rec & ->) | (_ & rec & sc & ->)]]);
      cbn [userdata score_history]; split; eauto; exists []; rewrite app_nil_r; reflexivity.
  - destruct H as (l' & p & n & [-> | [(_ & rec & ->) | (_ & rec & sc & ->)]]);
      cbn [userdata score_history]; split; eauto; exists []; rewrite app_nil_r; reflexivity.
Qed.

(** X7.  Each handler writes only its own part of the world, however it
    ends: [receive_transcript] the transcripts; [start_round] the remaining
    time and the round index; [request_prep_time] these and the prep budgets;
    [score_round] the scores, and it only appends to the judge's history;
    [finalize_scores] nothing.  No handler but [score_round] touches the
    history. *)
Theorem handlers_write_only_their_own_fields w :
  (forall speaker text,
     let w' := world_of (receive_transcript speaker text w) in
     (exists t, userdata w' = set_transcripts t (userdata w)) /\
     score_history w' = score_history w) /\
  (let w' := world_of (start_round w) in
   (exists tr ri, userdata w' = set_round_index ri (set_time_remaining tr (userdata w))) /\
   score_history w' = score_history w) /\
  (forall team,
     let w' := world_of (request_prep_time team w) in
     (exists pt tr ri,
        userdata w' =
        set_round_index ri (set_time_remaining tr (set_prep_time pt (userdata w)))) /\
     score_history w' = score_history w) /\
  (let w' := world_of (score_round w) in
   (exists sc, userdata w' = set_scores sc (userdata w)) /\
   exists records, score_history w' = (score_history w ++ records)%list) /\
  (let w' := world_of (finalize_scores w) in
   userdata w' = userdata w /\ score_history w' = score_history w).
Proof.
  split; [| split; [| split; [| split]]].
  - intros speaker text. apply receive_transcript_footprint.
  - apply start_round_footprint.
  - intros team. cbv zeta.
    destruct (request_prep_time_footprint team w) as ((tr & ri & Hu) & Hh).
    split; [eauto | exact Hh].
  - apply score_round_footprint.
  - apply finalize_scores_keeps_the_world.
Qed.

Lemma budgets_after_whole_or_spent team b1 b2 :
  (b1 = inject_Z 120 \/ b1 = 0%Q) -> (b2 = inject_Z 120 \/ b2 = 0%Q) ->
  exists b1' b2',
    budgets_after team [("T1", b1); ("T2", b2)] = [("T1", b1'); ("T2", b2')] /\
    (b1' = inject_Z 120 \/ b1' = 0%Q) /\ (b2' = inject_Z 120 \/ b2' = 0%Q).
Proof.
  intros H1 H2. unfold budgets_after. cbn [dget dset].
  destruct (String.eqb team "T1"); [| destruct (String.eqb team "T2")].
  - destruct H1 as [-> | ->]; cbn; eauto 10.
  - destruct H2 as [-> | ->]; cbn; eauto 10.
  - eauto 10.
Qed.

Lemma step_set_up s s' : step s s' -> set_up (userdata (world s)) -> set_up (userdata (world s')).
Proof.
  intros Hstep (Hr & Ht & Hc & b1 & b2 & Hp & Hb1 & Hb2).
  assert (Hkeep : forall u', roles u' = roles (userdata (world s)) ->
                             topic u' = topic (userdata (world s)) ->
                             custom_rounds u' = custom_rounds (userdata (world s)) ->
                             prep_time u' = prep_time (userdata (world s)) ->
                             set_up u').
  { intros u' E1 E2 E3 E4. unfold set_up. rewrite E1, E2, E3, E4. eauto 10. }
  destruct Hstep; cbn [world].
  - apply Hkeep; reflexivity.
  - destruct (receive_transcript_footprint speaker text (world s)) as ([t ->] & _).
    apply Hkeep; reflexivity.
  - destruct (request_prep_time_footprint team (world s)) as ((tr & ri & ->) & _).
    unfold set_up.
    cbn [roles topic custom_rounds prep_time set_round_index set_time_remaining set_prep_time].
    rewrite Hp.
    destruct (budgets_after_whole_or_spent team b1 b2 Hb1 Hb2) as (b1' & b2' & -> & G1 & G2).
    eauto 10.
  - destruct (start_round_footprint (world s)) as ((tr & ri & ->) & _).
    apply Hkeep; reflexivity.
  - destruct (score_round_footprint (world s)) as ([sc ->] & _).
    apply Hkeep; reflexivity.
  - destruct (finalize_scores_keeps_the_world (world s)) as [-> _].
    apply Hkeep; reflexivity.
Qed.

Lemma reachable_set_up s : reachable s -> set_up (userdata (world s)).
Proof.
  induction 1 as [room mode_ swapped pick readings answers | s s' _ IH Hstep].
  - unfold boot. cbn [world]. rewrite initialize_debate_enters_the_first_round.
    destruct (start_round_footprint
                (initialized swapped pick
                   (mkWorld (initial_state room mode_) [] readings answers [])))
      as ((tr & ri & ->) & _).
    unfold set_up, initialized.
    cbn [userdata roles topic custom_rounds prep_time set_round_index set_time_remaining
           set_transcripts set_prep_time set_topic set_roles initial_state].
    split; [destruct swapped; auto |].
    split; [apply nth_In; apply Nat.mod_upper_bound; discriminate |].
    split; [reflexivity |]. eauto 10.
  - apply (step_set_up s s'); assumption.
Qed.

(** X5.  In every state a session reaches, each team's prep budget is
    either the whole 120 seconds or 0: a request that is accepted spends all
    of it, so a team is granted prep time at most once. *)
Theorem prep_budget_is_whole_or_spent s :
  reachable s ->
  exists b1 b2,
    prep_time (userdata (world s)) = [("T1", b1); ("T2", b2)] /\
    (b1 = inject_Z 120 \/ b1 = 0%Q) /\ (b2 = inject_Z 120 \/ b2 = 0%Q).
Proof. intros Hs. apply (reachable_set_up s Hs). Qed.

Lemma prep_budget_is_whole_or_spent_witness :
  let s := boot "room" "multi" true 2 [0; 0; 300]%Q [] in
  exists b1 b2,
    prep_time (userdata (world s)) = [("T1", b1); ("T2", b2)] /\
    (b1 = inject_Z 120 \/ b1 = 0%Q) /\ (b2 = inject_Z 120 \/ b2 = 0%Q).
Proof.
  intros s.
  exact (prep_budget_is_whole_or_spent s
           (reach_boot "room" "multi" true 2 [0; 0; 300]%Q [])).
Defined.

(** X8.  What [initialize_debate] sets up stays: in every state a session
    reaches, T1 and T2 hold the roles "Pro" and "Con", one each, the topic
    is one of [DEBATE_TOPICS], and no custom round sequence is set, so the
    active sequence is [ROUNDS]. *)
Theorem the_setup_of_a_debate_is_permanent s :
  reachable s ->
  (roles (userdata (world s)) = [("T1", "Pro"); ("T2", "Con")]
   \/ roles (userdata (world s)) = [("T1", "Con"); ("T2", "Pro")]) /\
  In (topic (userdata (world s))) DEBATE_TOPICS /\
  active_rounds (userdata (world s)) = ROUNDS.
Proof.
  intros Hs. destruct (reachable_set_up s Hs) as (Hr & Ht & Hc & _).
  split; [exact Hr |]. split; [exact Ht |].
  unfold active_rounds. rewrite Hc. reflexivity.
Qed.

Lemma the_setup_of_a_debate_is_permanent_witness :
  let s := boot "room" "single" false 1 [0; 0; 300]%Q [] in
  (roles (userdata (world s)) = [("T1", "Pro"); ("T2", "Con")]
   \/ roles (userdata (world s)) = [("T1", "Con"); ("T2", "Pro")]) /\
  In (topic (userdata (world s))) DEBATE_TOPICS /\
  active_rounds (userdata (world s)) = ROUNDS.
Proof.
  intros s.
  exact (the_setup_of_a_debate_is_permanent s
           (reach_boot "room" "single" false 1 [0; 0; 300]%Q [])).
Defined.

Lemma Qlt_Qltb a b : (a < b)%Q -> Qltb a b = true.
Proof.
  intros H. unfold Qltb. apply negb_true_iff.
  destruct (Qle_bool b a) eqn:E; [| reflexivity].
  apply Qle_bool_iff in E. exfalso. apply (Qlt_not_le _ _ H E).
Qed.

Lemma retry_scores attempts p v w v' w' :
  retry attempts p v w = Ok v' w' ->
  (in_range (fst (fst v)) \/ fst (fst v) = PNaN) ->
  (in_range (snd (fst v)) \/ snd (fst v) = PNaN) ->
  (in_range (fst (fst v')) \/ fst (fst v') = PNaN) /\
  (in_range (snd (fst v')) \/ snd (fst v') = PNaN).
Proof.
  intros Hrun H1 H2. pose proof (wp_retry_scores attempts p v w H1 H2) as H.
  unfold wp in H. rewrite Hrun in H. exact H.
Qed.

(** X9.  Whatever the language model answers, each score [evaluate_round]
    returns lies in the interval from 21 to 30 or is NaN; and when the
    shortfall penalty is applied both scores lie in the interval, NaN
    included: [max(21, nan - k)] is 21. *)
Theorem evaluate_round_returns_clamped_scores round_name tr w s1 s2 w' :
  evaluate_round round_name tr w = Ok (s1, s2) w' ->
  (in_range s1 \/ s1 = PNaN) /\
  (in_range s2 \/ s2 = PNaN) /\
  ((exists r, py_index ROUNDS (round_index (userdata w)) = Some r /\
              snd (fst r) = 180 /\ (time_remaining (userdata w) < 0)%Q) ->
   in_range s1 /\ in_range s2).
Proof.
  intros Hrun.
  pose proof (evaluate_round_scores round_name tr w) as H. unfold wp in H.
  rewrite Hrun in H. cbn [fst snd] in H. destruct H as [G1 G2].
  split; [exact G1 |]. split; [exact G2 |].
  intros (r & Hr & Hd & Ht).
  pose proof Hrun as Hrun'. unfold evaluate_round in Hrun'. unfold bind at 1 in Hrun'.
  destruct (retry [0; 1; 2] (evaluation_prompt round_name tr)
              (PInt 25, PInt 25, JStr "Default score") w)
    as [[[a1 a2] e] w1 | |] eqn:Hretry; try discriminate Hrun'.
  clear Hrun'.
  rewrite (evaluate_round_after_retry round_name tr w a1 a2 e w1 Hretry) in Hrun.
  rewrite Hr, Hd, (Qlt_Qltb _ _ Ht) in Hrun. cbn [Z.eqb Pos.eqb andb Z.mul Pos.mul] in Hrun.
  cbv zeta in Hrun.
  destruct (add_note e _) as [e' |]; [| discriminate Hrun].
  injection Hrun as <- <- _.
  destruct (retry_scores _ _ _ _ _ _ Hretry) as [A1 A2];
    [left; simpl; lia | left; simpl; lia |]. cbn [fst snd] in A1, A2.
  split; apply penalised_in_range; auto using shortfall_nonneg.
Qed.

Lemma evaluate_round_returns_clamped_scores_witness :
  let w := mkWorld (set_time_remaining (-45 # 1)
                      (set_round_index 2 (initial_state "room" "multi")))
             [] [] [ParsedText (JObj [("T1", JNum PNaN); ("T2", JNum (PInt 99))])] [] in
  (in_range (PInt 21) \/ PInt 21 = PNaN) /\
  (in_range (PInt 29) \/ PInt 29 = PNaN) /\
  ((exists r, py_index ROUNDS (round_index (userdata w)) = Some r /\
              snd (fst r) = 180 /\ (time_remaining (userdata w) < 0)%Q) ->
   in_range (PInt 21) /\ in_range (PInt 29)).
Proof.
  intros w.
  apply (evaluate_round_returns_clamped_scores "constructive_c" [] w
           (PInt 21) (PInt 29) (world_of (evaluate_round "constructive_c" [] w))).
  vm_compute. reflexivity.
Defined.

(** The retries ask the language model once per attempt. *)
Lemma retry_asks attempts p :
  forall v u h c l o,
    wp (retry attempts p v)
      (fun _ w' => exists l' n, (1 <= n <= length attempts)%nat /\
                                w' = mkWorld u h c l' (o ++ repeat (AskLLM p) n))
      (fun w' => exists l' n, (1 <= n <= length attempts)%nat /\
                              w' = mkWorld u h c l' (o ++ repeat (AskLLM p) n))
      (mkWorld u h c l o) \/ attempts = [].
Proof.
  induction attempts as [| k rest IH]; intros v u h c l o; [right; reflexivity |].
  left. cbn [retry]. wp_step. apply wp_generate; wsimpl.
  - intros a l' _.
    destruct (try_body a v) as [[[s1 s2] e] [err |]].
    + destruct (IH (if k =? 2 then (s1, s2, JStr "Failed to evaluate round")
                    else (s1, s2, e)) u h c l' (o ++ [AskLLM p])%list) as [H | ->].
      * eapply wp_mono; [exact H | |].
        -- intros _ w' (l'' & n & Hn & ->). exists l'', (S n).
           split; [cbn [length]; lia |]. rewrite <- app_assoc. reflexivity.
        -- intros w' (l'' & n & Hn & ->). exists l'', (S n).
           split; [cbn [length]; lia |]. rewrite <- app_assoc. reflexivity.
      * apply wp_ret. exists l', 1%nat. split; [cbn [length]; lia | reflexivity].
    + apply wp_ret. exists l', 1%nat. split; [cbn [length]; lia | reflexivity].
  - intros _. exists [], 1%nat. split; [cbn [length]; lia | reflexivity].
Qed.

(** X10.  [evaluate_round] asks the language model at least once and at
    most three times, always with the same prompt, and logs nothing else;
    when the first answer is an object whose T1 and T2 can be clamped it asks
    only once. *)
Theorem evaluate_round_asks_at_most_three_times round_name tr w :
  let w' := world_of (evaluate_round round_name tr w) in
  exists n,
    (1 <= n <= 3)%nat /\
    out w' = (out w ++ repeat (AskLLM (evaluation_prompt round_name tr)) n)%list /\
    ((exists result rest s1 s2,
        llm w = ParsedText (JObj result) :: rest /\
        clamped result "T1" = Some s1 /\ clamped result "T2" = Some s2) ->
     n = 1%nat).
Proof.
  cbv zeta. destruct w as [u h c l o]. wsimpl.
  set (p := evaluation_prompt round_name tr).
  assert (Hfirst : (exists result rest s1 s2,
                      l = ParsedText (JObj result) :: rest /\
                      clamped result "T1" = Some s1 /\ clamped result "T2" = Some s2) ->
                   exists v1 rest,
                     retry [0; 1; 2] p (PInt 25, PInt 25, JStr "Default score")
                       (mkWorld u h c l o)
                     = Ok v1 (mkWorld u h c rest (o ++ [AskLLM p]))).
  { intros (result & rest & s1 & s2 & -> & H1 & H2).
    cbn [retry]. unfold bind at 1. unfold generate, bind, emit. wsimpl.
    cbn [try_body read_result]. rewrite H1, H2. eexists. eexists. reflexivity. }
  destruct (retry_asks [0; 1; 2] p (PInt 25, PInt 25, JStr "Default score") u h c l o)
    as [Hasks | Hnil]; [| discriminate Hnil].
  unfold wp in Hasks. cbn [length] in Hasks.
  unfold evaluate_round. fold p. unfold bind at 1.
  destruct (retry [0; 1; 2] p (PInt 25, PInt 25, JStr "Default score") (mkWorld u h c l o))
    as [[[a1 a2] e] w1 | err w1 | w1] eqn:Hretry.
  - destruct Hasks as (l' & n & Hn & ->).
    assert (Hout : out (world_of
                     ((s <- get_state;;
                       r <- or_raise IndexError (py_index ROUNDS (round_index s));;
                       v <- (if (snd (fst r) =? 3 * 60) && Qltb (time_remaining s) 0
                             then
                               let shortfall := (Qabs (time_remaining s) / 30)%Q in
                               explanation' <- or_raise TypeError
                                 (add_note e (" Deducted " ++ fixed1 shortfall
                                              ++ " points for early round end."));;
                               ret (penalised a1 shortfall, penalised a2 shortfall,
                                    explanation')
                             else ret (a1, a2, e));;
                       (let '(score_t1, score_t2, explanation) := v in
                        append_history
                          (JObj [("round", JStr round_name); ("T1_score", JNum score_t1);
                                 ("T2_score", JNum score_t2);
                                 ("explanation", explanation)]);;
                        ret (score_t1, score_t2)))
                        (mkWorld u h c l' (o ++ repeat (AskLLM p) n))))
                   = (o ++ repeat (AskLLM p) n)%list).
    { unfold bind at 1. unfold get_state at 1. wsimpl.
      destruct (py_index ROUNDS (round_index u)) as [r |]; [| reflexivity].
      unfold bind at 1. cbn [or_raise ret]. unfold bind at 1.
      destruct ((snd (fst r) =? 3 * 60) && Qltb (time_remaining u) 0).
      - cbv zeta. unfold bind at 1.
        destruct (add_note e _) as [e' |]; reflexivity.
      - reflexivity. }
    exists n. split; [exact Hn |]. split; [exact Hout |].
    intros Hgood. destruct (Hfirst Hgood) as (v1 & rest & E).
    injection E as _ _ Ho.
    apply app_inv_head in Ho. destruct n as [| [| n]]; [discriminate Ho | reflexivity |].
    discriminate Ho.
  - destruct Hasks as (l' & n & Hn & ->). cbn [world_of out].
    exists n. split; [exact Hn |]. split; [reflexivity |].
    intros Hgood. destruct (Hfirst Hgood) as (v1 & rest & E).
    discriminate E.
  - destruct Hasks as (l' & n & Hn & ->). cbn [world_of out].
    exists n. split; [exact Hn |]. split; [reflexivity |].
    intros Hgood. destruct (Hfirst Hgood) as (v1 & rest & E).
    discriminate E.
Qed.

(** One attempt of the retries, on the next answer of the language model. *)
Lemma retry_step k attempts p v a u h c l o :
  retry (k :: attempts) p v (mkWorld u h c (a :: l) o) =
  match try_body a v with
  | (v', None) => Ok v' (mkWorld u h c l (o ++ [AskLLM p]))
  | ((s1, s2, e), Some _) =>
      retry attempts p
        (if k =? 2 then (s1, s2, JStr "Failed to evaluate round") else (s1, s2, e))
        (mkWorld u h c l (o ++ [AskLLM p]))
  end.
Proof.
  cbn [retry]. unfold generate, emit, bind. wsimpl.
  destruct (try_body a v) as [[[s1 s2] e] [err |]]; reflexivity.
Qed.

(** X11.  When an answer is rejected because of its T2 entry, the T1 score
    read from it stays: after two failed attempts and a third answer whose T1
    can be clamped and whose T2 cannot be compared, [evaluate_round] returns
    and records the third answer's T1 score beside the default 25 for T2,
    with the failure note. *)
Theorem a_rejected_answer_keeps_its_first_score
  round_name tr u h c o a1 a2 result rest s1 next :
  failed a1 -> failed a2 ->
  clamped result "T1" = Some s1 ->
  clamped result "T2" = None ->
  py_index ROUNDS (round_index u) = Some next ->
  (snd (fst next) =? 3 * 60) && Qltb (time_remaining u) 0 = false ->
  let p := evaluation_prompt round_name tr in
  evaluate_round round_name tr (mkWorld u h c (a1 :: a2 :: ParsedText (JObj result) :: rest) o)
  = Ok (s1, PInt 25)
      (mkWorld u
         (h ++ [score_record round_name s1 (PInt 25) (JStr "Failed to evaluate round")])
         c rest (o ++ [AskLLM p; AskLLM p; AskLLM p])).
Proof.
  intros F1 F2 H1 H2 Hnext Hpen p.
  assert (Hretry : retry [0; 1; 2] p (PInt 25, PInt 25, JStr "Default score")
                     (mkWorld u h c (a1 :: a2 :: ParsedText (JObj result) :: rest) o)
                   = Ok (s1, PInt 25, JStr "Failed to evaluate round")
                       (mkWorld u h c rest (o ++ [AskLLM p; AskLLM p; AskLLM p]))).
  { destruct F1 as [-> | ->], F2 as [-> | ->];
      repeat (rewrite retry_step; cbn [try_body read_result Z.eqb Pos.eqb]);
      rewrite H1, H2; cbn [retry ret]; rewrite <- !app_assoc; reflexivity. }
  rewrite (evaluate_round_after_retry round_name tr _ _ _ _ _ Hretry).
  wsimpl. rewrite Hnext, Hpen. reflexivity.
Qed.

Lemma a_rejected_answer_keeps_its_first_score_witness :
  let u := set_round_index 1 (initial_state "room" "multi") in
  let result := [("T1", JNum (PInt 28)); ("T2", JStr "27")] in
  let p := evaluation_prompt "constructive_a" [] in
  evaluate_round "constructive_a" []
    (mkWorld u [] [] [InvalidText; GenerateFails; ParsedText (JObj result)] [])
  = Ok (PInt 28, PInt 25)
      (mkWorld u
         ([] ++ [score_record "constructive_a" (PInt 28) (PInt 25)
                   (JStr "Failed to evaluate round")])
         [] [] ([] ++ [AskLLM p; AskLLM p; AskLLM p])).
Proof.
  intros u result p.
  apply (a_rejected_answer_keeps_its_first_score "constructive_a" [] u [] [] []
           InvalidText GenerateFails result [] (PInt 28)
           ("constructive_c", 4 * 60, Single "C")).
  - right; reflexivity.
  - left; reflexivity.
  - reflexivity.
  - reflexivity.
  - reflexivity.
  - reflexivity.
Defined.

(** X12.  When the penalty applies and the accepted answer's explanation is
    neither a string nor a list, adding the penalty note raises [TypeError]:
    [evaluate_round] records nothing, although the answer was accepted. *)
Theorem penalty_note_on_a_non_text_explanation_raises
  round_name tr u h c o result rest s1 s2 e next :
  clamped result "T1" = Some s1 ->
  clamped result "T2" = Some s2 ->
  dget result "explanation" = Some e ->
  match e with JStr _ | JArr _ => False | _ => True end ->
  py_index ROUNDS (round_index u) = Some next ->
  snd (fst next) = 180 ->
  (time_remaining u < 0)%Q ->
  evaluate_round round_name tr (mkWorld u h c (ParsedText (JObj result) :: rest) o)
  = Raised TypeError
      (mkWorld u h c rest (o ++ [AskLLM (evaluation_prompt round_name tr)])).
Proof.
  intros H1 H2 He Hkind Hnext Hd Ht.
  assert (Hretry : retry [0; 1; 2] (evaluation_prompt round_name tr)
                     (PInt 25, PInt 25, JStr "Default score")
                     (mkWorld u h c (ParsedText (JObj result) :: rest) o)
                   = Ok (s1, s2, e)
                       (mkWorld u h c rest (o ++ [AskLLM (evaluation_prompt round_name tr)]))).
  { rewrite retry_step. cbn [try_body read_result]. rewrite H1, H2.
    unfold dget_default. rewrite He. reflexivity. }
  rewrite (evaluate_round_after_retry round_name tr _ _ _ _ _ Hretry).
  wsimpl. rewrite Hnext, Hd, (Qlt_Qltb _ _ Ht). cbn [Z.eqb Pos.eqb Z.mul Pos.mul andb].
  cbv zeta. destruct e; try reflexivity; contradiction.
Qed.

Lemma penalty_note_on_a_non_text_explanation_raises_witness :
  let u := set_time_remaining (-45 # 1) (set_round_index 2 (initial_state "room" "multi")) in
  let result := [("T1", JNum (PInt 28)); ("T2", JNum (PInt 27)); ("explanation", JNull)] in
  evaluate_round "constructive_c" [] (mkWorld u [] [] [ParsedText (JObj result)] [])
  = Raised TypeError
      (mkWorld u [] [] [] ([] ++ [AskLLM (evaluation_prompt "constructive_c" [])])).
Proof.
  intros u result.
  apply (penalty_note_on_a_non_text_explanation_raises "constructive_c" [] u [] [] []
           result [] (PInt 28) (PInt 27) JNull ("crossfire_ac", 3 * 60, Several ["A"; "C"])).
  - reflexivity.
  - reflexivity.
  - reflexivity.
  - exact I.
  - reflexivity.
  - reflexivity.
  - reflexivity.
Defined.

(** X13.  [score_round] is all or nothing on a state that has both score
    lists.  When it returns, the scores it has appended to the two lists are
    the scores of the record it has appended to the history and of the scores
    message it has broadcast, and the explanation broadcast is the record's.
    When it raises or waits for an answer for ever, the debate state and the
    history are as they were and nothing was sent: only questions to the
    language model were logged. *)
Theorem score_round_is_all_or_nothing w l1 l2 :
  dget (scores (userdata w)) "T1" = Some l1 ->
  dget (scores (userdata w)) "T2" = Some l2 ->
  match score_round w with
  | Ok _ w' =>
      exists r s1 s2 e p n,
        py_index ROUNDS (round_index (userdata w) - 1) = Some r /\
        userdata w' = set_scores (dset (dset (scores (userdata w)) "T1" (l1 ++ [s1])%list)
                                    "T2" (l2 ++ [s2])%list) (userdata w) /\
        score_history w' = (score_history w ++ [score_record (fst (fst r)) s1 s2 e])%list /\
        out w' = (out w ++ repeat (AskLLM p) n ++ scores_messages (fst (fst r)) s1 s2 e)%list
  | Raised _ w' | Stuck w' =>
      userdata w' = userdata w /\
      score_history w' = score_history w /\
      exists p n, out w' = (out w ++ repeat (AskLLM p) n)%list
  end.
Proof.
  intros H1 H2. destruct w as [u h c l o]. wsimpl.
  pose proof (score_round_outcome u h c l o) as H. unfold wp in H.
  destruct (score_round (mkWorld u h c l o)) as [[] w' | err w' | w'].
  - destruct H as (r & s1 & s2 & e & l1' & l2' & l' & n & Hr & H1' & H2' & ->).
    rewrite H1 in H1'. rewrite H2 in H2'. injection H1' as <-. injection H2' as <-.
    wsimpl. exists r, s1, s2, e. eexists. exists n. repeat split. exact Hr.
  - destruct H as (l' & p & n & [-> | [(Hn & _) | (Hn & _)]]);
      [| congruence | congruence].
    wsimpl. repeat split. eauto.
  - destruct H as (l' & p & n & [-> | [(Hn & _) | (Hn & _)]]);
      [| congruence | congruence].
    wsimpl. repeat split. eauto.
Qed.

Lemma score_round_is_all_or_nothing_witness :
  let w := mkWorld (set_round_index 1 (initial_state "room" "multi")) [] []
             [ParsedText (JObj [("T1", JNum (PInt 35)); ("explanation", JStr "fine")])] [] in
  match score_round w with
  | Ok _ w' =>
      exists r s1 s2 e p n,
        py_index ROUNDS (round_index (userdata w) - 1) = Some r /\
        userdata w' = set_scores (dset (dset (scores (userdata w)) "T1" ([] ++ [s1])%list)
                                    "T2" ([] ++ [s2])%list) (userdata w) /\
        score_history w' = (score_history w ++ [score_record (fst (fst r)) s1 s2 e])%list /\
        out w' = (out w ++ repeat (AskLLM p) n ++ scores_messages (fst (fst r)) s1 s2 e)%list
  | Raised _ w' | Stuck w' =>
      userdata w' = userdata w /\
      score_history w' = score_history w /\
      exists p n, out w' = (out w ++ repeat (AskLLM p) n)%list
  end.
Proof.
  intros w. apply (score_round_is_all_or_nothing w [] []); reflexivity.
Defined.

Lemma combine_snoc {A B : Type} (l1 : list A) (l2 : list B) a b :
  length l1 = length l2 ->
  combine (l1 ++ [a]) (l2 ++ [b]) = (combine l1 l2 ++ [(a, b)])%list.
Proof.
  revert l2. induction l1 as [| x l1 IH]; intros [| y l2] Hlen; try discriminate Hlen.
  - reflexivity.
  - cbn [app combine]. rewrite IH by (injection Hlen; auto). reflexivity.
Qed.

Lemma tallied_frame w w' :
  scores (userdata w') = scores (userdata w) ->
  score_history w' = score_history w ->
  tallied w -> tallied w'.
Proof. unfold tallied. intros -> ->. auto. Qed.

Lemma step_tallied s s' : step s s' -> tallied (world s) -> tallied (world s').
Proof.
  intros Hstep Hinv. destruct Hstep; cbn [world].
  - exact Hinv.
  - destruct (receive_transcript_footprint speaker text (world s)) as ([t Hu] & Hh).
    apply (tallied_frame (world s)); [rewrite Hu; reflexivity | exact Hh | exact Hinv].
  - destruct (request_prep_time_footprint team (world s)) as ((tr & ri & Hu) & Hh).
    apply (tallied_frame (world s)); [rewrite Hu; reflexivity | exact Hh | exact Hinv].
  - destruct (start_round_footprint (world s)) as ((tr & ri & Hu) & Hh).
    apply (tallied_frame (world s)); [rewrite Hu; reflexivity | exact Hh | exact Hinv].
  - destruct Hinv as (l1 & l2 & H1 & H2 & Hlen & Hrec).
    destruct (world s) as [u h c l o]. wsimpl.
    pose proof (score_round_outcome u h c l o) as Hw. unfold wp in Hw.
    destruct (score_round (mkWorld u h c l o)) as [[] w' | err w' | w']; cbn [world_of].
    + destruct Hw as (r & s1 & s2 & e & l1' & l2' & l' & n & Hr & H1' & H2' & ->).
      rewrite H1 in H1'. rewrite H2 in H2'. injection H1' as <-. injection H2' as <-.
      exists (l1 ++ [s1])%list, (l2 ++ [s2])%list. wsimpl. cbn [scores set_scores].
      split; [rewrite dget_dset_other by discriminate; apply dget_dset_same |].
      split; [apply dget_dset_same |].
      split; [rewrite !length_app; cbn [length]; lia |].
      rewrite map_app, Hrec, (combine_snoc l1 l2 s1 s2 Hlen), map_app. reflexivity.
    + destruct Hw as (l' & p & n & [-> | [(Hn & _) | (Hn & _)]]);
        [| congruence | congruence].
      exists l1, l2. wsimpl. auto.
    + destruct Hw as (l' & p & n & [-> | [(Hn & _) | (Hn & _)]]);
        [| congruence | congruence].
      exists l1, l2. wsimpl. auto.
  - destruct (finalize_scores_keeps_the_world (world s)) as [Hu Hh].
    apply (tallied_frame (world s)); [rewrite Hu; reflexivity | exact Hh | exact Hinv].
Qed.

Lemma reachable_tallied s : reachable s -> tallied (world s).
Proof.
  induction 1 as [room mode_ swapped pick readings answers | s s' _ IH Hstep].
  - unfold boot. cbn [world]. rewrite initialize_debate_enters_the_first_round.
    destruct (start_round_footprint
                (initialized swapped pick
                   (mkWorld (initial_state room mode_) [] readings answers [])))
      as ((tr & ri & Hu) & Hh).
    exists [], []. rewrite Hu, Hh. unfold initialized. wsimpl.
    repeat split.
  - apply (step_tallied s s'); assumption.
Qed.

(** X14.  In every state a session reaches, the judge's history and the
    teams' score lists agree: the history has one record per scored round,
    and the T1 and T2 scores of the i-th record are the i-th entries of the
    two lists. *)
Theorem score_history_matches_the_score_lists s :
  reachable s ->
  exists l1 l2,
    dget (scores (userdata (world s))) "T1" = Some l1 /\
    dget (scores (userdata (world s))) "T2" = Some l2 /\
    length l1 = length l2 /\
    map recorded (score_history (world s)) = map Some (combine l1 l2).
Proof. intros Hs. exact (reachable_tallied s Hs). Qed.

Lemma score_history_matches_the_score_lists_witness :
  let s := mkSystem
             (world_of (score_round
                (supply [] [ParsedText (JObj [("T1", JNum (PInt 35))])]
                   (world (boot "room" "multi" false 0 [0; 0; 300]%Q []))))) 1 in
  exists l1 l2,
    dget (scores (userdata (world s))) "T1" = Some l1 /\
    dget (scores (userdata (world s))) "T2" = Some l2 /\
    length l1 = length l2 /\
    map recorded (score_history (world s)) = map Some (combine l1 l2).
Proof.
  intros s.
  apply (score_history_matches_the_score_lists s).
  eapply reach_step;
    [eapply reach_step; [apply (reach_boot "room" "multi" false 0 [0; 0; 300]%Q []) |] |].
  - apply (step_supply _ [] [ParsedText (JObj [("T1", JNum (PInt 35))])]).
  - apply (step_score
             (mkSystem (supply [] [ParsedText (JObj [("T1", JNum (PInt 35))])]
                          (world (boot "room" "multi" false 0 [0; 0; 300]%Q []))) 0)).
    vm_compute. lia.
Defined.

(** On a state with both score lists, a [score_round] that does not return
    leaves the state and the history as they were. *)
Lemma score_round_undone w l1 l2 :
  dget (scores (userdata w)) "T1" = Some l1 ->
  dget (scores (userdata w)) "T2" = Some l2 ->
  match score_round w with
  | Ok _ _ => True
  | Raised _ w' | Stuck w' => userdata w' = userdata w /\ score_history w' = score_history w
  end.
Proof.
  intros H1 H2. destruct w as [u h c l o]. wsimpl.
  pose proof (score_round_outcome u h c l o) as H. unfold wp in H.
  destruct (score_round (mkWorld u h c l o)) as [[] w' | err w' | w']; [exact I | |];
    destruct H as (l' & p & n & [-> | [(Hn & _) | (Hn & _)]]);
    try congruence; split; reflexivity.
Qed.

Lemma wp_conj {A : Type} (m : M A) (Q1 Q2 : A -> World -> Prop) (E1 E2 : World -> Prop) w :
  wp m Q1 E1 w -> wp m Q2 E2 w ->
  wp m (fun a w' => Q1 a w' /\ Q2 a w') (fun w' => E1 w' /\ E2 w') w.
Proof. unfold wp. destruct (m w); auto. Qed.

(** The scores [score_round] appends are those [evaluate_round] returns:
    in the interval from 21 to 30, or NaN. *)
Lemma score_round_scores w :
  wp score_round
    (fun _ w' =>
       exists l1 l2 s1 s2,
         dget (scores (userdata w)) "T1" = Some l1 /\
         dget (scores (userdata w)) "T2" = Some l2 /\
         scores (userdata w') = dset (dset (scores (userdata w)) "T1" (l1 ++ [s1])%list)
                                  "T2" (l2 ++ [s2])%list /\
         (in_range s1 \/ s1 = PNaN) /\ (in_range s2 \/ s2 = PNaN))
    (fun _ => True) w.
Proof.
  destruct w as [u h c l o]. wsimpl.
  unfold score_round. wp_steps. wsimpl.
  apply wp_or_raise; [| auto].
  intros r Hr. wp_step.
  eapply wp_mono;
    [apply wp_conj; [apply evaluate_round_spec | apply evaluate_round_scores] | | auto].
  intros [s1 s2] w' [(e & l' & n & ->) [G1 G2]]. cbn [fst snd] in *. cbv beta iota.
  unfold append_score at 1. wp_steps. wsimpl.
  apply wp_or_raise; [| auto].
  intros l1 Hl1. wp_steps. wsimpl.
  unfold append_score at 1. wp_steps. wsimpl. cbn [scores set_scores].
  rewrite dget_dset_other by discriminate.
  apply wp_or_raise; [| auto].
  intros l2 Hl2. wp_steps. wsimpl. cbn [scores set_scores].
  rewrite py_last_snoc.
  apply wp_or_raise; [| auto].
  intros rec Hrec. wp_step.
  unfold subscript. destruct rec; try (apply wp_raise; exact I).
  apply wp_or_raise; [| auto].
  intros e' He'. wp_steps. wsimpl. cbn [scores set_scores].
  exists l1, l2, s1, s2. auto.
Qed.

Lemma graded_frame w w' :
  scores (userdata w') = scores (userdata w) -> graded w -> graded w'.
Proof. unfold graded. intros ->. auto. Qed.

Lemma step_graded s s' : step s s' -> graded (world s) -> graded (world s').
Proof.
  intros Hstep Hinv. destruct Hstep; cbn [world].
  - exact Hinv.
  - destruct (receive_transcript_footprint speaker text (world s)) as ([t Hu] & _).
    apply (graded_frame (world s)); [rewrite Hu; reflexivity | exact Hinv].
  - destruct (request_prep_time_footprint team (world s)) as ((tr & ri & Hu) & _).
    apply (graded_frame (world s)); [rewrite Hu; reflexivity | exact Hinv].
  - destruct (start_round_footprint (world s)) as ((tr & ri & Hu) & _).
    apply (graded_frame (world s)); [rewrite Hu; reflexivity | exact Hinv].
  - destruct Hinv as (l1 & l2 & H1 & H2 & F1 & F2).
    pose proof (score_round_scores (world s)) as Hok. unfold wp in Hok.
    pose proof (score_round_undone (world s) l1 l2 H1 H2) as Hno.
    destruct (score_round (world s)) as [[] w' | err w' | w']; cbn [world_of].
    + destruct Hok as (l1' & l2' & s1 & s2 & H1' & H2' & Hsc & G1 & G2).
      rewrite H1 in H1'. rewrite H2 in H2'. injection H1' as <-. injection H2' as <-.
      exists (l1 ++ [s1])%list, (l2 ++ [s2])%list. rewrite Hsc.
      split; [rewrite dget_dset_other by discriminate; apply dget_dset_same |].
      split; [apply dget_dset_same |].
      split; apply Forall_app; split; auto.
    + destruct Hno as [Hu _]. exists l1, l2. rewrite Hu. auto.
    + destruct Hno as [Hu _]. exists l1, l2. rewrite Hu. auto.
  - destruct (finalize_scores_keeps_the_world (world s)) as [Hu _].
    apply (graded_frame (world s)); [rewrite Hu; reflexivity | exact Hinv].
Qed.

Lemma reachable_graded s : reachable s -> graded (world s).
Proof.
  induction 1 as [room mode_ swapped pick readings answers | s s' _ IH Hstep].
  - unfold boot. cbn [world]. rewrite initialize_debate_enters_the_first_round.
    destruct (start_round_footprint
                (initialized swapped pick
                   (mkWorld (initial_state room mode_) [] readings answers [])))
      as ((tr & ri & Hu) & _).
    exists [], []. rewrite Hu. unfold initialized. wsimpl.
    repeat split; constructor.
  - apply (step_graded s s'); assumption.
Qed.

(** X15.  In every state a session reaches, every score in the two teams'
    lists lies in the interval from 21 to 30 or is NaN, whatever the language
    model has answered. *)
Theorem scores_of_a_session_are_clamped_or_nan s :
  reachable s ->
  exists l1 l2,
    dget (scores (userdata (world s))) "T1" = Some l1 /\
    dget (scores (userdata (world s))) "T2" = Some l2 /\
    Forall (fun x => in_range x \/ x = PNaN) l1 /\
    Forall (fun x => in_range x \/ x = PNaN) l2.
Proof. intros Hs. exact (reachable_graded s Hs). Qed.

Lemma scores_of_a_session_are_clamped_or_nan_witness :
  let s := mkSystem
             (world_of (score_round
                (supply [] [ParsedText (JObj [("T1", JNum (PInt 35)); ("T2", JNum PNaN)])]
                   (world (boot "room" "multi" false 0 [0; 0; 300]%Q []))))) 1 in
  exists l1 l2,
    dget (scores (userdata (world s))) "T1" = Some l1 /\
    dget (scores (userdata (world s))) "T2" = Some l2 /\
    Forall (fun x => in_range x \/ x = PNaN) l1 /\
    Forall (fun x => in_range x \/ x = PNaN) l2.
Proof.
  intros s.
  apply (scores_of_a_session_are_clamped_or_nan s).
  eapply reach_step;
    [eapply reach_step; [apply (reach_boot "room" "multi" false 0 [0; 0; 300]%Q []) |] |].
  - apply (step_supply _ [] [ParsedText (JObj [("T1", JNum (PInt 35)); ("T2", JNum PNaN)])]).
  - apply (step_score
             (mkSystem (supply [] [ParsedText (JObj [("T1", JNum (PInt 35)); ("T2", JNum PNaN)])]
                          (world (boot "room" "multi" false 0 [0; 0; 300]%Q []))) 0)).
    vm_compute. lia.
Defined.

Lemma in_range_value x : in_range x -> finite x /\ (21 <= value x /\ value x <= 30)%Q.
Proof.
  destruct x as [z | q | |]; cbn [in_range finite value]; try tauto.
  intros [H1 H2]. split; [exact I |].
  split; [change 21%Q with (inject_Z 21) | change 30%Q with (inject_Z 30)];
    rewrite <- Zle_Qle; assumption.
Qed.

Lemma sum_of_clamped (vs : list Q) :
  Forall (fun v => 21 <= v /\ v <= 30)%Q vs ->
  (21 * inject_Z (Z.of_nat (length vs)) <= fold_right Qplus 0 vs /\
   fold_right Qplus 0 vs <= 30 * inject_Z (Z.of_nat (length vs)))%Q.
Proof.
  induction 1 as [| v vs [Hlo Hhi] _ [IHlo IHhi]].
  - simpl. split; apply Qle_refl.
  - cbn [length fold_right]. rewrite Nat2Z.inj_succ. unfold Z.succ.
    rewrite inject_Z_plus.
    split.
    + setoid_replace (21 * (inject_Z (Z.of_nat (length vs)) + inject_Z 1))%Q
        with (21 + 21 * inject_Z (Z.of_nat (length vs)))%Q by ring.
      apply Qplus_le_compat; assumption.
    + setoid_replace (30 * (inject_Z (Z.of_nat (length vs)) + inject_Z 1))%Q
        with (30 + 30 * inject_Z (Z.of_nat (length vs)))%Q by ring.
      apply Qplus_le_compat; assumption.
Qed.

(** X16.  The average of a non-empty list of scores that all lie in the
    interval from 21 to 30 is a float in that interval. *)
Theorem average_of_clamped_scores_is_clamped l :
  l <> [] -> Forall in_range l ->
  exists q, average l = PFloat q /\ (21 <= q /\ q <= 30)%Q.
Proof.
  intros Hne Hl.
  assert (Hfin : Forall finite l).
  { eapply Forall_impl; [| exact Hl]. intros x Hx. apply (in_range_value x Hx). }
  destruct (average_is_mean l Hfin) as (_ & Hv & _ & Hq).
  destruct (Hq Hne) as [q Eq]. exists q. split; [exact Eq |].
  rewrite Eq in Hv. cbn [value] in Hv. rewrite Hv.
  assert (Hvs : Forall (fun v => 21 <= v /\ v <= 30)%Q (map value l)).
  { apply Forall_map. eapply Forall_impl; [| exact Hl].
    intros x Hx. apply (in_range_value x Hx). }
  destruct (sum_of_clamped _ Hvs) as [Hlo Hhi].
  destruct l as [| x l]; [congruence |].
  unfold mean. cbn [map].
  set (vs := value x :: map value l) in *.
  assert (Hpos : (0 < inject_Z (Z.of_nat (length vs)))%Q).
  { change 0%Q with (inject_Z 0). rewrite <- Zlt_Qlt. cbn [vs length]. lia. }
  split.
  - apply Qle_shift_div_l; assumption.
  - apply Qle_shift_div_r; assumption.
Qed.

Lemma average_of_clamped_scores_is_clamped_witness :
  exists q, average [PInt 21; PFloat (59 # 2); PInt 30] = PFloat q /\ (21 <= q /\ q <= 30)%Q.
Proof.
  apply (average_of_clamped_scores_is_clamped [PInt 21; PFloat (59 # 2); PInt 30]).
  - discriminate.
  - repeat constructor; vm_compute; discriminate.
Defined.

Lemma py_add_nan_l x : py_add PNaN x = PNaN.
Proof. reflexivity. Qed.

Lemma py_add_nan_r x : py_add x PNaN = PNaN.
Proof. destruct x; reflexivity. Qed.

Lemma fold_nan l : fold_left py_add l PNaN = PNaN.
Proof. induction l as [| x l IH]; [reflexivity | exact IH]. Qed.

Lemma average_nan l : In PNaN l -> average l = PNaN.
Proof.
  intros Hin. destruct l as [| x l]; [contradiction |].
  unfold average, py_sum.
  assert (H : forall l acc, In PNaN l -> fold_left py_add l acc = PNaN).
  { clear. induction l as [| y l IH]; intros acc Hin; [contradiction |].
    cbn [fold_left]. destruct Hin as [-> | Hin].
    - rewrite py_add_nan_r. apply fold_nan.
    - apply IH. exact Hin. }
  rewrite (H _ _ Hin). reflexivity.
Qed.

Lemma winner_of_nan a1 a2 : a1 = PNaN \/ a2 = PNaN -> winner_of a1 a2 = "Tie".
Proof.
  intros [-> | ->]; unfold winner_of, py_gt; [destruct a2 | destruct a1]; reflexivity.
Qed.

(** X17.  A single NaN among the scores of either team makes the debate a
    tie, whatever the other scores are: [finalize_scores] returns, and the
    feedback it writes and the results it broadcasts name "Tie" as the
    winner. *)
Theorem a_nan_score_makes_the_debate_a_tie w l1 l2 :
  dget (scores (userdata w)) "T1" = Some l1 ->
  dget (scores (userdata w)) "T2" = Some l2 ->
  In PNaN l1 \/ In PNaN l2 ->
  let feedback := feedback_record "Tie" (average l1) (average l2) (score_history w) in
  finalize_scores w =
  Ok tt (mkWorld (userdata w) (score_history w) (clock w) (llm w)
           (out w ++ [FileWrite ("debate_results_" ++ room_id (userdata w) ++ ".json")
                        feedback;
                      SendData
                        (JObj [("type", JStr "final_results"); ("winner", JStr "Tie");
                               ("T1_avg_score", JNum (py_round2 (average l1)));
                               ("T2_avg_score", JNum (py_round2 (average l2)));
                               ("feedback", feedback)]) None;
                      DeleteRoom])).
Proof.
  intros H1 H2 Hnan. cbv zeta.
  rewrite (finalize_scores_runs w l1 l2 H1 H2). cbv zeta.
  rewrite (winner_of_nan (average l1) (average l2)); [reflexivity |].
  destruct Hnan as [Hin | Hin]; [left | right]; apply average_nan; exact Hin.
Qed.

Lemma a_nan_score_makes_the_debate_a_tie_witness :
  let l1 := [PInt 30; PInt 30] in
  let l2 := [PInt 21; PNaN] in
  let w := mkWorld (set_scores [("T1", l1); ("T2", l2)] (initial_state "room" "multi"))
             [] [] [] [] in
  let feedback := feedback_record "Tie" (average l1) (average l2) (score_history w) in
  finalize_scores w =
  Ok tt (mkWorld (userdata w) (score_history w) (clock w) (llm w)
           (out w ++ [FileWrite ("debate_results_" ++ room_id (userdata w) ++ ".json")
                        feedback;
                      SendData
                        (JObj [("type", JStr "final_results"); ("winner", JStr "Tie");
                               ("T1_avg_score", JNum (py_round2 (average l1)));
                               ("T2_avg_score", JNum (py_round2 (average l2)));
                               ("feedback", feedback)]) None;
                      DeleteRoom])).
Proof.
  intros l1 l2 w.
  apply (a_nan_score_makes_the_debate_a_tie w l1 l2).
  - reflexivity.
  - reflexivity.
  - right. right. left. reflexivity.
Defined.

(** X18.  In every state a session reaches [finalize_scores] returns: it
    raises no [KeyError] and divides by no zero.  It writes the feedback
    with the judge's whole history to the results file of the room,
    broadcasts the final results and deletes the room, in this order, and
    the winner it names is "T1", "T2" or "Tie". *)
Theorem finalize_scores_returns_in_every_session s :
  reachable s ->
  exists winner avg_t1 avg_t2 results,
    (winner = "T1" \/ winner = "T2" \/ winner = "Tie") /\
    finalize_scores (world s) =
    Ok tt (mkWorld (userdata (world s)) (score_history (world s)) (clock (world s))
             (llm (world s))
             (out (world s)
              ++ [FileWrite ("debate_results_" ++ room_id (userdata (world s)) ++ ".json")
                    (feedback_record winner avg_t1 avg_t2 (score_history (world s)));
                  SendData results None;
                  DeleteRoom])).
Proof.
  intros Hs. destruct (reachable_tallied s Hs) as (l1 & l2 & H1 & H2 & _).
  rewrite (finalize_scores_runs (world s) l1 l2 H1 H2). cbv zeta.
  exists (winner_of (average l1) (average l2)), (average l1), (average l2).
  eexists. split; [| reflexivity].
  unfold winner_of. destruct (py_gt (average l1) (average l2)); [auto |].
  destruct (py_gt (average l2) (average l1)); auto.
Qed.

Lemma finalize_scores_returns_in_every_session_witness :
  let s := boot "room" "multi" false 0 [0; 0; 300]%Q [] in
  exists winner avg_t1 avg_t2 results,
    (winner = "T1" \/ winner = "T2" \/ winner = "Tie") /\
    finalize_scores (world s) =
    Ok tt (mkWorld (userdata (world s)) (score_history (world s)) (clock (world s))
             (llm (world s))
             (out (world s)
              ++ [FileWrite ("debate_results_" ++ room_id (userdata (world s)) ++ ".json")
                    (feedback_record winner avg_t1 avg_t2 (score_history (world s)));
                  SendData results None;
                  DeleteRoom])).
Proof.
  intros s.
  exact (finalize_scores_returns_in_every_session s
           (reach_boot "room" "multi" false 0 [0; 0; 300]%Q [])).
Defined.

(** X19.  [receive_transcript] appends the first 1000 characters of the
    text to what the speaker has said in the round [round_index] designates,
    and leaves alone what any other speaker has said in that round and what
    anyone has said in any other round. *)
Theorem receive_transcript_appends_to_one_speaker_of_one_round speaker text w r :
  py_index ROUNDS (round_index (userdata w)) = Some r ->
  let u' := userdata (world_of (receive_transcript speaker text w)) in
  utterances_of (fst (fst r)) speaker u'
    = (utterances_of (fst (fst r)) speaker (userdata w) ++ [prefix 1000 text])%list /\
  forall round_name speaker',
    round_name <> fst (fst r) \/ speaker' <> speaker ->
    utterances_of round_name speaker' u' = utterances_of round_name speaker' (userdata w).
Proof.
  intros Hr. cbv zeta.
  rewrite (receive_transcript_stores speaker text w r Hr). cbv zeta.
  cbn [world_of userdata]. unfold utterances_of. cbn [transcripts set_transcripts].
  set (name := fst (fst r)).
  split.
  - unfold dget_default at 1 2. rewrite !dget_dset_same. reflexivity.
  - intros round_name speaker' Hother.
    destruct (string_dec round_name name) as [-> | Hname].
    + destruct Hother as [Hne | Hne]; [congruence |].
      unfold dget_default at 1 2. rewrite dget_dset_same.
      rewrite dget_dset_other by congruence. reflexivity.
    + unfold dget_default at 2. rewrite dget_dset_other by congruence. reflexivity.
Qed.

Lemma receive_transcript_appends_to_one_speaker_of_one_round_witness :
  let w := mkWorld (set_transcripts [("constructive_a", [("A", ["hello"])])]
                      (initial_state "room" "multi")) [] [] [] [] in
  let r := ("constructive_a", 4 * 60, Single "A") in
  let u' := userdata (world_of (receive_transcript "A" "again" w)) in
  utterances_of (fst (fst r)) "A" u'
    = (utterances_of (fst (fst r)) "A" (userdata w) ++ [prefix 1000 "again"])%list /\
  forall round_name speaker',
    round_name <> fst (fst r) \/ speaker' <> "A" ->
    utterances_of round_name speaker' u' = utterances_of round_name speaker' (userdata w).
Proof.
  intros w r.
  apply (receive_transcript_appends_to_one_speaker_of_one_round "A" "again" w r).
  reflexivity.
Defined.

Lemma signals_not_finalize b m sp :
  filter is_finalize_request (speaking_signals b m sp) = [].
Proof.
  unfold speaking_signals. induction (eligible m sp); simpl; auto.
Qed.

Lemma ticks_not_finalize ticks :
  Forall is_tick ticks -> filter is_finalize_request ticks = [].
Proof.
  induction 1 as [| e r He _ IH]; simpl; auto.
  destruct He as [[d ->] | (name & sp & x & ->)]; simpl; exact IH.
Qed.

Lemma round_log_not_finalize m r ticks tr :
  Forall is_tick ticks -> filter is_finalize_request (round_log m r ticks tr) = [].
Proof.
  intros Ht. destruct r as [[round_name duration] sp]. unfold round_log.
  rewrite !filter_app, !signals_not_finalize, (ticks_not_finalize _ Ht).
  destruct ((duration =? 3 * 60) && Qltb tr 0); reflexivity.
Qed.













Lemma py_index_in_bounds {A : Type} (l : list A) i :
  - Z.of_nat (length l) <= i < Z.of_nat (length l) -> exists x, py_index l i = Some x.
Proof.
  intros Hi. unfold py_index.
  destruct (Z_lt_le_dec i 0) as [Hneg | Hpos].
  - replace (0 <=? i) with false by (symmetry; apply Z.leb_gt; exact Hneg).
    replace (- Z.of_nat (length l) <=? i) with true by (symmetry; apply Z.leb_le; lia).
    replace (i <? 0) with true by (symmetry; apply Z.ltb_lt; exact Hneg).
    cbn [andb].
    destruct (nth_error l (Z.to_nat (Z.of_nat (length l) + i))) as [x |] eqn:E; [eauto |].
    apply nth_error_None in E. lia.
  - replace (0 <=? i) with true by (symmetry; apply Z.leb_le; exact Hpos).
    replace (i <? Z.of_nat (length l)) with true by (symmetry; apply Z.ltb_lt; lia).
    cbn [andb].
    destruct (nth_error l (Z.to_nat i)) as [x |] eqn:E; [eauto |].
    apply nth_error_None in E. lia.
Qed.

Lemma py_index_out_of_bounds {A : Type} (l : list A) i :
  i < - Z.of_nat (length l) \/ Z.of_nat (length l) <= i -> py_index l i = None.
Proof.
  intros Hi. unfold py_index.
  destruct Hi as [Hi | Hi].
  - replace (0 <=? i) with false by (symmetry; apply Z.leb_gt; lia).
    replace (- Z.of_nat (length l) <=? i) with false by (symmetry; apply Z.leb_gt; lia).
    reflexivity.
  - replace (i <? Z.of_nat (length l)) with false by (symmetry; apply Z.ltb_ge; lia).
    replace (i <? 0) with false by (symmetry; apply Z.ltb_ge; lia).
    rewrite !andb_false_r. reflexivity.
Qed.

(** X21.  [receive_transcript] returns exactly when [round_index] designates
    a round of [ROUNDS], counting from the end when it is negative.  Once the
    last round is over, and [round_index] is the number of rounds, it raises
    [IndexError] and neither stores the text nor writes it to the file. *)
Theorem receive_transcript_needs_a_round speaker text w :
  let i := round_index (userdata w) in
  let n := Z.of_nat (length ROUNDS) in
  (- n <= i < n -> exists w', receive_transcript speaker text w = Ok tt w') /\
  (i < - n \/ n <= i -> receive_transcript speaker text w = Raised IndexError w).
Proof.
  cbv zeta. split.
  - intros Hi. destruct (py_index_in_bounds ROUNDS _ Hi) as [r Hr].
    rewrite (receive_transcript_stores speaker text w r Hr). eexists. reflexivity.
  - intros Hi. apply receive_transcript_raises. apply py_index_out_of_bounds. exact Hi.
Qed.

Lemma receive_transcript_utterances speaker text w r :
  py_index ROUNDS (round_index (userdata w)) = Some r ->
  forall round_name speaker',
    utterances_of round_name speaker' (userdata (world_of (receive_transcript speaker text w)))
    = if String.eqb round_name (fst (fst r)) && String.eqb speaker' speaker
      then (utterances_of round_name speaker' (userdata w) ++ [prefix 1000 text])%list
      else utterances_of round_name speaker' (userdata w).
Proof.
  intros Hr round_name speaker'.
  rewrite (receive_transcript_stores speaker text w r Hr). cbv zeta.
  cbn [world_of userdata]. unfold utterances_of. cbn [transcripts set_transcripts].
  set (name := fst (fst r)).
  destruct (String.eqb_spec round_name name) as [-> | Hname]; cbn [andb].
  - unfold dget_default at 2. rewrite dget_dset_same.
    destruct (String.eqb_spec speaker' speaker) as [-> | Hsp].
    + unfold dget_default at 1. rewrite dget_dset_same. reflexivity.
    + unfold dget_default at 1. rewrite dget_dset_other by congruence. reflexivity.
  - unfold dget_default at 2. rewrite dget_dset_other by congruence. reflexivity.
Qed.

Lemma capped_frame u u' : transcripts u' = transcripts u -> capped u -> capped u'.
Proof. unfold capped, utterances_of. intros ->. auto. Qed.

Lemma step_capped s s' :
  step s s' -> capped (userdata (world s)) -> capped (userdata (world s')).
Proof.
  intros Hstep Hinv. destruct Hstep; cbn [world].
  - exact Hinv.
  - destruct (py_index ROUNDS (round_index (userdata (world s)))) as [r |] eqn:Hr.
    + intros round_name speaker' x.
      rewrite (receive_transcript_utterances speaker text (world s) r Hr).
      destruct (String.eqb round_name (fst (fst r)) && String.eqb speaker' speaker).
      * intros Hin. apply in_app_or in Hin. destruct Hin as [Hin | [<- | []]].
        -- apply (Hinv _ _ _ Hin).
        -- rewrite length_prefix. apply Nat.le_min_l.
      * apply Hinv.
    + rewrite (receive_transcript_raises speaker text (world s) Hr). exact Hinv.
  - destruct (request_prep_time_footprint team (world s)) as ((tr & ri & Hu) & _).
    apply (capped_frame (userdata (world s))); [rewrite Hu; reflexivity | exact Hinv].
  - destruct (start_round_footprint (world s)) as ((tr & ri & Hu) & _).
    apply (capped_frame (userdata (world s))); [rewrite Hu; reflexivity | exact Hinv].
  - destruct (score_round_footprint (world s)) as ([sc Hu] & _).
    apply (capped_frame (userdata (world s))); [rewrite Hu; reflexivity | exact Hinv].
  - destruct (finalize_scores_keeps_the_world (world s)) as [Hu _].
    apply (capped_frame (userdata (world s))); [rewrite Hu; reflexivity | exact Hinv].
Qed.

(** X22.  In every state a session reaches, no utterance stored in the
    transcripts is longer than 1000 characters, whichever round and speaker
    it is filed under. *)
Theorem stored_utterances_are_capped s round_name speaker x :
  reachable s ->
  In x (utterances_of round_name speaker (userdata (world s))) ->
  (String.length x <= 1000)%nat.
Proof.
  intros Hs. revert round_name speaker x. fold (capped (userdata (world s))).
  induction Hs as [room mode_ swapped pick readings answers | s s' _ IH Hstep].
  - unfold boot. cbn [world]. rewrite initialize_debate_enters_the_first_round.
    destruct (start_round_footprint
                (initialized swapped pick
                   (mkWorld (initial_state room mode_) [] readings answers [])))
      as ((tr & ri & Hu) & _).
    rewrite Hu. intros round_name speaker x Hin. contradiction Hin.
  - apply (step_capped s s'); assumption.
Qed.

Lemma stored_utterances_are_capped_witness :
  let s := mkSystem
             (world_of (receive_transcript "A" "I affirm the motion."
                          (world (boot "room" "multi" false 0 [0; 0; 300]%Q [])))) 0 in
  (String.length "I affirm the motion." <= 1000)%nat.
Proof.
  intros s.
  apply (stored_utterances_are_capped s "constructive_c" "A" "I affirm the motion.").
  - apply (reach_step (boot "room" "multi" false 0 [0; 0; 300]%Q []));
      [apply reach_boot | apply step_transcript].
  - vm_compute. left. reflexivity.
Defined.


